(** * Storage abstraction and SQL session lifecycle of py-fastapi-template

    Shallow embedding of [shared/services]: the content addresser
    ([file_storage.py]), the four storage backends
    ([local_file_storage.py], [s3_file_storage.py], [gcs_file_storage.py],
    [sftp_file_storage.py]) and the relational session manager
    ([sql_db.py], [gcp_sql_db.py]); of the expansion of the configuration
    file and the lookup of a service ([shared/core/config.py]); and of
    the API key dependency ([api/core/auth.py]).

    Conventions.
    - A Python [str] is a Rocq [string]; its characters are the code points
      below 256.  [bytes] is [list byte].
    - A method is a function from the state before the call to the state
      after it and an [outcome]: the value returned or the exception raised.
      The state is [self] and the world: the environment, what the
      backends store, and the database runtime.
    - A library call that the source guards with [try]/[except] or with a
      retry decorator consults the fault schedule of the environment: the
      next entry says whether the call goes through or which exception it
      raises.  A call the source does not guard ([Path.mkdir],
      [Path.exists], [session.close()], [engine.dispose()]) fails only as
      its model says; cancellation of a task is not modelled.
    - The content type sent with an object is left out. *)

From Stdlib Require Import ZArith Ascii String List Lia DecimalString.
From Stdlib.Strings Require Import Byte.
From stdpp Require Import base option list gmap strings sorting.

Import ListNotations.
Local Open Scope string_scope.

(* ===================================================================== *)
(** ** Python strings and [pathlib.PurePosixPath]                         *)
(* ===================================================================== *)

Module Py.

(** [s[lo:hi]] for [0 <= lo <= hi]: slicing clips at the end of [s]. *)
Definition slice (lo hi : nat) (s : string) : string :=
  String.substring lo (hi - lo) s.

(** [s.lstrip(c)] for a one-character argument. *)
Fixpoint lstrip (c : ascii) (s : string) : string :=
  match s with
  | String a s' => if Ascii.eqb a c then lstrip c s' else s
  | EmptyString => s
  end.

(** Truth value of a [str | None] in a condition. *)
Definition truthy_str (o : option string) : bool :=
  match o with
  | Some (String _ _) => true
  | _ => false
  end.

(** [s.split(sep)] for a one-character separator: the pieces between
    separators, empty pieces included. *)
Fixpoint split_go (sep : ascii) (cur : string) (s : string) : list string :=
  match s with
  | EmptyString => [String.rev cur]
  | String a s' =>
      if Ascii.eqb a sep then String.rev cur :: split_go sep EmptyString s'
      else split_go sep (String a cur) s'
  end.

Definition split (sep : ascii) (s : string) : list string :=
  split_go sep EmptyString s.

(** [sep.join(l)]. *)
Fixpoint join (sep : string) (l : list string) : string :=
  match l with
  | [] => ""
  | [x] => x
  | x :: l' => x ++ sep ++ join sep l'
  end.

(** [s.rsplit(sep, 1)[0]]: everything before the last separator, or all
    of [s] when it has none. *)
Definition rsplit1_head (sep : ascii) (s : string) : string :=
  match List.rev (split sep s) with
  | [] => s
  | [_] => s
  | _ :: before => join (String sep EmptyString) (List.rev before)
  end.

(** [sub in s]. *)
Fixpoint contains (sub s : string) : bool :=
  String.prefix sub s
  || match s with
     | EmptyString => false
     | String _ s' => contains sub s'
     end.

(** Objects whose truth value the source tests. A coroutine object, as
    every object without [__bool__] and [__len__], is true. *)
Inductive object :=
| PyNone
| PyBool (b : bool)
| PyCoroutine.

Definition truthy (o : object) : bool :=
  match o with
  | PyNone => false
  | PyBool b => b
  | PyCoroutine => true
  end.

(** [str(n)] of an [int], as an f-string formats it. *)
Definition str_of_int (n : Z) : string := NilZero.string_of_int (Z.to_int n).

(** [c.isspace()] on the code points below 256. *)
Definition isspace (c : ascii) : bool :=
  let n := nat_of_ascii c in
  (Nat.leb 9 n && Nat.leb n 13) || (Nat.leb 28 n && Nat.leb n 32)
  || Nat.eqb n 133 || Nat.eqb n 160.

(** [s.lstrip()], [s.rstrip()] and [s.strip()] without argument. *)
Fixpoint lstrip_space (s : string) : string :=
  match s with
  | String a s' => if isspace a then lstrip_space s' else s
  | EmptyString => s
  end.

Definition rstrip_space (s : string) : string :=
  String.rev (lstrip_space (String.rev s)).

Definition strip (s : string) : string := rstrip_space (lstrip_space s).

(** [s.lower()] on the code points below 256: the letters [A]-[Z] and the
    capital letters of Latin-1. *)
Definition lower_char (c : ascii) : ascii :=
  let n := nat_of_ascii c in
  if (Nat.leb 65 n && Nat.leb n 90)
     || (Nat.leb 192 n && Nat.leb n 222 && negb (Nat.eqb n 215))
  then ascii_of_nat (n + 32) else c.

Fixpoint lower (s : string) : string :=
  match s with
  | String a s' => String (lower_char a) (lower s')
  | EmptyString => EmptyString
  end.

End Py.

Module Pathlib.

(** A pure POSIX path: its root ([""], ["/"] or ["//"]) and its parts. *)
Record Path := mkPath { root : string; parts : list string }.

#[global] Instance Path_eq_dec : EqDecision Path.
Proof. solve_decision. Defined.

(** [posixpath.splitroot]. *)
Definition splitroot (p : string) : string * string :=
  match p with
  | String "/" (String "/" (String "/" r)) => ("/", String "/" (String "/" r))
  | String "/" (String "/" r) => ("//", r)
  | String "/" r => ("/", r)
  | _ => ("", p)
  end.

Definition keep_part (x : string) : bool :=
  negb (String.eqb x "") && negb (String.eqb x ".").

(** [Path(s)]: the root is split off, then empty and ["."] parts go. *)
Definition of_string (s : string) : Path :=
  let '(r, rel) := splitroot s in
  mkPath r (List.filter keep_part (Py.split "/" rel)).

(** [a / b]: an absolute right operand replaces the left one. *)
Definition truediv (a b : Path) : Path :=
  match root b with
  | EmptyString => mkPath (root a) (parts a ++ parts b)
  | _ => b
  end.

(** [p.parent]; a path without parts is its own parent. *)
Definition parent (p : Path) : Path :=
  mkPath (root p) (List.removelast (parts p)).

(** [p.as_posix()], also [str(p)]. *)
Definition as_posix (p : Path) : string :=
  match root p, parts p with
  | EmptyString, [] => "."
  | r, ps => r ++ Py.join "/" ps
  end.

End Pathlib.

Export Pathlib(Path, mkPath).

(* ===================================================================== *)
(** ** [hashlib.md5] (RFC 1321) on 32-bit words held in [Z]               *)
(* ===================================================================== *)

Module MD5.
Local Open Scope Z_scope.

Definition mask32 : Z := 0xFFFFFFFF.
Definition add32 (a b : Z) : Z := Z.land (a + b) mask32.
Definition not32 (a : Z) : Z := Z.lxor a mask32.
Definition rotl32 (x c : Z) : Z :=
  Z.lor (Z.land (Z.shiftl x c) mask32) (Z.shiftr x (32 - c)).

Definition shifts : list Z :=
  [7; 12; 17; 22; 7; 12; 17; 22; 7; 12; 17; 22; 7; 12; 17; 22;
   5;  9; 14; 20; 5;  9; 14; 20; 5;  9; 14; 20; 5;  9; 14; 20;
   4; 11; 16; 23; 4; 11; 16; 23; 4; 11; 16; 23; 4; 11; 16; 23;
   6; 10; 15; 21; 6; 10; 15; 21; 6; 10; 15; 21; 6; 10; 15; 21].

Definition sines : list Z :=
  [0xd76aa478; 0xe8c7b756; 0x242070db; 0xc1bdceee;
   0xf57c0faf; 0x4787c62a; 0xa8304613; 0xfd469501;
   0x698098d8; 0x8b44f7af; 0xffff5bb1; 0x895cd7be;
   0x6b901122; 0xfd987193; 0xa679438e; 0x49b40821;
   0xf61e2562; 0xc040b340; 0x265e5a51; 0xe9b6c7aa;
   0xd62f105d; 0x02441453; 0xd8a1e681; 0xe7d3fbc8;
   0x21e1cde6; 0xc33707d6; 0xf4d50d87; 0x455a14ed;
   0xa9e3e905; 0xfcefa3f8; 0x676f02d9; 0x8d2a4c8a;
   0xfffa3942; 0x8771f681; 0x6d9d6122; 0xfde5380c;
   0xa4beea44; 0x4bdecfa9; 0xf6bb4b60; 0xbebfbc70;
   0x289b7ec6; 0xeaa127fa; 0xd4ef3085; 0x04881d05;
   0xd9d4d039; 0xe6db99e5; 0x1fa27cf8; 0xc4ac5665;
   0xf4292244; 0x432aff97; 0xab9423a7; 0xfc93a039;
   0x655b59c3; 0x8f0ccc92; 0xffeff47d; 0x85845dd1;
   0x6fa87e4f; 0xfe2ce6e0; 0xa3014314; 0x4e0811a1;
   0xf7537e82; 0xbd3af235; 0x2ad7d2bb; 0xeb86d391].

Record regs := mkRegs { rA : Z; rB : Z; rC : Z; rD : Z }.

Definition init : regs := mkRegs 0x67452301 0xefcdab89 0x98badcfe 0x10325476.

(** Little-endian bytes of a word, and back. *)
Definition le_bytes (n : nat) (w : Z) : list Z :=
  List.map (fun k => Z.land (Z.shiftr w (8 * Z.of_nat k)) 0xFF) (List.seq 0 n).

Fixpoint le_word (bs : list Z) : Z :=
  match bs with
  | [] => 0
  | b :: bs' => Z.lor b (Z.shiftl (le_word bs') 8)
  end.

Fixpoint words (n : nat) (bs : list Z) : list Z :=
  match n with
  | O => []
  | S n' => le_word (List.firstn 4 bs) :: words n' (List.skipn 4 bs)
  end.

(** One of the 64 operations of a block. *)
Definition step (m : list Z) (r : regs) (i : nat) : regs :=
  let i' := Z.of_nat i in
  let '(f, g) :=
    if i' <? 16 then
      (Z.lor (Z.land (rB r) (rC r)) (Z.land (not32 (rB r)) (rD r)), i')
    else if i' <? 32 then
      (Z.lor (Z.land (rD r) (rB r)) (Z.land (not32 (rD r)) (rC r)),
       (5 * i' + 1) mod 16)
    else if i' <? 48 then
      (Z.lxor (rB r) (Z.lxor (rC r) (rD r)), (3 * i' + 5) mod 16)
    else
      (Z.lxor (rC r) (Z.lor (rB r) (not32 (rD r))), (7 * i') mod 16) in
  let f' := add32 (add32 (add32 f (rA r)) (List.nth i sines 0))
                  (List.nth (Z.to_nat g) m 0) in
  mkRegs (rD r) (add32 (rB r) (rotl32 f' (List.nth i shifts 0))) (rB r) (rC r).

Definition block (h : regs) (chunk : list Z) : regs :=
  let r := List.fold_left (step (words 16 chunk)) (List.seq 0 64) h in
  mkRegs (add32 (rA h) (rA r)) (add32 (rB h) (rB r))
         (add32 (rC h) (rC r)) (add32 (rD h) (rD r)).

(** The message, a 1 bit, zeros up to 56 mod 64, the bit length on 64 bits. *)
Definition pad (msg : list Z) : list Z :=
  let len := Z.of_nat (List.length msg) in
  msg ++ [0x80] ++ List.repeat 0 (Z.to_nat ((55 - len) mod 64))
      ++ le_bytes 8 (Z.land (8 * len) 0xFFFFFFFFFFFFFFFF).

Fixpoint blocks (n : nat) (h : regs) (bs : list Z) : regs :=
  match n with
  | O => h
  | S n' => blocks n' (block h (List.firstn 64 bs)) (List.skipn 64 bs)
  end.

Definition digest (file : list byte) : list Z :=
  let bs := pad (List.map (fun b => Z.of_N (Byte.to_N b)) file) in
  let h := blocks (List.length bs / 64) init bs in
  le_bytes 4 (rA h) ++ le_bytes 4 (rB h) ++ le_bytes 4 (rC h) ++ le_bytes 4 (rD h).

Definition hex_digit (d : Z) : ascii :=
  List.nth (Z.to_nat d)
    ["0"; "1"; "2"; "3"; "4"; "5"; "6"; "7";
     "8"; "9"; "a"; "b"; "c"; "d"; "e"; "f"]%char "0"%char.

Fixpoint hex (bs : list Z) : string :=
  match bs with
  | [] => EmptyString
  | b :: bs' => String (hex_digit (Z.shiftr b 4)) (String (hex_digit (Z.land b 0xF)) (hex bs'))
  end.

(** [hashlib.md5(file).hexdigest()]. *)
Definition hexdigest (file : list byte) : string := hex (digest file).

End MD5.

(* ===================================================================== *)
(** ** The content addresser: [FileStorageService] base-class methods     *)
(* ===================================================================== *)

(** [FileStorageService.compute_file_id]. *)
Definition compute_file_id (file : list byte) : string :=
  MD5.hexdigest file.

(** [FileStorageService.get_storage_path]. *)
Definition get_storage_path (file_id : string) (extension : option string) : Path :=
  let ext :=
    if Py.truthy_str extension
    then "." ++ Py.lstrip "." (default "" extension)
    else "" in
  Pathlib.of_string
    (Py.slice 0 3 file_id ++ "/" ++ Py.slice 3 6 file_id ++ "/" ++ file_id ++ ext).

(* ===================================================================== *)
(** ** Exceptions, outcomes and the state the methods run in              *)
(* ===================================================================== *)

Module Exn.

(** The exception classes the source names or can meet, with the
    standard library's, SQLAlchemy's, botocore's, paramiko's and
    tenacity's inheritance. *)
Inductive cls :=
| BaseException | CancelledError | Exception
| OSError | FileNotFoundError | FileExistsError | NotADirectoryError
| IsADirectoryError | PermissionError | ConnectionError
| ValueError | TypeError | AttributeError
| SSHException | BotoCoreError | ClientError
| SQLAlchemyError | ArgumentError | DBAPIError | OperationalError
| RetryError.

#[global] Instance cls_eq_dec : EqDecision cls.
Proof. solve_decision. Defined.

Definition base (c : cls) : option cls :=
  match c with
  | BaseException => None
  | CancelledError => Some BaseException
  | Exception => Some BaseException
  | FileNotFoundError | FileExistsError | NotADirectoryError
  | IsADirectoryError | PermissionError | ConnectionError => Some OSError
  | ArgumentError | DBAPIError => Some SQLAlchemyError
  | OperationalError => Some DBAPIError
  | OSError | ValueError | TypeError | AttributeError | SSHException
  | BotoCoreError | ClientError | SQLAlchemyError | RetryError => Some Exception
  end.

Fixpoint issubclass_fuel (n : nat) (c d : cls) : bool :=
  bool_decide (c = d)
  || match n, base c with
     | S n', Some b => issubclass_fuel n' b d
     | _, _ => false
     end.

Definition issubclass : cls -> cls -> bool := issubclass_fuel 4.

Record exn := mk { class : cls; msg : string }.

(** [isinstance(e, (C1, ..., Cn))]. *)
Definition isinstance (e : exn) (cs : list cls) : bool :=
  List.existsb (issubclass (class e)) cs.

End Exn.

Export Exn(exn).

Inductive outcome (A : Type) : Type :=
| Returned (a : A)
| Raised (e : exn).
Arguments Returned {A} a.
Arguments Raised {A} e.

Inductive level := DEBUG | INFO | WARNING | ERROR | EXCEPTION.

(** What a path names on a disk or on an SFTP server. *)
Inductive node :=
| Dir
| File (content : list byte).

#[global] Instance Path_countable : Countable Path.
Proof.
  refine (inj_countable' (fun p => (Pathlib.root p, Pathlib.parts p))
                         (fun rp => mkPath rp.1 rp.2) _).
  intros []; reflexivity.
Defined.

(** The environment of a call: the fault schedule of the coming guarded
    library calls ([None]: the call goes through), what the logger has
    received, and the seconds slept between retries. *)
Record Env := mkEnv {
  faults : list (option exn);
  log : list (level * string);
  slept : list Z;
}.

(** What the storage backends store: the local disk, the objects of the
    S3 and GCS buckets by bucket and key, the files of the SFTP server. *)
Record Stores := mkStores {
  disk : gmap Path node;
  s3_objects : gmap (string * string) (list byte);
  gcs_objects : gmap (string * string) (list byte);
  sftp_files : gmap string node;
}.

(** A statement sent through a session. *)
Inductive stmt :=
| SExecute (query : string)
| SAdd (obj : string)
| SAddAll (objs : list string)
| SDelete (obj : string)
| SCommit
| SRollback
| SRefresh (obj : string).

(** The database side of the process: the logical task that is running,
    the class attribute [SQLDatabaseService._session_ctx] (one
    [ContextVar], holding a session per task), the sessions closed so
    far, the number of sessions created, the engines built and disposed,
    and the statements issued, newest first. *)
Record DbRuntime := mkDb {
  task : nat;
  _session_ctx : gmap nat nat;
  closed : list nat;
  sessions_made : nat;
  engines_built : nat;
  engines_disposed : nat;
  issued : list (nat * stmt);
}.

Record World := mkWorld { env : Env; stores : Stores; db : DbRuntime }.

(** The state of a method call: the object [self] and the world. *)
Record st (T : Type) := mkSt { self : T; world : World }.
Arguments mkSt {T} self world.
Arguments self {T} s.
Arguments world {T} s.

Definition with_env (f : Env -> Env) (w : World) : World :=
  mkWorld (f (env w)) (stores w) (db w).
Definition with_stores (f : Stores -> Stores) (w : World) : World :=
  mkWorld (env w) (f (stores w)) (db w).
Definition with_db (f : DbRuntime -> DbRuntime) (w : World) : World :=
  mkWorld (env w) (stores w) (f (db w)).

Definition set_faults (fs : list (option exn)) (e : Env) : Env :=
  mkEnv fs (log e) (slept e).
Definition add_log (l : level) (event : string) (e : Env) : Env :=
  mkEnv (faults e) (log e ++ [(l, event)]) (slept e).
Definition add_sleep (seconds : Z) (e : Env) : Env :=
  mkEnv (faults e) (log e) (slept e ++ [seconds]).

Definition set_disk (d : gmap Path node) (s : Stores) : Stores :=
  mkStores d (s3_objects s) (gcs_objects s) (sftp_files s).
Definition set_s3_objects (o : gmap (string * string) (list byte)) (s : Stores) : Stores :=
  mkStores (disk s) o (gcs_objects s) (sftp_files s).
Definition set_gcs_objects (o : gmap (string * string) (list byte)) (s : Stores) : Stores :=
  mkStores (disk s) (s3_objects s) o (sftp_files s).
Definition set_sftp_files (f : gmap string node) (s : Stores) : Stores :=
  mkStores (disk s) (s3_objects s) (gcs_objects s) f.

(** *** The monad of methods *)

Definition M (S A : Type) : Type := S -> S * outcome A.

Section Monad.
Context {S : Type}.

Definition ret {A} (a : A) : M S A := fun s => (s, Returned a).

Definition raise {A} (e : exn) : M S A := fun s => (s, Raised e).

Definition bind {A B} (m : M S A) (k : A -> M S B) : M S B :=
  fun s =>
    match m s with
    | (s1, Returned a) => k a s1
    | (s1, Raised e) => (s1, Raised e)
    end.

Definition gets {A} (f : S -> A) : M S A := fun s => (s, Returned (f s)).

Definition modify (f : S -> S) : M S unit := fun s => (f s, Returned tt).

(** [try: body / except catches: handler / else: orelse].  An exception
    of [orelse] is not caught. *)
Definition try_else {A B} (body : M S A) (catches : exn -> bool)
    (handler : exn -> M S B) (orelse : A -> M S B) : M S B :=
  fun s =>
    match body s with
    | (s1, Returned a) => orelse a s1
    | (s1, Raised e) => if catches e then handler e s1 else (s1, Raised e)
    end.

(** [try: body / except catches: handler]. *)
Definition try_ {A} (body : M S A) (catches : exn -> bool)
    (handler : exn -> M S A) : M S A :=
  try_else body catches handler ret.

End Monad.

Declare Scope py_scope.
Delimit Scope py_scope with py.
Notation "'do' x <- m ; k" := (bind m (fun x => k))
  (at level 10, x name, m at level 100, k at level 200) : py_scope.
Notation "m ;; k" := (bind m (fun _ => k))
  (at level 100, k at level 200, right associativity) : py_scope.
Local Open Scope py_scope.

Section Process.
Context {T : Type}.

Definition modify_world (f : World -> World) : M (st T) unit :=
  modify (fun s => mkSt (self s) (f (world s))).

Definition modify_self (f : T -> T) : M (st T) unit :=
  modify (fun s => mkSt (f (self s)) (world s)).

(** A guarded library call takes the next entry of the fault schedule. *)
Definition external_call : M (st T) unit :=
  do fs <- gets (fun s => faults (env (world s)));
  match fs with
  | [] => ret tt
  | None :: fs' => modify_world (with_env (set_faults fs'))
  | Some e :: fs' => modify_world (with_env (set_faults fs')) ;; raise e
  end.

(** [get_logger().<level>(event, ...)]. *)
Definition logger (l : level) (event : string) : M (st T) unit :=
  modify_world (with_env (add_log l event)).

Definition sleep (seconds : Z) : M (st T) unit :=
  modify_world (with_env (add_sleep seconds)).

End Process.

(* ===================================================================== *)
(** ** [tenacity.retry]                                                   *)
(* ===================================================================== *)

Module Tenacity.

Record policy := mkPolicy {
  stop_after_attempt : nat;
  multiplier : Z;
  wait_min : Z;
  wait_max : Z;
  reraise : bool;
}.

(** [wait_exponential(multiplier, min, max)] before attempt
    [attempt_number + 1]. *)
Definition wait_exponential (p : policy) (attempt_number : nat) : Z :=
  Z.max (Z.max 0 (wait_min p))
        (Z.min (multiplier p * 2 ^ (Z.of_nat attempt_number - 1)) (wait_max p)).

(** The default [retry=retry_if_exception_type()]. *)
Definition retry_if_exception_type {S} (e : exn) : M S bool :=
  ret (Exn.isinstance e [Exn.Exception]).

Definition retry_error (last : exn) : exn :=
  Exn.mk Exn.RetryError (Exn.msg last).

Section Retrying.
Context {T A : Type} (p : policy) (retry_if : exn -> M (st T) bool).

(** Attempt [attempt_number], with [remaining] attempts allowed after
    it: a result is returned, an exception the predicate rejects is
    raised as it is, and so is the last one when [reraise] is set;
    without it the last one is wrapped in [RetryError]. *)
Fixpoint attempts (remaining attempt_number : nat) (fn : M (st T) A)
    : M (st T) A :=
  fun s =>
    match fn s with
    | (s1, Returned a) => (s1, Returned a)
    | (s1, Raised e) =>
        (do again <- retry_if e;
         if again then
           match remaining with
           | O => raise (if reraise p then e else retry_error e)
           | Datatypes.S r =>
               sleep (wait_exponential p attempt_number) ;;
               attempts r (Datatypes.S attempt_number) fn
           end
         else raise e) s1
    end.

(** The decorated function. *)
Definition retry (fn : M (st T) A) : M (st T) A :=
  attempts (stop_after_attempt p - 1) 1 fn.

End Retrying.

End Tenacity.

(** Every storage backend decorates its connection step with
    [@retry(stop=stop_after_attempt(5),
            wait=wait_exponential(multiplier=1, min=1, max=10))]. *)
Definition storage_policy : Tenacity.policy :=
  Tenacity.mkPolicy 5 1 1 10 false.

Definition storage_retry {T A} : M (st T) A -> M (st T) A :=
  Tenacity.retry storage_policy Tenacity.retry_if_exception_type.

(* ===================================================================== *)
(** ** The local disk as [pathlib.Path] sees it                           *)
(* ===================================================================== *)

(** A path without parts is the current directory or a root. Symbolic
    links and [..] are not interpreted. *)
Definition stat_disk (d : gmap Path node) (p : Path) : option node :=
  match Pathlib.parts p with
  | [] => Some Dir
  | _ => d !! p
  end.

Section Disk.
Context {T : Type}.

Definition get_disk : M (st T) (gmap Path node) :=
  gets (fun s => disk (stores (world s))).

Definition put_disk (d : gmap Path node) : M (st T) unit :=
  modify_world (with_stores (set_disk d)).

(** [p.exists()]. *)
Definition Path_exists (p : Path) : M (st T) bool :=
  do d <- get_disk;
  ret (match stat_disk d p with Some _ => true | None => false end).

(** [p.is_dir()]. *)
Definition Path_is_dir (p : Path) : M (st T) bool :=
  do d <- get_disk;
  ret (match stat_disk d p with Some Dir => true | _ => false end).

(** [os.mkdir(p)]. *)
Definition os_mkdir (p : Path) : M (st T) unit :=
  do d <- get_disk;
  match stat_disk d p with
  | Some _ => raise (Exn.mk Exn.FileExistsError "File exists")
  | None =>
      match stat_disk d (Pathlib.parent p) with
      | Some Dir => put_disk (<[p := Dir]> d)
      | Some (File _) => raise (Exn.mk Exn.NotADirectoryError "Not a directory")
      | None => raise (Exn.mk Exn.FileNotFoundError "No such file or directory")
      end
  end.

(** [Path.mkdir(parents, exist_ok)]; [fuel] bounds the ancestors. *)
Fixpoint mkdir_fuel (fuel : nat) (p : Path) (parents exist_ok : bool)
    : M (st T) unit :=
  try_ (os_mkdir p)
    (fun e => Exn.isinstance e [Exn.OSError])
    (fun e =>
       if Exn.isinstance e [Exn.FileNotFoundError] then
         if negb parents || bool_decide (Pathlib.parent p = p) then raise e
         else
           match fuel with
           | O => raise e
           | Datatypes.S fuel' =>
               mkdir_fuel fuel' (Pathlib.parent p) true true ;;
               mkdir_fuel fuel' p false exist_ok
           end
       else
         do isdir <- Path_is_dir p;
         if negb exist_ok || negb isdir then raise e else ret tt).

Definition Path_mkdir (p : Path) (parents exist_ok : bool) : M (st T) unit :=
  mkdir_fuel (Datatypes.S (List.length (Pathlib.parts p))) p parents exist_ok.

(** [p.open("wb")]: the file is created or truncated. *)
Definition Path_open_wb (p : Path) : M (st T) unit :=
  external_call ;;
  do d <- get_disk;
  match stat_disk d p with
  | Some Dir => raise (Exn.mk Exn.IsADirectoryError "Is a directory")
  | _ =>
      match stat_disk d (Pathlib.parent p) with
      | Some Dir => put_disk (<[p := File []]> d)
      | Some (File _) => raise (Exn.mk Exn.NotADirectoryError "Not a directory")
      | None => raise (Exn.mk Exn.FileNotFoundError "No such file or directory")
      end
  end.

(** [f.write(file)] on the file opened at [p], then its closing. *)
Definition file_write (p : Path) (file : list byte) : M (st T) unit :=
  external_call ;;
  do d <- get_disk;
  put_disk (<[p := File file]> d).

End Disk.

(* ===================================================================== *)
(** ** The storage backends                                               *)
(* ===================================================================== *)

(** The abstract methods of [FileStorageService] that the properties
    concern. *)
Class FileStorageService (T : Type) := {
  upload_file_with_id : string -> list byte -> option string -> M (st T) bool;
  exists_ : Path -> M (st T) bool;
}.

(** [FileStorageService.upload_file]: the call is awaited and its value
    dropped; the method has no [return]. *)
Definition upload_file {T} `{FileStorageService T}
    (file : list byte) (extension : option string) : M (st T) Py.object :=
  upload_file_with_id (compute_file_id file) file extension ;;
  ret Py.PyNone.

(** Calling an [async def] method without [await] makes a coroutine
    object and runs nothing of its body. *)
Definition call_without_await {S A} (coroutine : M S A) : Py.object :=
  Py.PyCoroutine.

Module Local.

Record t := mk { root_path : Path }.

Definition upload_file_with_id (file_id : string) (file : list byte)
    (extension : option string) : M (st t) bool :=
  let storage_path := get_storage_path file_id extension in
  do root <- gets (fun s => root_path (self s));
  let local_path := Pathlib.truediv root storage_path in
  Path_mkdir (Pathlib.parent local_path) true true ;;
  do found <- Path_exists local_path;
  if found then
    logger ERROR "File already exists" ;;
    ret false
  else
    try_else
      (Path_open_wb local_path ;; file_write local_path file)
      (fun e => Exn.isinstance e [Exn.OSError; Exn.ValueError])
      (fun _ => logger EXCEPTION "Error saving file" ;; ret false)
      (fun _ => logger DEBUG "Wrote local file" ;; ret true).

Definition exists_ (storage_path : Path) : M (st t) bool :=
  do root <- gets (fun s => root_path (self s));
  Path_exists (Pathlib.truediv root storage_path).

End Local.

#[global] Instance Local_service : FileStorageService Local.t :=
  {| upload_file_with_id := Local.upload_file_with_id;
     exists_ := Local.exists_ |}.

(** *** S3 *)

Definition str_le (a b : string) : Prop := String.leb a b = true.

#[global] Instance str_le_dec (a b : string) : Decision (str_le a b).
Proof. unfold str_le. apply _. Defined.

(** ["Contents"] of the response of
    [list_objects_v2(Bucket, Prefix, MaxKeys)]: the first [max_keys] keys
    of the bucket that start with the prefix, in ascending byte order;
    the response has no ["Contents"] when there is none. *)
Definition list_objects_v2 (objects : gmap (string * string) (list byte))
    (bucket prefix : string) (max_keys : nat) : option (list string) :=
  let keys :=
    List.map snd
      (List.filter (fun bk => String.eqb (fst bk) bucket && String.prefix prefix (snd bk))
         (List.map fst (map_to_list objects))) in
  match List.firstn max_keys (merge_sort str_le keys) with
  | [] => None
  | contents => Some contents
  end.

Module S3.

Record t := mk {
  bucket_name : string;
  access_key : string;
  secret_key : string;
  endpoint_url : string;
  root_path : Path;
  s3_session : bool;
}.

Definition set_s3_session (v : bool) (x : t) : t :=
  mk (bucket_name x) (access_key x) (secret_key x) (endpoint_url x) (root_path x) v.

(** The body of [get_client]: [aioboto3.Session()] when there is no
    session yet, then [session.client("s3", ...)]. *)
Definition get_client_body : M (st t) unit :=
  try_else
    (do have <- gets (fun s => s3_session (self s));
     (if negb have
      then external_call ;; modify_self (set_s3_session true)
      else ret tt) ;;
     external_call ;;
     logger DEBUG "Successfully created S3 client")
    (fun e => Exn.isinstance e [Exn.BotoCoreError; Exn.ClientError])
    (fun e => logger EXCEPTION "Failed to create S3 client" ;; raise e)
    (fun _ => ret tt).

Definition get_client : M (st t) unit :=
  storage_retry get_client_body.

Definition s3_path_of (x : t) (storage_path : Path) : string :=
  Pathlib.as_posix (Pathlib.truediv (root_path x) storage_path).

(** Entering the client got from [get_client] and listing the key, the
    same in [upload_file_with_id] and [exists]. *)
Definition list_key (s3_path : string) : M (st t) bool :=
  external_call ;;  (* the client's __aenter__ *)
  external_call ;;  (* list_objects_v2 *)
  do bucket <- gets (fun s => bucket_name (self s));
  do objects <- gets (fun s => s3_objects (stores (world s)));
  ret (match list_objects_v2 objects bucket s3_path 1 with
       | Some contents => List.existsb (fun key => String.eqb key s3_path) contents
       | None => false
       end).

(** [async with await self.get_client() as s3_client] and the listing. *)
Definition key_listed (s3_path : string) : M (st t) bool :=
  get_client ;;
  list_key s3_path.

Definition put_object (key : string) (body : list byte) : M (st t) unit :=
  external_call ;;
  do bucket <- gets (fun s => bucket_name (self s));
  do objects <- gets (fun s => s3_objects (stores (world s)));
  modify_world (with_stores (set_s3_objects (<[(bucket, key) := body]> objects))).

Definition upload_file_with_id (file_id : string) (file : list byte)
    (extension : option string) : M (st t) bool :=
  let storage_path := get_storage_path file_id extension in
  do x <- gets self;
  let s3_path := s3_path_of x storage_path in
  try_
    (do found <- key_listed s3_path;
     if found then
       logger ERROR "File already exists" ;;
       ret false
     else
       put_object s3_path file ;;
       logger DEBUG "Wrote S3 file" ;;
       ret true)
    (fun e => Exn.isinstance e [Exn.BotoCoreError; Exn.ClientError])
    (fun _ => logger EXCEPTION "Error saving file to S3" ;; ret false).

Definition exists_ (storage_path : Path) : M (st t) bool :=
  do x <- gets self;
  let s3_path := s3_path_of x storage_path in
  try_
    (key_listed s3_path)
    (fun e => Exn.isinstance e [Exn.BotoCoreError; Exn.ClientError])
    (fun _ => logger EXCEPTION "Failed list_objects_v2" ;; ret false).

(** [f"{self.endpoint_url}/{self.bucket_name}/{s3_path}"]. *)
Definition get_url (x : t) (storage_path : Path) : string :=
  endpoint_url x ++ "/" ++ bucket_name x ++ "/" ++ s3_path_of x storage_path.

End S3.

#[global] Instance S3_service : FileStorageService S3.t :=
  {| upload_file_with_id := S3.upload_file_with_id;
     exists_ := S3.exists_ |}.

(** *** Google Cloud Storage *)

Module GCS.

(** [gcs_client] and [bucket] say whether the attribute is set; the
    bucket object, once made, is the one of [bucket_name]. *)
Record t := mk {
  bucket_name : string;
  project_id : string;
  root_path : Path;
  gcs_client : bool;
  bucket : bool;
}.

Definition set_gcs_client (v : bool) (x : t) : t :=
  mk (bucket_name x) (project_id x) (root_path x) v (bucket x).
Definition set_bucket (v : bool) (x : t) : t :=
  mk (bucket_name x) (project_id x) (root_path x) (gcs_client x) v.

Definition ensure_connection_body : M (st t) unit :=
  try_
    (do x <- gets self;
     (if negb (gcs_client x)
      then external_call ;; modify_self (set_gcs_client true)
      else ret tt) ;;
     (if negb (bucket x) && Py.truthy_str (Some (bucket_name x))
      then modify_self (set_bucket true)
      else ret tt) ;;
     logger INFO "Successfully connected to GCS")
    (fun e => Exn.isinstance e [Exn.Exception])
    (fun e => logger EXCEPTION "Failed to connect to GCS" ;; raise e).

Definition ensure_connection : M (st t) unit :=
  storage_retry ensure_connection_body.

Definition gcs_path_of (x : t) (storage_path : Path) : string :=
  Pathlib.as_posix (Pathlib.truediv (root_path x) storage_path).

(** [self.bucket.blob(gcs_path)]: the bucket the blob belongs to. *)
Definition blob : M (st t) string :=
  do x <- gets self;
  if bucket x then ret (bucket_name x)
  else raise (Exn.mk Exn.AttributeError "'NoneType' object has no attribute 'blob'").

Definition blob_exists (bucket_ gcs_path : string) : M (st t) bool :=
  external_call ;;
  do objects <- gets (fun s => gcs_objects (stores (world s)));
  ret (bool_decide (is_Some (objects !! (bucket_, gcs_path)))).

Definition upload_from_string (bucket_ gcs_path : string) (file : list byte)
    : M (st t) unit :=
  external_call ;;
  do objects <- gets (fun s => gcs_objects (stores (world s)));
  modify_world (with_stores (set_gcs_objects (<[(bucket_, gcs_path) := file]> objects))).

(** The [try] body yields [Some false] where the source returns from
    inside it, and [None] where it falls through to the [else]. *)
Definition upload_file_with_id (file_id : string) (file : list byte)
    (extension : option string) : M (st t) bool :=
  ensure_connection ;;
  let storage_path := get_storage_path file_id extension in
  do x <- gets self;
  let gcs_path := gcs_path_of x storage_path in
  try_else
    (do b <- blob;
     do found <- blob_exists b gcs_path;
     if found then
       logger ERROR "File already exists" ;;
       ret (Some false)
     else
       upload_from_string b gcs_path file ;;
       ret None)
    (fun e => Exn.isinstance e [Exn.Exception])
    (fun _ => logger EXCEPTION "Error saving file to GCS" ;; ret false)
    (fun early =>
       match early with
       | Some result => ret result
       | None => logger DEBUG "Wrote GCS file" ;; ret true
       end).

Definition exists_ (storage_path : Path) : M (st t) bool :=
  ensure_connection ;;
  do x <- gets self;
  do b <- blob;
  blob_exists b (gcs_path_of x storage_path).

(** [f"gs://{self.bucket_name}/{gcs_path}"]. *)
Definition get_url (x : t) (storage_path : Path) : string :=
  "gs://" ++ bucket_name x ++ "/" ++ gcs_path_of x storage_path.

End GCS.

#[global] Instance GCS_service : FileStorageService GCS.t :=
  {| upload_file_with_id := GCS.upload_file_with_id;
     exists_ := GCS.exists_ |}.

(** *** SFTP *)

Module SFTP.

Record t := mk {
  host : string;
  port : Z;
  username : string;
  password : string;
  root_path : Path;
  sftp_client : bool;
}.

Definition set_sftp_client (v : bool) (x : t) : t :=
  mk (host x) (port x) (username x) (password x) (root_path x) v.

Definition get_files : M (st t) (gmap string node) :=
  gets (fun s => sftp_files (stores (world s))).

Definition put_files (f : gmap string node) : M (st t) unit :=
  modify_world (with_stores (set_sftp_files f)).

(** [self.sftp_client.stat(path)]. *)
Definition stat (path : string) : M (st t) node :=
  external_call ;;
  do f <- get_files;
  match f !! path with
  | Some n => ret n
  | None => raise (Exn.mk Exn.FileNotFoundError "No such file")
  end.

(** [self.sftp_client.mkdir(path)]. *)
Definition mkdir (path : string) : M (st t) unit :=
  external_call ;;
  do f <- get_files;
  match f !! path with
  | Some _ => raise (Exn.mk Exn.OSError "Failure")
  | None => put_files (<[path := Dir]> f)
  end.

Definition open_wb (path : string) : M (st t) unit :=
  external_call ;;
  do f <- get_files;
  put_files (<[path := File []]> f).

Definition write (path : string) (file : list byte) : M (st t) unit :=
  external_call ;;
  do f <- get_files;
  put_files (<[path := File file]> f).

Definition _is_connected : M (st t) bool :=
  try_else
    (do have <- gets (fun s => sftp_client (self s));
     if negb have then ret (Some false)
     else external_call ;; ret None)   (* listdir(".") *)
    (fun e => Exn.isinstance e [Exn.SSHException])
    (fun _ => ret false)
    (fun early =>
       match early with
       | Some result => ret result
       | None => ret true
       end).

Definition ensure_connection_body : M (st t) unit :=
  do connected <- _is_connected;
  if negb connected then
    try_
      (external_call ;;   (* paramiko.Transport((host, port)) *)
       external_call ;;   (* transport.connect(username, password) *)
       external_call ;;   (* paramiko.SFTPClient.from_transport(transport) *)
       modify_self (set_sftp_client true) ;;
       logger INFO "Successfully connected to SFTP server")
      (fun e => Exn.isinstance e [Exn.Exception])
      (fun e => logger EXCEPTION "Failed to connect to SFTP server" ;; raise e)
  else ret tt.

Definition ensure_connection : M (st t) unit :=
  storage_retry ensure_connection_body.

Definition remote_path_of (x : t) (storage_path : Path) : string :=
  Pathlib.as_posix (Pathlib.truediv (root_path x) storage_path).

Definition exists_ (storage_path : Path) : M (st t) bool :=
  ensure_connection ;;
  do x <- gets self;
  let remote_path := remote_path_of x storage_path in
  try_else
    (stat remote_path)
    (fun e => Exn.isinstance e [Exn.FileNotFoundError])
    (fun _ => ret false)
    (fun _ => ret true).

(** The loop over the ancestors of the remote path. *)
Fixpoint make_dirs (current : string) (parts : list string) : M (st t) unit :=
  match parts with
  | [] => ret tt
  | part :: rest =>
      let current' :=
        if Py.truthy_str (Some current) then current ++ "/" ++ part else part in
      try_
        (stat current' ;; ret tt)
        (fun e => Exn.isinstance e [Exn.FileNotFoundError])
        (fun _ => mkdir current') ;;
      make_dirs current' rest
  end.

(** [if self.exists(storage_path):] tests the coroutine object that the
    call of the [async def exists] makes; there is no [await]. *)
Definition upload_file_with_id (file_id : string) (file : list byte)
    (extension : option string) : M (st t) bool :=
  ensure_connection ;;
  let storage_path := get_storage_path file_id extension in
  do x <- gets self;
  let remote_path := remote_path_of x storage_path in
  if Py.truthy (call_without_await (exists_ storage_path)) then
    logger ERROR "File already exists" ;;
    ret false
  else
    let dirs := Py.rsplit1_head "/" remote_path in
    do made <-
      try_
        (make_dirs "" (Py.split "/" dirs) ;; ret true)
        (fun e => Exn.isinstance e [Exn.Exception])
        (fun _ => logger EXCEPTION "Error creating remote directories" ;; ret false);
    if negb made then ret false
    else
      try_else
        (open_wb remote_path ;; write remote_path file)
        (fun e => Exn.isinstance e [Exn.Exception])
        (fun _ => logger EXCEPTION "Error saving file to SFTP" ;; ret false)
        (fun _ => logger DEBUG "Wrote SFTP file" ;; ret true).

(** [f"sftp://{self.host}:{self.port}/{remote_path}"]. *)
Definition get_url (x : t) (storage_path : Path) : string :=
  "sftp://" ++ host x ++ ":" ++ Py.str_of_int (port x) ++ "/"
  ++ remote_path_of x storage_path.

End SFTP.

#[global] Instance SFTP_service : FileStorageService SFTP.t :=
  {| upload_file_with_id := SFTP.upload_file_with_id;
     exists_ := SFTP.exists_ |}.

(** *** Any of the four variants *)

Inductive backend :=
| LocalFS (x : Local.t)
| S3Bucket (x : S3.t)
| GCSBucket (x : GCS.t)
| SFTPServer (x : SFTP.t).

(** Runs a method of the variant's own class on the variant. *)
Definition on_variant {A} (b : backend) (w : World)
    (method : forall T, FileStorageService T -> M (st T) A)
    : backend * World * outcome A :=
  match b with
  | LocalFS x =>
      let '(s, r) := method Local.t _ (mkSt x w) in (LocalFS (self s), world s, r)
  | S3Bucket x =>
      let '(s, r) := method S3.t _ (mkSt x w) in (S3Bucket (self s), world s, r)
  | GCSBucket x =>
      let '(s, r) := method GCS.t _ (mkSt x w) in (GCSBucket (self s), world s, r)
  | SFTPServer x =>
      let '(s, r) := method SFTP.t _ (mkSt x w) in (SFTPServer (self s), world s, r)
  end.

#[global] Instance backend_service : FileStorageService backend :=
  {| upload_file_with_id file_id file extension := fun s =>
       let '(b, w, r) :=
         on_variant (self s) (world s)
           (fun T _ => upload_file_with_id file_id file extension) in
       (mkSt b w, r);
     exists_ storage_path := fun s =>
       let '(b, w, r) :=
         on_variant (self s) (world s) (fun T _ => exists_ storage_path) in
       (mkSt b w, r) |}.

(* ===================================================================== *)
(** ** The relational session manager ([sql_db.py], [gcp_sql_db.py])      *)
(* ===================================================================== *)

Module DB.

(** Values of [engine_args] and [connect_args]. *)
Inductive value :=
| VInt (z : Z)
| VBool (b : bool)
| VStr (v : string)
| VFunc (name : string).

(** What [create_async_engine] was given. *)
Record AsyncEngine := mkEngine {
  engine_url : string;
  engine_connect_args : gmap string value;
  engine_kwargs : gmap string value;
}.

(** An instance of [SQLDatabaseService], or of its subclass
    [GCPCloudSQLDatabaseService] when [cloud_sql_name] is set. *)
Record t := mk {
  url : string;
  engine_args : gmap string value;
  connect_args : gmap string value;
  engine : option AsyncEngine;
  session_maker : bool;
  cloud_sql_name : option string;
}.

Definition set_url (v : string) (x : t) : t :=
  mk v (engine_args x) (connect_args x) (engine x) (session_maker x) (cloud_sql_name x).
Definition set_engine_args (v : gmap string value) (x : t) : t :=
  mk (url x) v (connect_args x) (engine x) (session_maker x) (cloud_sql_name x).
Definition set_connect_args (v : gmap string value) (x : t) : t :=
  mk (url x) (engine_args x) v (engine x) (session_maker x) (cloud_sql_name x).
Definition set_engine (v : option AsyncEngine) (x : t) : t :=
  mk (url x) (engine_args x) (connect_args x) v (session_maker x) (cloud_sql_name x).
Definition set_session_maker (v : bool) (x : t) : t :=
  mk (url x) (engine_args x) (connect_args x) (engine x) v (cloud_sql_name x).

(** The keyword arguments of the constructor. *)
Record config := mkConfig {
  cfg_url : option string;
  cfg_engine_args : option (gmap string value);
  cfg_connect_args : option (gmap string value);
  cfg_cloud_sql_name : option string;
}.

(** [_DB_PROTOCOL_REGEX = r"^(?P<proto>[a-zA-Z0-9_+\-]+)://"]. *)
Definition proto_char (c : ascii) : bool :=
  let n := nat_of_ascii c in
  (Nat.leb 97 n && Nat.leb n 122) || (Nat.leb 65 n && Nat.leb n 90)
  || (Nat.leb 48 n && Nat.leb n 57)
  || Ascii.eqb c "_" || Ascii.eqb c "+" || Ascii.eqb c "-".

Fixpoint span_proto (u : string) : string * string :=
  match u with
  | String c u' =>
      if proto_char c
      then let '(a, b) := span_proto u' in (String c a, b)
      else (EmptyString, u)
  | EmptyString => (EmptyString, EmptyString)
  end.

(** [re.match(_DB_PROTOCOL_REGEX, url)]: the protocol and what follows
    the match. *)
Definition match_protocol (u : string) : option (string * string) :=
  match span_proto u with
  | (String c proto, String ":" (String "/" (String "/" rest))) =>
      Some (String c proto, rest)
  | _ => None
  end.

Definition set_default (key : string) (v : value) (m : gmap string value)
    : gmap string value :=
  match m !! key with
  | Some _ => m
  | None => <[key := v]> m
  end.

(** [SQLDatabaseService.__init__], on the fresh object. *)
Definition __init__ (c : config) : M (st t) unit :=
  let url0 := default "" (cfg_url c) in
  let eargs :=
    set_default "pool_recycle" (VInt 900)
      (set_default "pool_pre_ping" (VBool true)
         (set_default "max_overflow" (VInt 0)
            (set_default "pool_size" (VInt 5)
               (default ∅ (cfg_engine_args c))))) in
  let cargs :=
    <["prepared_statement_cache_size" := VInt 0]>
      (<["statement_cache_size" := VInt 0]>
         (<["prepared_statement_name_func" := VFunc "_get_prepared_stmt_name"]>
            (default ∅ (cfg_connect_args c)))) in
  modify_self (fun _ => mk url0 eargs cargs None false (cfg_cloud_sql_name c)) ;;
  if negb (Py.truthy_str (Some url0)) then
    raise (Exn.mk Exn.ValueError
             "Database URL is required for SQLAlchemyAsyncDatabaseService")
  else
    match match_protocol url0 with
    | Some (proto, rest) =>
        if Py.contains "postgre" proto
        then modify_self (set_url ("postgresql+asyncpg://" ++ rest))
        else logger WARNING "Unsupported DB protocol for SQLAlchemy async engine"
    | None =>
        raise (Exn.mk Exn.ValueError
                 "Invalid database URL format. Must contain at least a protocol (e.g., postgresql://)")
    end.

(** The class-level defaults the constructor starts from. *)
Definition fresh : t := mk "" ∅ ∅ None false None.

(** [_get_async_creator_func]: [None] in the base class, the bound
    method [_get_async_creator] in the Cloud SQL subclass. *)
Definition _get_async_creator_func (x : t) : option value :=
  match cloud_sql_name x with
  | Some _ => Some (VFunc "_get_async_creator")
  | None => None
  end.

(** [self._session_ctx.get()] and [.set(v)] in the running task. *)
Definition ctx_get (w : World) : option nat :=
  _session_ctx (db w) !! task (db w).

Definition ctx_set (v : option nat) (d : DbRuntime) : DbRuntime :=
  mkDb (task d)
       (match v with
        | Some sid => <[task d := sid]> (_session_ctx d)
        | None => delete (task d) (_session_ctx d)
        end)
       (closed d) (sessions_made d) (engines_built d) (engines_disposed d)
       (issued d).

Definition get_session : M (st t) (option nat) :=
  gets (fun s => ctx_get (world s)).

Definition count_engine (d : DbRuntime) : DbRuntime :=
  mkDb (task d) (_session_ctx d) (closed d) (sessions_made d)
       (Datatypes.S (engines_built d)) (engines_disposed d) (issued d).

Definition count_dispose (d : DbRuntime) : DbRuntime :=
  mkDb (task d) (_session_ctx d) (closed d) (sessions_made d)
       (engines_built d) (Datatypes.S (engines_disposed d)) (issued d).

Definition count_session (d : DbRuntime) : DbRuntime :=
  mkDb (task d) (_session_ctx d) (closed d) (Datatypes.S (sessions_made d))
       (engines_built d) (engines_disposed d) (issued d).

Definition close_session (sid : nat) (d : DbRuntime) : DbRuntime :=
  mkDb (task d) (_session_ctx d) (sid :: closed d) (sessions_made d)
       (engines_built d) (engines_disposed d) (issued d).

Definition issue (sid : nat) (q : stmt) (d : DbRuntime) : DbRuntime :=
  mkDb (task d) (_session_ctx d) (closed d) (sessions_made d)
       (engines_built d) (engines_disposed d) ((sid, q) :: issued d).

(** [create_async_engine(self.url, connect_args=..., **self.engine_args)]. *)
Definition create_async_engine : M (st t) unit :=
  external_call ;;
  modify_world (with_db count_engine) ;;
  modify_self (fun x =>
    set_engine (Some (mkEngine (url x) (connect_args x) (engine_args x))) x).

(** [self.session_maker(bind=self.engine)]: a new session. *)
Definition make_session : M (st t) nat :=
  external_call ;;
  do sid <- gets (fun s => sessions_made (db (world s)));
  modify_world (with_db count_session) ;;
  ret sid.

Definition connect : M (st t) unit :=
  do current <- get_session;
  if bool_decide (is_Some current) then ret tt   (* already connected *)
  else
    do x <- gets self;
    (if bool_decide (engine x = None) || negb (session_maker x) then
       try_
         ((match _get_async_creator_func x with
           | Some f =>
               modify_self (fun x => set_engine_args (<["async_creator" := f]> (engine_args x)) x)
           | None => ret tt
           end) ;;
          create_async_engine ;;
          external_call ;;   (* sessionmaker(class_=AsyncSession, ...) *)
          modify_self (set_session_maker true))
         (fun e => Exn.isinstance e
                     [Exn.ArgumentError; Exn.OperationalError; Exn.DBAPIError])
         (fun e => logger EXCEPTION "Failed to create SQLAlchemy async engine" ;;
                   raise e)
     else ret tt) ;;
    try_
      (do session <- make_session;
       modify_world (with_db (ctx_set (Some session))))
      (fun e => Exn.isinstance e [Exn.Exception])
      (fun e => logger EXCEPTION "Failed to create SQLAlchemy async session" ;;
                raise e).

Definition is_connected : M (st t) bool :=
  do current <- get_session;
  ret (bool_decide (is_Some current)).

(** [session.close()] is not guarded by the source and is taken to go
    through. *)
Definition disconnect_session : M (st t) unit :=
  do session <- gets (fun s => ctx_get (world s));
  match session with
  | Some sid =>
      modify_world (with_db (close_session sid)) ;;
      modify_world (with_db (ctx_set None))
  | None => ret tt
  end.

Definition disconnect : M (st t) unit :=
  disconnect_session ;;
  modify_self (set_session_maker false) ;;
  do x <- gets self;
  match engine x with
  | Some _ =>
      modify_world (with_db count_dispose) ;;
      modify_self (set_engine None)
  | None => ret tt
  end.




(** *** The retried operations *)

Definition _should_retry_on_exception (e : exn) : M (st t) bool :=
  if Exn.isinstance e [Exn.OperationalError; Exn.OSError] then ret true
  else if Exn.isinstance e [Exn.DBAPIError]
          && (Py.contains "DuplicatePreparedStatementError" (Exn.msg e)
              || Py.contains "InvalidSQLStatementNameError" (Exn.msg e))
  then
    logger WARNING "Retrying due to prepared statement error with pgbouncer" ;;
    ret true
  else ret false.

(** [retry(reraise=True, stop=stop_after_attempt(5),
           wait=wait_exponential(multiplier=1, min=1, max=10),
           retry=retry_if_exception(_should_retry_on_exception))]. *)
Definition db_policy : Tenacity.policy := Tenacity.mkPolicy 5 1 1 10 true.

Definition retry_on_db_errors {A} : M (st t) A -> M (st t) A :=
  Tenacity.retry db_policy _should_retry_on_exception.

(** [self.get_session().<method>(...)]. *)
Definition session_call (q : stmt) : M (st t) nat :=
  do session <- get_session;
  match session with
  | Some sid =>
      external_call ;;
      modify_world (with_db (issue sid q)) ;;
      ret sid
  | None =>
      raise (Exn.mk Exn.AttributeError "'NoneType' object has no attribute")
  end.

(** The [query] argument of [execute]: a [str], a [ClauseElement] or
    anything else. *)
Inductive query :=
| QStr (sql : string)
| QClause (clause : string)
| QOther.

Inductive Result := mkResult (session : nat) (statement : string).

Definition execute_body (q : query) (params : option (gmap string value))
    (auto_commit : bool) : M (st t) Result :=
  connect ;;
  do result <-
    match q with
    | QStr sql => do sid <- session_call (SExecute sql); ret (mkResult sid sql)
    | QClause c => do sid <- session_call (SExecute c); ret (mkResult sid c)
    | QOther =>
        raise (Exn.mk Exn.TypeError
                 "Query must be a SQL string or SQLAlchemy ClauseElement")
    end;
  (if auto_commit then session_call SCommit ;; ret tt else ret tt) ;;
  ret result.

Definition add_body (obj : string) : M (st t) unit :=
  connect ;; session_call (SAdd obj) ;; ret tt.
Definition add_all_body (objs : list string) : M (st t) unit :=
  connect ;; session_call (SAddAll objs) ;; ret tt.
Definition delete_body (obj : string) : M (st t) unit :=
  connect ;; session_call (SDelete obj) ;; ret tt.
Definition commit_body : M (st t) unit :=
  connect ;; session_call SCommit ;; ret tt.
Definition rollback_body : M (st t) unit :=
  connect ;; session_call SRollback ;; ret tt.
Definition refresh_body (obj : string) : M (st t) unit :=
  connect ;; session_call (SRefresh obj) ;; ret tt.

Definition execute q params auto_commit : M (st t) Result :=
  retry_on_db_errors (execute_body q params auto_commit).
Definition add obj : M (st t) unit := retry_on_db_errors (add_body obj).
Definition add_all objs : M (st t) unit := retry_on_db_errors (add_all_body objs).
Definition delete obj : M (st t) unit := retry_on_db_errors (delete_body obj).
Definition commit : M (st t) unit := retry_on_db_errors commit_body.
Definition rollback : M (st t) unit := retry_on_db_errors rollback_body.
Definition refresh obj : M (st t) unit := retry_on_db_errors (refresh_body obj).

(** The seven decorated operations, as one call. *)
Inductive operation :=
| Execute (q : query) (params : option (gmap string value)) (auto_commit : bool)
| Add (obj : string)
| AddAll (objs : list string)
| Delete (obj : string)
| Commit
| Rollback
| Refresh (obj : string).

Definition forget {A} (m : M (st t) A) : M (st t) (option Result) :=
  m ;; ret None.

(** The undecorated function of an operation; [execute] yields its
    [Result], the others [None]. *)
Definition body (op : operation) : M (st t) (option Result) :=
  match op with
  | Execute q params auto_commit =>
      do r <- execute_body q params auto_commit; ret (Some r)
  | Add obj => forget (add_body obj)
  | AddAll objs => forget (add_all_body objs)
  | Delete obj => forget (delete_body obj)
  | Commit => forget commit_body
  | Rollback => forget rollback_body
  | Refresh obj => forget (refresh_body obj)
  end.

Definition call (op : operation) : M (st t) (option Result) :=
  match op with
  | Execute q params auto_commit =>
      do r <- execute q params auto_commit; ret (Some r)
  | Add obj => forget (add obj)
  | AddAll objs => forget (add_all objs)
  | Delete obj => forget (delete obj)
  | Commit => forget commit
  | Rollback => forget rollback
  | Refresh obj => forget (refresh obj)
  end.

End DB.

(* ===================================================================== *)
(** ** The configuration ([shared/core/config.py])                        *)
(* ===================================================================== *)

Module Config.

(** What [expand_env_vars] reads of the operating system: [os.environ],
    and for every path that is a regular file what opening it and reading
    it as UTF-8 text gives, the text or the exception. *)
Record Os := mkOs {
  environ : gmap string string;
  files : gmap string (outcome string);
}.



(** The match [m] as text, [m.group(0)], from [m.group(1)]. *)
Definition group0 (var_name : string) : string := "${" ++ var_name ++ "}".

(** [replacer]: the variable of the environment when it is set and not
    empty, else the stripped text of the file of that name, else the
    match as it is; only an [OSError] of the reading is caught. *)
Definition replacer (os : Os) (var_name : string) : outcome string :=
  let env_val := environ os !! var_name in
  if Py.truthy_str env_val then Returned (default "" env_val)
  else
    match files os !! var_name with
    | Some (Returned text) => Returned (Py.strip text)
    | Some (Raised e) =>
        if Exn.isinstance e [Exn.OSError] then Returned (group0 var_name)
        else Raised e
    | None => Returned (group0 var_name)
    end.

(** The characters before the first ["}"], when there is one: what
    [[^\}]+] can match before the closing brace. *)
Fixpoint until_brace (s : string) : option string :=
  match s with
  | EmptyString => None
  | String c s' =>
      if Ascii.eqb c "}" then Some EmptyString
      else String c <$> until_brace s'
  end.

Definition prepend (pre : string) (r : outcome string) : outcome string :=
  match r with
  | Returned s => Returned (pre ++ s)
  | Raised e => Raised e
  end.

(** [re.sub(r"\$\{([^\}]+)\}", replacer, s)], scanning from the left: at
    ["${"] followed by at least one character other than ["}"] and then
    ["}"], the match is replaced and the scan goes on after it ([skip]
    counts the characters of the match still to pass); any other
    character is copied. *)
Fixpoint sub_go (os : Os) (skip : nat) (s : string) : outcome string :=
  match s with
  | EmptyString => Returned EmptyString
  | String c s' =>
      match skip with
      | Datatypes.S k => sub_go os k s'
      | O =>
          match (if Ascii.eqb c "$" then
                   match s' with
                   | String b s'' =>
                       if Ascii.eqb b "{" then until_brace s'' else None
                   | EmptyString => None
                   end
                 else None) with
          | Some (String n name) =>
              match replacer os (String n name) with
              | Returned v =>
                  prepend v (sub_go os (String.length (String n name) + 2) s')
              | Raised e => Raised e
              end
          | _ => prepend (String c EmptyString) (sub_go os 0 s')
          end
      end
  end.

Definition sub (os : Os) (s : string) : outcome string := sub_go os 0 s.


(** The service classes, with their inheritance. *)
Inductive cls :=
| BaseService
| FileStorageService
| LocalFileStorageService
| S3FileStorageService
| GCSFileStorageService
| SFTPFileStorageService
| SQLDatabaseService
| GCPCloudSQLDatabaseService.

#[global] Instance cls_eq_dec : EqDecision cls.
Proof. solve_decision. Defined.

Definition base (c : cls) : option cls :=
  match c with
  | BaseService => None
  | FileStorageService | SQLDatabaseService => Some BaseService
  | LocalFileStorageService | S3FileStorageService
  | GCSFileStorageService | SFTPFileStorageService => Some FileStorageService
  | GCPCloudSQLDatabaseService => Some SQLDatabaseService
  end.

Fixpoint issubclass_fuel (n : nat) (c d : cls) : bool :=
  bool_decide (c = d)
  || match n, base c with
     | Datatypes.S n', Some b => issubclass_fuel n' b d
     | _, _ => false
     end.

Definition issubclass : cls -> cls -> bool := issubclass_fuel 2.

(** A configured service: a storage backend or a database service. *)
Inductive service :=
| Storage (b : backend)
| Database (x : DB.t).

Definition type_of (s : service) : cls :=
  match s with
  | Storage (LocalFS _) => LocalFileStorageService
  | Storage (S3Bucket _) => S3FileStorageService
  | Storage (GCSBucket _) => GCSFileStorageService
  | Storage (SFTPServer _) => SFTPFileStorageService
  | Database x =>
      match DB.cloud_sql_name x with
      | Some _ => GCPCloudSQLDatabaseService
      | None => SQLDatabaseService
      end
  end.

Definition isinstance (s : service) (base_class : cls) : bool :=
  issubclass (type_of s) base_class.

(** The field [services] of [Settings], [None] by default. *)
Record Settings := mkSettings { services : option (list service) }.

(** The loop of [Settings.get_service]. *)
Fixpoint first_instance (l : list service) (base_class : cls) : option service :=
  match l with
  | [] => None
  | service :: rest =>
      if isinstance service base_class then Some service
      else first_instance rest base_class
  end.

(** [Settings.get_service]: an absent or empty list is false. *)
Definition get_service (self : Settings) (base_class : cls) : option service :=
  match services self with
  | None | Some [] => None
  | Some l => first_instance l base_class
  end.

End Config.

(* ===================================================================== *)
(** ** The API key dependency ([api/core/auth.py])                        *)
(* ===================================================================== *)

Module Auth.

(** What [HTTPBearer(auto_error=False)] hands over. *)
Record HTTPAuthorizationCredentials := mkCredentials {
  scheme : string;
  credentials : string;
}.

Record HTTPException := mkHTTPException {
  status_code : nat;
  detail : string;
}.

(** [authorize_api_key]: the exception raised, or [None] returned. *)
Definition authorize_api_key (bearer : option HTTPAuthorizationCredentials)
    : HTTPException + unit :=
  match bearer with
  | Some b =>
      if String.eqb (Py.lower (scheme b)) "bearer" then
        let api_key := credentials b in
        let api_key_valid := Nat.ltb 0 (String.length api_key) in
        let authorized := api_key_valid in
        if negb api_key_valid then
          inl (mkHTTPException 401 "Invalid API key")
        else if negb authorized then
          inl (mkHTTPException 403 "API key is inactive or expired")
        else inr tt
      else inl (mkHTTPException 401 "Missing Authorization header")
  | None => inl (mkHTTPException 401 "Missing Authorization header")
  end.

End Auth.

(* ===================================================================== *)
(** ** The statements of the specification that the code is compared to   *)
(* ===================================================================== *)

Definition is_hex (c : ascii) : bool :=
  List.existsb (Ascii.eqb c)
    ["0"; "1"; "2"; "3"; "4"; "5"; "6"; "7";
     "8"; "9"; "a"; "b"; "c"; "d"; "e"; "f"]%char.

(** "[ext] with its leading separator stripped". *)
Definition strip_leading_separator (ext : string) : string :=
  match ext with
  | String "." ext' => ext'
  | _ => ext
  end.

(** The storage path in the words of the specification:
    [id[0:3]/id[3:6]/id], followed by [.] plus the extension with its
    leading separator stripped when an extension is given, and by nothing
    when none is. *)
Definition storage_path_as_stated (id : string) (ext : option string) : Path :=
  Pathlib.of_string
    (Py.slice 0 3 id ++ "/" ++ Py.slice 3 6 id ++ "/" ++ id
     ++ match ext with
        | Some e => "." ++ strip_leading_separator e
        | None => ""
        end).

(** The suffix the code appends: an empty extension counts as none, and
    every leading separator goes. *)
Definition suffix_of (ext : option string) : string :=
  match ext with
  | Some (String c e) => "." ++ Py.lstrip "." (String c e)
  | _ => ""
  end.

(** An extension on which the two readings of the stripping agree: it is
    not empty and has at most one leading separator. *)
Definition plain_extension (e : string) : Prop :=
  e <> "" /\ String.prefix "." (strip_leading_separator e) = false.

(** A method keeps a component of the state when it leaves it as it was,
    whatever the outcome. *)
Definition keeps {T X A} (proj : st T -> X) (m : M (st T) A) : Prop :=
  forall s s' r, m s = (s', r) -> proj s' = proj s.

(** The components of the state that the properties speak of. *)
Definition the_slept {T} (s : st T) : list Z := slept (env (world s)).
Definition the_faults {T} (s : st T) : list (option exn) := faults (env (world s)).
Definition the_log {T} (s : st T) : list (level * string) := log (env (world s)).
Definition the_stores {T} (s : st T) : Stores := stores (world s).
Definition the_db {T} (s : st T) : DbRuntime := db (world s).

(** The state without the local disk. *)
Definition off_disk {T} (s : st T)
    : T * Env * DbRuntime * gmap (string * string) (list byte)
      * gmap (string * string) (list byte) * gmap string node :=
  (self s, env (world s), db (world s), s3_objects (stores (world s)),
   gcs_objects (stores (world s)), sftp_files (stores (world s))).

(** A method preserves an invariant of the state. *)
Definition preserves {T A} (I : st T -> Prop) (m : M (st T) A) : Prop :=
  forall s s' r, I s -> m s = (s', r) -> I s'.

(** Every entry of a disk lies in a directory. *)
Definition wf_disk (d : gmap Path node) : Prop :=
  forall p n, d !! p = Some n -> stat_disk d (Pathlib.parent p) = Some Dir.

Definition disk_wf {T} (s : st T) : Prop := wf_disk (disk (stores (world s))).

(** The blob of the scenario of the specification: 21 bytes of text. *)
Definition blob21 : list byte := list_byte_of_string "Hello, storage world!".

Definition empty_world : World :=
  mkWorld (mkEnv [] [] []) (mkStores ∅ ∅ ∅ ∅) (mkDb 0 ∅ [] 0 0 0 []).

(** A local backend rooted at an empty directory. *)
Definition local_root : Path := mkPath "/" ["tmp"; "store"].

Definition local_empty : st Local.t :=
  mkSt (Local.mk local_root)
       (with_stores (set_disk {[ mkPath "/" ["tmp"] := Dir; local_root := Dir ]})
                    empty_world).

(** The state after the scenario's upload. *)
Definition local_after_upload : st Local.t :=
  fst (upload_file_with_id (compute_file_id blob21) blob21 (Some "txt") local_empty).

(** The content a backend holds for a storage path. *)
Definition stored (b : backend) (w : World) (storage_path : Path) : option node :=
  match b with
  | LocalFS x =>
      stat_disk (disk (stores w)) (Pathlib.truediv (Local.root_path x) storage_path)
  | S3Bucket x =>
      File <$> s3_objects (stores w) !! (S3.bucket_name x, S3.s3_path_of x storage_path)
  | GCSBucket x =>
      File <$> gcs_objects (stores w) !! (GCS.bucket_name x, GCS.gcs_path_of x storage_path)
  | SFTPServer x =>
      sftp_files (stores w) !! SFTP.remote_path_of x storage_path
  end.





(** The level of the last record the logger received. *)
Definition last_level {T} (s : st T) : option level :=
  fst <$> List.last (List.map Some (the_log s)) None.

(** Sample remote backends and a transient connection failure. *)
Definition s3_sample : S3.t :=
  S3.mk "bucket" "access" "secret" "https://s3.example.org" (mkPath "" []) false.
Definition gcs_sample : GCS.t :=
  GCS.mk "bucket" "project" (mkPath "" []) false false.
Definition sftp_sample : SFTP.t :=
  SFTP.mk "sftp.example.org" 22 "user" "password" (mkPath "/" ["srv"]) false.

Definition refused : exn := Exn.mk Exn.ConnectionError "Connection refused".

Definition world_with_faults (fs : list (option exn)) : World :=
  with_env (set_faults fs) empty_world.

(** What a remote upload must leave alone: the configuration that names
    the target, and everything stored. *)
Definition s3_fixed (s : st S3.t) : string * Path * Stores :=
  (S3.bucket_name (self s), S3.root_path (self s), stores (world s)).
Definition gcs_fixed (s : st GCS.t) : string * Path * Stores :=
  (GCS.bucket_name (self s), GCS.root_path (self s), stores (world s)).
Definition sftp_fixed (s : st SFTP.t) : Path * Stores :=
  (SFTP.root_path (self s), stores (world s)).

#[global] Instance byte_eq_dec : EqDecision byte := Byte.byte_eq_dec.

#[global] Instance node_eq_dec : EqDecision node.
Proof. solve_decision. Defined.


(** A method that fails by the fault at the head of the schedule, where
    [P] holds: it raises that fault as it is, takes it off the schedule
    and does not sleep. *)
Definition fails_by_fault {T A} (P : st T -> Prop) (m : M (st T) A) : Prop :=
  forall s e fs,
    P s -> the_faults s = Some e :: fs ->
    exists s', m s = (s', Raised e) /\ the_faults s' = fs
               /\ the_slept s' = the_slept s.

(** The waits of a policy before attempts [2] to [k + 1]. *)
Definition waits (p : Tenacity.policy) (first k : nat) : list Z :=
  List.map (Tenacity.wait_exponential p) (List.seq first k).

(** The transient errors of the database layer, as the retry predicate
    tells them: connection and OS errors, and the prepared-statement
    errors of pgbouncer. *)
Definition transient (e : exn) : bool :=
  Exn.isinstance e [Exn.OperationalError; Exn.OSError]
  || (Exn.isinstance e [Exn.DBAPIError]
      && (Py.contains "DuplicatePreparedStatementError" (Exn.msg e)
          || Py.contains "InvalidSQLStatementNameError" (Exn.msg e))).

(** An operation whose query is of a type [execute] accepts. *)
Definition well_typed (op : DB.operation) : Prop :=
  match op with
  | DB.Execute DB.QOther _ _ => False
  | _ => True
  end.

(** A database service as the constructor leaves it, and a world with a
    fault schedule, in task 1. *)
Definition db_sample : DB.t :=
  self (fst (DB.__init__
               (DB.mkConfig (Some "postgresql://user@host/db") None None None)
               (mkSt DB.fresh empty_world))).

Definition db_world (fs : list (option exn)) : World :=
  with_db (fun d => mkDb 1 (_session_ctx d) (closed d) (sessions_made d)
                         (engines_built d) (engines_disposed d) (issued d))
          (world_with_faults fs).

Definition reset : exn := Exn.mk Exn.OperationalError "connection reset by peer".
Definition duplicate_statement : exn :=
  Exn.mk Exn.DBAPIError "DuplicatePreparedStatementError: prepared statement exists".

(** The engine and the session factory of an instance are both there. *)
Definition engine_ready (x : DB.t) : bool :=
  negb (bool_decide (DB.engine x = None) || negb (DB.session_maker x)).

(** The instance after [connect] has built its engine: the Cloud SQL
    subclass first adds its [async_creator] to the engine arguments. *)
Definition with_async_creator (x : DB.t) : DB.t :=
  match DB._get_async_creator_func x with
  | Some f => DB.set_engine_args (<["async_creator" := f]> (DB.engine_args x)) x
  | None => x
  end.

Definition built (x : DB.t) : DB.t :=
  let x' := with_async_creator x in
  DB.set_session_maker true
    (DB.set_engine
       (Some (DB.mkEngine (DB.url x') (DB.connect_args x') (DB.engine_args x')))
       x').

(** The same world seen from another logical task. *)
Definition in_task (t : nat) (w : World) : World :=
  with_db (fun d => mkDb t (_session_ctx d) (closed d) (sessions_made d)
                         (engines_built d) (engines_disposed d) (issued d)) w.

(** The pool settings of the constructor. *)
Definition pool_defaults : list (string * DB.value) :=
  [("pool_size", DB.VInt 5); ("max_overflow", DB.VInt 0);
   ("pool_pre_ping", DB.VBool true); ("pool_recycle", DB.VInt 900)].

(** A configuration that sets its own overflow. *)
Definition overflowing_config : DB.config :=
  DB.mkConfig (Some "postgresql://user@host/db")
              (Some {[ "max_overflow" := DB.VInt 10 ]}) None None.

(** A string without a path separator, or without a given character. *)
Definition no_slash (s : string) : Prop :=
  List.forallb (fun c => negb (Ascii.eqb c "/")) (list_ascii_of_string s) = true.

Definition no_char (c : ascii) (s : string) : Prop :=
  List.forallb (fun a => negb (Ascii.eqb a c)) (list_ascii_of_string s) = true.

(** A part of a path as [Path] keeps them, and a relative path made of
    such parts. *)
Definition plain_part (x : string) : Prop :=
  Pathlib.keep_part x = true /\ no_slash x.

Definition plain_relative (p : Path) : Prop :=
  Pathlib.root p = "" /\ Forall plain_part (Pathlib.parts p).

(** A backend that its constructor accepts: the attributes the
    [__init__] of its class requires are set. *)
Definition constructed (b : backend) : Prop :=
  match b with
  | LocalFS _ => True
  | S3Bucket x =>
      S3.bucket_name x <> "" /\ S3.access_key x <> "" /\ S3.secret_key x <> ""
      /\ S3.endpoint_url x <> ""
  | GCSBucket x => GCS.bucket_name x <> "" /\ GCS.project_id x <> ""
  | SFTPServer x =>
      SFTP.host x <> "" /\ SFTP.username x <> "" /\ SFTP.password x <> ""
      /\ SFTP.port x <> 0%Z
  end.


(** The S3 sample after the scenario's upload. *)
Definition s3_after_upload : st backend :=
  fst (upload_file_with_id (compute_file_id blob21) blob21 (Some "txt")
         (mkSt (S3Bucket s3_sample) empty_world)).

(** A configuration that asks for a statement cache. *)
Definition caching_config : DB.config :=
  DB.mkConfig (Some "postgresql://user@host/db") None
              (Some {[ "statement_cache_size" := DB.VInt 100 ]}) None.



(** Sample operating systems and a sample configuration file. *)
Definition secrets_os : Config.Os :=
  Config.mkOs {[ "DB_PASSWORD" := "pa${HOME}ss"; "HOME" := "/root" ]} ∅.



(** A local disk on which the directory of the scenario's blob is a
    regular file, and a throttling error of S3. *)
Definition local_blocked : st Local.t :=
  mkSt (Local.mk local_root)
       (with_stores
          (set_disk {[ mkPath "/" ["tmp"; "store"; "d7f"; "c24"] := File [] ]})
          empty_world).

Definition throttled : exn := Exn.mk Exn.ClientError "SlowDown".

(* ===================================================================== *)
(** * Properties                                                          *)
(* ===================================================================== *)

(** ** The content addresser *)

Example md5_empty : compute_file_id [] = "d41d8cd98f00b204e9800998ecf8427e".
Proof. vm_compute. reflexivity. Qed.

Example md5_abc :
  compute_file_id (list_byte_of_string "abc") = "900150983cd24fb0d6963f7d28e17f72".
Proof. vm_compute. reflexivity. Qed.

Example md5_two_blocks :
  compute_file_id (list_byte_of_string
    "12345678901234567890123456789012345678901234567890123456789012345678901234567890")
  = "57edf4a22be3c955ac49da2e2107b67a".
Proof. vm_compute. reflexivity. Qed.

Example storage_path_example :
  get_storage_path "abcdef123456" (Some ".txt")
  = mkPath "" ["abc"; "def"; "abcdef123456.txt"].
Proof. vm_compute. reflexivity. Qed.

Lemma hex_length (bs : list Z) : String.length (MD5.hex bs) = 2 * List.length bs.
Proof. induction bs as [|b bs IH]; simpl; [reflexivity | rewrite IH; lia]. Qed.

Lemma le_bytes_length (n : nat) (w : Z) : List.length (MD5.le_bytes n w) = n.
Proof. unfold MD5.le_bytes. rewrite List.length_map. apply List.length_seq. Qed.

Lemma digest_length (file : list byte) : List.length (MD5.digest file) = 16.
Proof.
  unfold MD5.digest. cbv zeta.
  rewrite !List.length_app, !le_bytes_length. reflexivity.
Qed.

Lemma hex_digit_is_hex (d : Z) : is_hex (MD5.hex_digit d) = true.
Proof.
  unfold MD5.hex_digit. generalize (Z.to_nat d) as n. intros n.
  do 16 (destruct n as [|n]; [reflexivity|]).
  destruct n; reflexivity.
Qed.

Lemma hex_all_hex (bs : list Z) :
  List.forallb is_hex (list_ascii_of_string (MD5.hex bs)) = true.
Proof.
  induction bs as [|b bs IH]; [reflexivity|].
  cbn [MD5.hex list_ascii_of_string List.forallb].
  rewrite !hex_digit_is_hex, IH. reflexivity.
Qed.

Lemma suffix_of_code (ext : option string) :
  (if Py.truthy_str ext then "." ++ Py.lstrip "." (default "" ext) else "")
  = suffix_of ext.
Proof. destruct ext as [[|c e]|]; reflexivity. Qed.

Lemma lstrip_plain (e : string) :
  plain_extension e -> Py.lstrip "." e = strip_leading_separator e.
Proof.
  intros [Hne Hp]. destruct e as [|c e]; [congruence|].
  cbn [Py.lstrip]. destruct (Ascii.eqb_spec c ".") as [->|Hc].
  - cbn [strip_leading_separator] in *.
    destruct e as [|c' e]; [reflexivity|].
    cbn [Py.lstrip]. destruct (Ascii.eqb_spec c' ".") as [->|Hc']; [|reflexivity].
    destruct e; vm_compute in Hp; discriminate.
  - unfold strip_leading_separator.
    destruct c as [[] [] [] [] [] [] [] []]; try reflexivity.
    exfalso. apply Hc. reflexivity.
Qed.

(** C4, as amended.  [compute_file_id] and [get_storage_path] are functions
    of their arguments alone and are defined on every input.  The
    identifier of any byte sequence is 32 lower-case hexadecimal digits
    (128 bits).  For every [id] and every optional extension, the storage
    path is [id[0:3]/id[3:6]/id] followed by the suffix of [suffix_of]:
    nothing when the extension is absent or empty, and otherwise [.] plus
    the extension with all its leading [.] stripped.  This is the path of
    the specification whenever the extension is absent or is not empty and
    has at most one leading separator. *)
Theorem content_addresser_deterministic_path
    (file : list byte) (id : string) (ext : option string) :
  (forall file', file' = file -> compute_file_id file' = compute_file_id file)
  /\ String.length (compute_file_id file) = 32
  /\ List.forallb is_hex (list_ascii_of_string (compute_file_id file)) = true
  /\ get_storage_path id ext
     = Pathlib.of_string
         (Py.slice 0 3 id ++ "/" ++ Py.slice 3 6 id ++ "/" ++ id ++ suffix_of ext)
  /\ (ext = None \/ (exists e, ext = Some e /\ plain_extension e) ->
      get_storage_path id ext = storage_path_as_stated id ext).
Proof.
  split; [intros ? ->; reflexivity|].
  split; [unfold compute_file_id, MD5.hexdigest;
          rewrite hex_length, digest_length; reflexivity|].
  split; [apply hex_all_hex|].
  split.
  - unfold get_storage_path. cbv zeta. rewrite suffix_of_code. reflexivity.
  - unfold get_storage_path, storage_path_as_stated. cbv zeta.
    rewrite suffix_of_code.
    intros [->|(e & -> & Hp)]; [reflexivity|].
    rewrite <- (lstrip_plain e Hp).
    destruct Hp as [Hne _]. destruct e; [congruence | reflexivity].
Qed.

Lemma content_addresser_deterministic_path_witness :
  get_storage_path "abcdef123456" (Some ".txt")
  = storage_path_as_stated "abcdef123456" (Some ".txt").
Proof.
  apply (content_addresser_deterministic_path [] "abcdef123456" (Some ".txt")).
  right. exists ".txt". split; [reflexivity|]. split; [discriminate | reflexivity].
Defined.

(** C4 as stated fails on an extension with two leading separators and on
    the empty extension: the code strips every leading [.], and it treats
    the empty string as no extension. *)
Lemma storage_path_as_stated_differs :
  get_storage_path "abcdef123456" (Some "..txt")
    <> storage_path_as_stated "abcdef123456" (Some "..txt")
  /\ get_storage_path "abcdef123456" (Some "")
    <> storage_path_as_stated "abcdef123456" (Some "").
Proof. split; vm_compute; discriminate. Qed.

(** ** Reasoning about methods *)

Ltac unfold_monad :=
  unfold bind, ret, raise, gets, modify, try_, try_else,
    modify_world, modify_self, logger, sleep in *.

Section Frame.
Context {T X : Type} (proj : st T -> X).

Lemma keeps_apply {A} (m : M (st T) A) s s' r :
  keeps proj m -> m s = (s', r) -> proj s' = proj s.
Proof. intros H. apply H. Qed.

Lemma keeps_ret {A} (a : A) : keeps proj (ret a).
Proof. intros s s' r [= <- _]. reflexivity. Qed.

Lemma keeps_raise {A} (e : exn) : keeps proj (@raise _ A e).
Proof. intros s s' r [= <- _]. reflexivity. Qed.

Lemma keeps_gets {A} (f : st T -> A) : keeps proj (gets f).
Proof. intros s s' r [= <- _]. reflexivity. Qed.

Lemma keeps_modify (f : st T -> st T) :
  (forall s, proj (f s) = proj s) -> keeps proj (modify f).
Proof. intros Hf s s' r [= <- _]. apply Hf. Qed.

Lemma keeps_bind {A B} (m : M (st T) A) (k : A -> M (st T) B) :
  keeps proj m -> (forall a, keeps proj (k a)) -> keeps proj (bind m k).
Proof.
  intros Hm Hk s s' r. unfold bind.
  destruct (m s) as [s1 [a|e]] eqn:E.
  - intros H. rewrite (Hk a _ _ _ H). eapply Hm, E.
  - intros [= <- _]. eapply Hm, E.
Qed.

Lemma keeps_try_else {A B} (body : M (st T) A) catches
    (handler : exn -> M (st T) B) (orelse : A -> M (st T) B) :
  keeps proj body -> (forall e, keeps proj (handler e)) -> (forall a, keeps proj (orelse a)) ->
  keeps proj (try_else body catches handler orelse).
Proof.
  intros Hb Hh Ho s s' r. unfold try_else.
  destruct (body s) as [s1 [a|e]] eqn:E.
  - intros H. rewrite (Ho a _ _ _ H). eapply Hb, E.
  - destruct (catches e).
    + intros H. rewrite (Hh e _ _ _ H). eapply Hb, E.
    + intros [= <- _]. eapply Hb, E.
Qed.

Lemma keeps_try {A} (body : M (st T) A) catches (handler : exn -> M (st T) A) :
  keeps proj body -> (forall e, keeps proj (handler e)) -> keeps proj (try_ body catches handler).
Proof. intros Hb Hh. apply keeps_try_else; auto using @keeps_ret. Qed.

Lemma keeps_attempts {A} (p : Tenacity.policy) retry_if (fn : M (st T) A) :
  keeps proj fn -> (forall e, keeps proj (retry_if e)) -> (forall z, keeps proj (sleep z)) ->
  forall remaining attempt_number,
    keeps proj (Tenacity.attempts p retry_if remaining attempt_number fn).
Proof.
  intros Hfn Hif Hsl remaining.
  induction remaining as [|n IH]; intros a s s' r; cbn [Tenacity.attempts];
    destruct (fn s) as [s1 [v|e]] eqn:E;
    try (intros [= <- _]; eapply Hfn, E);
    intros H; rewrite <- (Hfn _ _ _ E);
    (eapply keeps_apply; [|exact H]);
    (apply keeps_bind; [apply Hif|]); intros [];
    auto using @keeps_raise, @keeps_bind.
Qed.

End Frame.

Lemma external_call_cases {T} (s : st T) :
  match the_faults s with
  | [] => external_call s = (s, Returned tt)
  | None :: fs =>
      external_call s
      = (mkSt (self s) (with_env (set_faults fs) (world s)), Returned tt)
  | Some e :: fs =>
      external_call s
      = (mkSt (self s) (with_env (set_faults fs) (world s)), Raised e)
  end.
Proof.
  unfold the_faults, external_call. unfold_monad.
  destruct (faults (env (world s))) as [|[e|] fs]; reflexivity.
Qed.

Lemma external_call_keeps {T X} (proj : st T -> X) :
  (forall s fs, proj (mkSt (self s) (with_env (set_faults fs) (world s))) = proj s) ->
  keeps proj external_call.
Proof.
  intros H s s' r. pose proof (external_call_cases s) as E.
  destruct (the_faults s) as [|[e|] fs]; rewrite E; intros [= <- _]; auto.
Qed.


Lemma keeps_weaken {T X Y A} (proj : st T -> X) (f : X -> Y) (m : M (st T) A) :
  keeps proj m -> keeps (fun s => f (proj s)) m.
Proof. intros H s s' r E. f_equal. eapply H, E. Qed.

Section Inversion.
Context {S A B : Type}.

Lemma bind_inv (m : M S A) (k : A -> M S B) s s' r :
  bind m k s = (s', r) ->
  (exists s1 a, m s = (s1, Returned a) /\ k a s1 = (s', r))
  \/ (exists e, m s = (s', Raised e) /\ r = Raised e).
Proof.
  unfold bind. destruct (m s) as [s1 [a|e]]; intros H.
  - left. eauto.
  - right. injection H as <- <-. eauto.
Qed.

Lemma bind_Returned_inv (m : M S A) (k : A -> M S B) s s' b :
  bind m k s = (s', Returned b) ->
  exists s1 a, m s = (s1, Returned a) /\ k a s1 = (s', Returned b).
Proof.
  intros H. apply bind_inv in H as [H|(e & _ & [=])]. exact H.
Qed.

Lemma try_else_inv (body : M S A) catches (handler : exn -> M S B)
    (orelse : A -> M S B) s s' r :
  try_else body catches handler orelse s = (s', r) ->
  (exists s1 a, body s = (s1, Returned a) /\ orelse a s1 = (s', r))
  \/ (exists s1 e, body s = (s1, Raised e) /\ catches e = true
                   /\ handler e s1 = (s', r))
  \/ (exists e, body s = (s', Raised e) /\ catches e = false /\ r = Raised e).
Proof.
  unfold try_else. destruct (body s) as [s1 [a|e]]; intros H.
  - left. eauto.
  - destruct (catches e) eqn:C.
    + right. left. eauto.
    + right. right. injection H as <- <-. eauto.
Qed.

End Inversion.

Lemma ret_inv {S A} (a : A) (s s' : S) r :
  ret a s = (s', r) -> s' = s /\ r = Returned a.
Proof. intros [= <- <-]. auto. Qed.

Lemma gets_inv {S A} (f : S -> A) (s s' : S) a :
  gets f s = (s', Returned a) -> s' = s /\ a = f s.
Proof. intros [= <- <-]. auto. Qed.

Lemma modify_inv {S} (f : S -> S) (s s' : S) r :
  modify f s = (s', r) -> s' = f s /\ r = Returned tt.
Proof. intros [= <- <-]. auto. Qed.

Lemma logger_inv {T} l ev (s s' : st T) r :
  logger l ev s = (s', r) ->
  s' = mkSt (self s) (with_env (add_log l ev) (world s)) /\ r = Returned tt.
Proof. intros [= <- <-]. auto. Qed.

Ltac keeps_step :=
  first
    [ apply keeps_ret | apply keeps_raise | apply keeps_gets
    | apply external_call_keeps; intros ? ?; reflexivity
    | progress unfold logger, sleep, modify_world, modify_self
    | progress unfold storage_retry, Tenacity.retry, Tenacity.retry_if_exception_type
    | apply keeps_attempts; [|intros ?|intros ?]
    | apply keeps_bind; [|intros ?]
    | apply keeps_try; [|intros ?]
    | apply keeps_try_else; [|intros ?|intros ?]
    | apply keeps_modify; intros ?; reflexivity
    | match goal with
      | |- keeps _ (if ?b then _ else _) => destruct b
      | |- keeps _ (match ?x with _ => _ end) => destruct x
      end ].

Ltac solve_keeps := repeat keeps_step.


(** ** The local backend *)

Example blob21_length : List.length blob21 = 21.
Proof. reflexivity. Qed.

Lemma mkdir_fuel_off_disk {T} fuel (p : Path) parents exist_ok :
  keeps (@off_disk T) (mkdir_fuel fuel p parents exist_ok).
Proof.
  revert p parents exist_ok.
  induction fuel as [|fuel IH]; intros p parents exist_ok; cbn [mkdir_fuel];
    unfold os_mkdir, Path_is_dir, put_disk, get_disk; solve_keeps; auto.
Qed.

Lemma open_write_off_disk {T} (p : Path) (file : list byte) :
  keeps (fun s : st T => self s) (Path_open_wb p ;; file_write p file).
Proof. unfold Path_open_wb, file_write, put_disk, get_disk. solve_keeps. Qed.

Lemma local_upload_keeps_self id file ext :
  keeps (fun s : st Local.t => self s) (Local.upload_file_with_id id file ext).
Proof.
  unfold Local.upload_file_with_id, Path_exists, Path_mkdir, get_disk.
  pose proof (@open_write_off_disk Local.t).
  pose proof (fun fuel p a b =>
    keeps_weaken _ (fun o => o.1.1.1.1.1) _ (@mkdir_fuel_off_disk Local.t fuel p a b)).
  solve_keeps; auto.
Qed.





Example blob21_path :
  Pathlib.as_posix
    (Pathlib.truediv local_root
       (get_storage_path (compute_file_id blob21) (Some "txt")))
  = "/tmp/store/d7f/c24/d7fc24eb1ae07961aea3b35480e8eb55.txt".
Proof. vm_compute. reflexivity. Qed.

(** C1, at the failing input.  [upload_file] computes the identifier with
    [compute_file_id] and awaits [upload_file_with_id] with it, but it has
    no [return]: whatever the backend, it never returns a boolean.  On the
    scenario of the specification (the 21-byte blob, extension [txt], a
    local backend rooted at an empty directory) [upload_file_with_id]
    returns [True] and the blob is on the disk, while [upload_file]
    returns [None]. *)
Theorem upload_file_returns_none :
  (forall T (service : FileStorageService T) file ext (s : st T),
     upload_file file ext s
     = match upload_file_with_id (compute_file_id file) file ext s with
       | (s', Returned _) => (s', Returned Py.PyNone)
       | (s', Raised e) => (s', Raised e)
       end)
  /\ upload_file_with_id (compute_file_id blob21) blob21 (Some "txt") local_empty
     = (local_after_upload, Returned true)
  /\ upload_file blob21 (Some "txt") local_empty
     = (local_after_upload, Returned Py.PyNone)
  /\ disk (the_stores local_after_upload)
       !! Pathlib.truediv local_root
            (get_storage_path (compute_file_id blob21) (Some "txt"))
     = Some (File blob21).
Proof.
  split; [|repeat split; vm_compute; reflexivity].
  intros T service file ext s. unfold upload_file, bind.
  destruct (upload_file_with_id _ _ _ s) as [s' [b|e]]; reflexivity.
Qed.

(** ** Faults and the exceptions a method can raise *)

Section Within.
Context {T : Type} (C : exn -> bool).










End Within.



Lemma bind_eq {S A B} (m : M S A) (k : A -> M S B) s s1 a :
  m s = (s1, Returned a) -> bind m k s = k a s1.
Proof. intros E. unfold bind. rewrite E. reflexivity. Qed.

Lemma bind_assoc {S A B C} (m : M S A) (f : A -> M S B) (k : B -> M S C) s :
  bind (bind m f) k s = bind m (fun a => bind (f a) k) s.
Proof. unfold bind. destruct (m s) as [s1 [a|e]]; reflexivity. Qed.

Lemma bind_raised {S A B} (m : M S A) (k : A -> M S B) s s1 e :
  m s = (s1, Raised e) -> bind m k s = (s1, Raised e).
Proof. intros E. unfold bind. rewrite E. reflexivity. Qed.




(** ** The remote backends *)



Lemma sftp_upload_after_connection id file ext (s s1 : st SFTP.t) :
  SFTP.ensure_connection s = (s1, Returned tt) ->
  SFTP.upload_file_with_id id file ext s
  = (mkSt (self s1) (with_env (add_log ERROR "File already exists") (world s1)),
     Returned false).
Proof.
  intros Hc. unfold SFTP.upload_file_with_id.
  rewrite (bind_eq _ _ _ _ _ Hc). reflexivity.
Qed.






(** ** The byte order of keys and the listing of a bucket *)

Lemma ascii_compare_refl (a : ascii) : Ascii.compare a a = Eq.
Proof. unfold Ascii.compare. apply N.compare_refl. Qed.

Lemma ascii_compare_trans (a b c : ascii) (o : comparison) :
  Ascii.compare a b = o -> Ascii.compare b c = o -> Ascii.compare a c = o.
Proof.
  unfold Ascii.compare. intros <-.
  destruct (N.compare_spec (N_of_ascii a) (N_of_ascii b)) as [E|L|G]; intros H.
  - rewrite E. exact H.
  - rewrite N.compare_lt_iff in *. lia.
  - rewrite N.compare_gt_iff in *. lia.
Qed.

Lemma string_compare_trans (o : comparison) :
  forall a b c : string,
    String.compare a b = o -> String.compare b c = o -> String.compare a c = o.
Proof.
  induction a as [|x a IH]; intros [|y b] [|z c]; cbn [String.compare];
    try congruence.
  destruct (Ascii.compare x y) eqn:Exy, (Ascii.compare y z) eqn:Eyz;
    try congruence;
    try (apply Ascii.compare_eq_iff in Exy; subst y; rewrite Eyz; congruence);
    try (apply Ascii.compare_eq_iff in Eyz; subst z; rewrite Exy; congruence).
  - apply Ascii.compare_eq_iff in Exy, Eyz. subst. rewrite ascii_compare_refl.
    apply IH.
  - rewrite (ascii_compare_trans _ _ _ _ Exy Eyz). congruence.
  - rewrite (ascii_compare_trans _ _ _ _ Exy Eyz). congruence.
Qed.

Lemma str_le_trans : Transitive str_le.
Proof.
  intros a b c. unfold str_le, String.leb. intros Hab Hbc.
  destruct (String.compare a b) eqn:Eab; [| |discriminate].
  - apply String.compare_eq_iff in Eab. subst. exact Hbc.
  - destruct (String.compare b c) eqn:Ebc; [| |discriminate].
    + apply String.compare_eq_iff in Ebc. subst. rewrite Eab. reflexivity.
    + rewrite (string_compare_trans _ _ _ _ Eab Ebc). reflexivity.
Qed.

Lemma str_le_total : Total str_le.
Proof. intros a b. apply String.leb_total. Qed.

Lemma prefix_str_le (p k : string) : String.prefix p k = true -> str_le p k.
Proof.
  unfold str_le, String.leb. revert p.
  induction k as [|b k IH]; intros [|a p]; cbn [String.prefix String.compare];
    try reflexivity; try discriminate.
  destruct (ascii_dec a b) as [->|]; [|discriminate].
  rewrite ascii_compare_refl. apply IH.
Qed.

Lemma prefix_refl (k : string) : String.prefix k k = true.
Proof.
  induction k as [|a k IH]; [reflexivity|]. cbn [String.prefix].
  destruct (ascii_dec a a); [exact IH | congruence].
Qed.

(** A key that is in the bucket is the first key listed under itself as
    prefix: any other key that starts with it is longer, hence later. *)
Lemma list_objects_v2_exact (objects : gmap (string * string) (list byte))
    (bucket key : string) :
  is_Some (objects !! (bucket, key)) ->
  list_objects_v2 objects bucket key 1 = Some [key].
Proof.
  intros [v Hv]. unfold list_objects_v2.
  set (keys := List.map snd _).
  assert (Hin : key ∈ keys).
  { unfold keys. apply (list_elem_of_fmap_2 snd _ (bucket, key)).
    apply list_elem_of_In, List.filter_In. split.
    - apply list_elem_of_In. apply (list_elem_of_fmap_2 fst _ ((bucket, key), v)).
      apply elem_of_map_to_list. exact Hv.
    - cbn. rewrite String.eqb_refl, prefix_refl. reflexivity. }
  assert (Hlow : forall k, k ∈ keys -> str_le key k).
  { unfold keys. intros k (bk & -> & Hbk)%list_elem_of_fmap.
    apply list_elem_of_In, List.filter_In in Hbk as [_ Hbk].
    apply andb_prop in Hbk as [_ Hp]. apply prefix_str_le, Hp. }
  pose proof (@StronglySorted_merge_sort _ str_le _ str_le_trans str_le_total keys)
    as Hs.
  pose proof (merge_sort_Permutation str_le keys) as Hperm.
  destruct (merge_sort str_le keys) as [|h t] eqn:E.
  { apply Permutation_nil_l in Hperm. rewrite <- Hperm in Hin.
    apply elem_of_nil in Hin. contradiction. }
  cbn [List.firstn]. do 2 f_equal.
  apply String.leb_antisym.
  - rewrite <- Hperm in Hin. apply elem_of_cons in Hin as [->|Ht].
    + destruct (String.leb_total h h); assumption.
    + apply StronglySorted_inv in Hs as [_ Hall].
      rewrite List.Forall_forall in Hall. apply Hall, list_elem_of_In, Ht.
  - apply Hlow. rewrite <- Hperm. left.
Qed.

(** ** Disks stay well formed *)

Section Preserves.
Context {T : Type} (I : st T -> Prop).

Lemma preserves_ret {A} (a : A) : preserves I (ret a).
Proof. intros s s' r H [= <- _]. exact H. Qed.

Lemma preserves_raise {A} (e : exn) : preserves (A:=A) I (raise e).
Proof. intros s s' r H [= <- _]. exact H. Qed.

Lemma preserves_gets {A} (f : st T -> A) : preserves I (gets f).
Proof. intros s s' r H [= <- _]. exact H. Qed.

Lemma preserves_bind {A B} (m : M (st T) A) (k : A -> M (st T) B) :
  preserves I m -> (forall a, preserves I (k a)) -> preserves I (bind m k).
Proof.
  intros Hm Hk s s' r H E.
  apply bind_inv in E as [(s1 & a & E1 & E2)|(e & E1 & _)].
  - eapply Hk; [eapply Hm; [exact H | exact E1] | exact E2].
  - eapply Hm; [exact H | exact E1].
Qed.

Lemma preserves_try_else {A B} (body : M (st T) A) catches
    (handler : exn -> M (st T) B) (orelse : A -> M (st T) B) :
  preserves I body -> (forall e, preserves I (handler e)) ->
  (forall a, preserves I (orelse a)) ->
  preserves I (try_else body catches handler orelse).
Proof.
  intros Hb Hh Ho s s' r H E.
  apply try_else_inv in E
    as [(s1 & a & E1 & E2)|[(s1 & e & E1 & _ & E2)|(e & E1 & _)]].
  - eapply Ho; [eapply Hb; [exact H | exact E1] | exact E2].
  - eapply Hh; [eapply Hb; [exact H | exact E1] | exact E2].
  - eapply Hb; [exact H | exact E1].
Qed.

End Preserves.

Lemma stat_disk_insert_ne (d : gmap Path node) (p q : Path) (n : node) :
  q <> p -> stat_disk (<[p := n]> d) q = stat_disk d q.
Proof.
  intros Hne. unfold stat_disk. destruct (Pathlib.parts q); [reflexivity|].
  apply lookup_insert_ne. congruence.
Qed.

(** A new entry in a directory, or a file written over a file, keeps the
    disk well formed. *)
Lemma wf_disk_insert (d : gmap Path node) (p : Path) (n : node) :
  wf_disk d ->
  stat_disk d (Pathlib.parent p) = Some Dir ->
  stat_disk d p = None \/ (n <> Dir /\ stat_disk d p <> Some Dir) ->
  wf_disk (<[p := n]> d).
Proof.
  intros Hwf Hparent Hp q m Hq.
  assert (Hpp : Pathlib.parent p <> p \/ Pathlib.parts (Pathlib.parent p) = []).
  { destruct (Pathlib.parts (Pathlib.parent p)) eqn:E; [auto|]. left.
    intros Heq. rewrite Heq in Hparent, E.
    destruct Hp as [Hp|[_ Hp]]; congruence. }
  destruct (decide (q = p)) as [->|Hne].
  - destruct Hpp as [Hpp|Hpp].
    + rewrite stat_disk_insert_ne by exact Hpp. exact Hparent.
    + unfold stat_disk. rewrite Hpp. reflexivity.
  - rewrite lookup_insert_ne in Hq by congruence.
    pose proof (Hwf _ _ Hq) as Hd.
    destruct (decide (Pathlib.parent q = p)) as [Heq|Hneq].
    + rewrite Heq in *. destruct Hp as [Hp|[_ Hp]]; congruence.
    + rewrite stat_disk_insert_ne by exact Hneq. exact Hd.
Qed.

Lemma wf_disk_empty : wf_disk ∅.
Proof. intros p n H. rewrite lookup_empty in H. discriminate. Qed.

Lemma os_mkdir_preserves_wf {T} (p : Path) : preserves (@disk_wf T) (os_mkdir p).
Proof.
  intros s s' r Hwf. unfold os_mkdir, get_disk. unfold bind at 1. cbn [gets].
  destruct (stat_disk _ p) eqn:Hp; [intros [= <- _]; exact Hwf|].
  destruct (stat_disk _ (Pathlib.parent p)) as [[|c]|] eqn:Hparent;
    try (intros [= <- _]; exact Hwf).
  intros [= <- _]. unfold disk_wf, the_stores. cbn.
  apply wf_disk_insert; auto.
Qed.

Lemma mkdir_fuel_preserves_wf {T} fuel (p : Path) parents exist_ok :
  preserves (@disk_wf T) (mkdir_fuel fuel p parents exist_ok).
Proof.
  revert p parents exist_ok.
  induction fuel as [|fuel IH]; intros p parents exist_ok; cbn [mkdir_fuel];
    (apply preserves_try_else;
     [apply os_mkdir_preserves_wf | intros e | intros; apply preserves_ret]);
    (destruct (Exn.isinstance e [Exn.FileNotFoundError]);
     [destruct (negb parents || _); try apply preserves_raise;
      try (apply preserves_bind; [apply IH | intros; apply IH])
     |unfold Path_is_dir, get_disk;
      apply preserves_bind; [apply preserves_bind; [apply preserves_gets|]|];
      intros; try apply preserves_ret;
      match goal with |- context [if ?b then _ else _] => destruct b end;
      auto using @preserves_raise, @preserves_ret]).
Qed.

Lemma external_call_keeps_stores {T} : keeps (@the_stores T) external_call.
Proof. solve_keeps. Qed.

Lemma local_write_preserves_wf (p : Path) (file : list byte) :
  preserves (@disk_wf Local.t) (Path_open_wb p ;; file_write p file).
Proof.
  intros s s' r Hwf H. unfold disk_wf in *.
  unfold Path_open_wb in H. rewrite bind_assoc in H.
  apply bind_inv in H as [(s1 & [] & E1 & H)|(e & E1 & _)];
    apply external_call_keeps_stores in E1; unfold the_stores in E1;
    [|rewrite E1; exact Hwf].
  rewrite <- E1 in Hwf. clear E1 s.
  rewrite bind_assoc in H. unfold get_disk in H. unfold bind at 1 in H.
  cbn [gets] in H.
  assert (Hdone : forall n,
            n <> Dir -> stat_disk (disk (stores (world s1))) p <> Some Dir ->
            stat_disk (disk (stores (world s1))) (Pathlib.parent p) = Some Dir ->
            (put_disk (<[p := n]> (disk (stores (world s1)))) ;; file_write p file) s1
            = (s', r) ->
            wf_disk (disk (stores (world s')))).
  { intros n Hn Hp Hparent E.
    apply bind_inv in E as [(s2 & [] & [-> _]%modify_inv & E)|(e & [_ [=]]%modify_inv & _)].
    assert (Hwf2 : wf_disk (<[p := n]> (disk (stores (world s1)))))
      by (apply wf_disk_insert; auto).
    unfold file_write in E.
    apply bind_inv in E as [(s3 & [] & E3 & E)|(e & E3 & _)];
      apply external_call_keeps_stores in E3; unfold the_stores in E3;
      cbn [world with_stores stores set_disk disk] in E3;
      [|rewrite E3; exact Hwf2].
    unfold get_disk in E. unfold bind at 1 in E. cbn [gets] in E.
    apply modify_inv in E as [-> _].
    cbn [world with_stores stores set_disk disk]. rewrite E3. cbn [set_disk disk].
    rewrite insert_insert_eq. apply wf_disk_insert; auto. }
  destruct (stat_disk _ p) as [[|c]|] eqn:Hp.
  - injection H as <- _. exact Hwf.
  - destruct (stat_disk _ (Pathlib.parent p)) as [[|c']|] eqn:Hparent;
      try (injection H as <- _; exact Hwf).
    eapply (Hdone (File [])); eauto; congruence.
  - destruct (stat_disk _ (Pathlib.parent p)) as [[|c']|] eqn:Hparent;
      try (injection H as <- _; exact Hwf).
    eapply (Hdone (File [])); eauto; congruence.
Qed.

(** The local upload keeps the disk well formed. *)
Lemma local_upload_preserves_wf id file ext :
  preserves disk_wf (Local.upload_file_with_id id file ext).
Proof.
  unfold Local.upload_file_with_id, Path_mkdir, Path_exists, get_disk.
  apply preserves_bind; [apply preserves_gets | intros root].
  apply preserves_bind; [apply mkdir_fuel_preserves_wf | intros _].
  apply preserves_bind;
    [apply preserves_bind; [apply preserves_gets | intros; apply preserves_ret]
    |intros found].
  assert (Hlog : forall l ev, preserves (@disk_wf Local.t) (logger l ev))
    by (intros l ev s s' r H [= <- _]; exact H).
  destruct found.
  - apply preserves_bind; [apply Hlog | intros; apply preserves_ret].
  - apply preserves_try_else; [apply local_write_preserves_wf | |];
      intros; (apply preserves_bind; [apply Hlog | intros; apply preserves_ret]).
Qed.

(** ** Uploading where content already is *)

Lemma s3_key_listed_keeps p : keeps s3_fixed (S3.key_listed p).
Proof.
  unfold S3.key_listed, S3.list_key, S3.get_client, S3.get_client_body.
  solve_keeps.
Qed.



Lemma gcs_ensure_connection_keeps : keeps gcs_fixed GCS.ensure_connection.
Proof. unfold GCS.ensure_connection, GCS.ensure_connection_body. solve_keeps. Qed.


Lemma sftp_ensure_connection_keeps : keeps sftp_fixed SFTP.ensure_connection.
Proof.
  unfold SFTP.ensure_connection, SFTP.ensure_connection_body, SFTP._is_connected.
  solve_keeps.
Qed.

(** The SFTP backend never writes: whatever it finds on the server, its
    upload ends at the test of the coroutine object. *)
Lemma sftp_upload_never_writes id file ext (s s' : st SFTP.t) r :
  SFTP.upload_file_with_id id file ext s = (s', r) ->
  the_stores s' = the_stores s /\ r <> Returned true.
Proof.
  intros H.
  destruct (SFTP.ensure_connection s) as [s1 [[]|e]] eqn:Ec.
  - rewrite (sftp_upload_after_connection _ _ _ _ _ Ec) in H.
    injection H as <- <-.
    apply sftp_ensure_connection_keeps in Ec as [= _ Hs].
    split; [exact Hs | discriminate].
  - unfold SFTP.upload_file_with_id in H.
    rewrite (bind_raised _ _ _ _ _ Ec) in H. injection H as <- <-.
    apply sftp_ensure_connection_keeps in Ec as [= _ Hs].
    split; [exact Hs | discriminate].
Qed.



Lemma wf_disk_decide (d : gmap Path node) :
  bool_decide (map_Forall (fun p _ => stat_disk d (Pathlib.parent p) = Some Dir) d) = true ->
  wf_disk d.
Proof.
  intros H%bool_decide_eq_true_1 p n Hp. exact (H p n Hp).
Qed.




(** ** Facts about [tenacity.retry] *)

Local Open Scope list_scope.

Lemma sleep_inv {T} z (s s' : st T) r :
  sleep z s = (s', r) ->
  s' = mkSt (self s) (with_env (add_sleep z) (world s)) /\ r = Returned tt.
Proof. intros [= <- <-]. auto. Qed.

Section RetryFacts.
Context {T A : Type} (p : Tenacity.policy) (retry_if : exn -> M (st T) bool)
        (fn : M (st T) A).

Hypothesis fn_slept : keeps the_slept fn.
Hypothesis if_slept : forall e, keeps the_slept (retry_if e).
Hypothesis if_total : forall e s, exists s' b, retry_if e s = (s', Returned b).

(** The sleeps of a retried call are the waits of the policy, one between
    two attempts: at most [remaining] of them. *)
Lemma attempts_slept remaining :
  forall first s s' r,
    Tenacity.attempts p retry_if remaining first fn s = (s', r) ->
    exists k, k <= remaining /\ the_slept s' = (the_slept s ++ waits p first k)%list.
Proof.
  induction remaining as [|n IH]; intros a s s' r; cbn [Tenacity.attempts];
    destruct (fn s) as [s1 [v|e]] eqn:E; pose proof (fn_slept _ _ _ E) as Hs1.
  - intros [= <- _]. exists 0. rewrite Hs1, app_nil_r. auto.
  - intros H. exists 0. split; [lia|]. rewrite app_nil_r, <- Hs1.
    eapply keeps_apply; [|exact H].
    apply keeps_bind; [apply if_slept|]. intros []; apply keeps_raise.
  - intros [= <- _]. exists 0. rewrite Hs1, app_nil_r. split; [lia | reflexivity].
  - intros H.
    apply bind_inv in H as [(s2 & again & E2 & H)|(e' & E2 & _)].
    2:{ exists 0. rewrite app_nil_r, <- Hs1. split; [lia|]. eapply if_slept, E2. }
    pose proof (if_slept _ _ _ _ E2) as Hs2. destruct again.
    + apply bind_inv in H as [(s3 & [] & [-> _]%sleep_inv & H)
                             |(e' & [_ [=]]%sleep_inv & _)].
      apply IH in H as (k & Hk & ->). exists (S k). split; [lia|].
      unfold the_slept, waits in *. cbn [world env slept with_env add_sleep List.seq List.map].
      rewrite Hs2, Hs1, <- app_assoc. reflexivity.
    + injection H as <- _. exists 0. rewrite app_nil_r, Hs2, Hs1.
      split; [lia | reflexivity].
Qed.

(** A value returned by a retried call is the value of one of its
    attempts. *)
Lemma attempts_returned remaining :
  forall first s s' v,
    Tenacity.attempts p retry_if remaining first fn s = (s', Returned v) ->
    exists s0, fn s0 = (s', Returned v).
Proof.
  induction remaining as [|n IH]; intros a s s' v; cbn [Tenacity.attempts];
    destruct (fn s) as [s1 [v1|e]] eqn:E.
  - intros [= <- <-]. eauto.
  - intros (s2 & [] & _ & H)%bind_Returned_inv; discriminate.
  - intros [= <- <-]. eauto.
  - intros (s2 & [] & _ & H)%bind_Returned_inv; [|discriminate].
    apply bind_Returned_inv in H as (s3 & [] & _ & H). eapply IH, H.
Qed.

(** With [reraise], an exception raised by a retried call is the one an
    attempt raised, as it is. *)
Lemma attempts_raised remaining :
  Tenacity.reraise p = true ->
  forall first s s' e,
    Tenacity.attempts p retry_if remaining first fn s = (s', Raised e) ->
    exists s0 s1, fn s0 = (s1, Raised e).
Proof.
  intros Hre.
  induction remaining as [|n IH]; intros a s s' e0; cbn [Tenacity.attempts];
    destruct (fn s) as [s1 [v1|e]] eqn:E; try discriminate; rewrite ?Hre; intros H;
    destruct (if_total e s1) as (s2 & again & E2);
    rewrite (bind_eq _ _ _ _ _ E2) in H; destruct again;
    try (injection H as _ <-; eauto).
  apply bind_inv in H as [(s3 & [] & _ & H)|(e' & [_ [=]]%sleep_inv & _)].
  eapply IH, H.
Qed.

(** Attempts that all fail by a fault the predicate accepts: the call
    makes every attempt it is allowed, sleeps between them, and raises the
    last fault ([RetryError] of it without [reraise]). *)
Lemma attempts_exhausted (P : st T -> Prop) (accepted : exn -> Prop) :
  fails_by_fault P fn ->
  (forall s s' r, P s -> fn s = (s', r) -> P s') ->
  (forall e s, accepted e -> P s ->
     exists s', retry_if e s = (s', Returned true) /\ P s'
                /\ the_faults s' = the_faults s) ->
  (forall z s, P s -> P (mkSt (self s) (with_env (add_sleep z) (world s)))) ->
  forall remaining first s es e rest,
    P s -> List.length es = remaining ->
    List.Forall accepted (es ++ [e]) ->
    the_faults s = List.map Some (es ++ [e]) ++ rest ->
    exists s',
      Tenacity.attempts p retry_if remaining first fn s
      = (s', Raised (if Tenacity.reraise p then e else Tenacity.retry_error e))
      /\ the_faults s' = rest
      /\ the_slept s' = (the_slept s ++ waits p first remaining)%list.
Proof.
  intros Hfn HP Hif Hsleep.
  induction remaining as [|n IH]; intros a s es e rest Ps Hlen Hacc Hfs;
    cbn [Tenacity.attempts].
  - destruct es; [|discriminate]. cbn in Hfs, Hacc.
    apply List.Forall_cons_iff in Hacc as [He _].
    destruct (Hfn _ _ _ Ps Hfs) as (s1 & E & F1 & S1). rewrite E.
    destruct (Hif e s1 He (HP _ _ _ Ps E)) as (s2 & E2 & _ & F2).
    rewrite (bind_eq _ _ _ _ _ E2). eexists. split; [reflexivity|].
    rewrite F2, F1, (if_slept _ _ _ _ E2), S1, app_nil_r. auto.
  - destruct es as [|e1 es]; [discriminate|]. injection Hlen as Hlen.
    cbn in Hfs, Hacc. apply List.Forall_cons_iff in Hacc as [He1 Hacc].
    destruct (Hfn _ _ _ Ps Hfs) as (s1 & E & F1 & S1). rewrite E.
    destruct (Hif e1 s1 He1 (HP _ _ _ Ps E)) as (s2 & E2 & P2 & F2).
    rewrite (bind_eq _ _ _ _ _ E2). unfold bind at 1. cbn [sleep modify_world modify].
    destruct (IH (S a) _ es e rest (Hsleep (Tenacity.wait_exponential p a) _ P2)
                 Hlen Hacc) as (s' & -> & F' & S').
    { unfold the_faults in *. cbn. rewrite F2, F1. reflexivity. }
    eexists. split; [reflexivity|]. split; [exact F'|].
    rewrite S'. unfold the_slept, waits in *. cbn [world env slept with_env add_sleep List.seq List.map].
    rewrite (if_slept _ _ _ _ E2), S1, <- app_assoc. reflexivity.
Qed.

End RetryFacts.

(** Retrying and then mapping the result is retrying the mapped function. *)
Lemma attempts_map {T A B} (p : Tenacity.policy) retry_if (fn : M (st T) A)
    (f : A -> B) remaining :
  forall first s,
    Tenacity.attempts p retry_if remaining first (do a <- fn; ret (f a)) s
    = (do a <- Tenacity.attempts p retry_if remaining first fn; ret (f a)) s.
Proof.
  induction remaining as [|n IH]; intros a s; cbn [Tenacity.attempts];
    unfold bind, ret in *; destruct (fn s) as [s1 [v|e]]; try reflexivity;
    destruct (retry_if e s1) as [s2 [[]|e']]; try reflexivity.
  cbn [sleep modify_world modify]. apply IH.
Qed.

Lemma waits_5_1_1_10 (p : Tenacity.policy) k :
  Tenacity.multiplier p = 1%Z -> Tenacity.wait_min p = 1%Z ->
  Tenacity.wait_max p = 10%Z -> k <= 4 ->
  waits p 1 k = List.firstn k [1; 2; 4; 8]%Z.
Proof.
  intros Hm Hmin Hmax Hk. unfold waits, Tenacity.wait_exponential.
  rewrite Hm, Hmin, Hmax.
  do 5 (destruct k as [|k]; [reflexivity|]). lia.
Qed.

(** ** The retry bound of the remote connections *)

(** Four failed attempts and a fifth that succeeds: the uploads through
    S3 and GCS succeed after waits of 1, 2, 4 and 8 seconds. *)
Example s3_upload_after_fifth_attempt :
  let r := upload_file_with_id (compute_file_id blob21) blob21 (Some "txt")
             (mkSt s3_sample (world_with_faults (List.repeat (Some refused) 4))) in
  snd r = Returned true
  /\ the_slept (fst r) = [1; 2; 4; 8]%Z
  /\ s3_objects (the_stores (fst r))
       !! ("bucket", "d7f/c24/d7fc24eb1ae07961aea3b35480e8eb55.txt"%string)
     = Some blob21.
Proof. vm_compute. auto. Qed.

Example gcs_upload_after_fifth_attempt :
  let r := upload_file_with_id (compute_file_id blob21) blob21 (Some "txt")
             (mkSt gcs_sample (world_with_faults (List.repeat (Some refused) 4))) in
  snd r = Returned true
  /\ the_slept (fst r) = [1; 2; 4; 8]%Z
  /\ gcs_objects (the_stores (fst r))
       !! ("bucket", "d7f/c24/d7fc24eb1ae07961aea3b35480e8eb55.txt"%string)
     = Some blob21.
Proof. vm_compute. auto. Qed.

(** Five failed attempts: a [RetryError] surfaces and nothing is written,
    on each remote backend. *)
Example connection_exhausted_no_write :
  let fs := world_with_faults (List.repeat (Some refused) 5) in
  let up {T} `{FileStorageService T} (x : T) :=
    upload_file_with_id (compute_file_id blob21) blob21 (Some "txt") (mkSt x fs) in
  let fatal := Raised (Exn.mk Exn.RetryError "Connection refused") in
  (snd (up s3_sample) = fatal /\ the_stores (fst (up s3_sample)) = stores fs)
  /\ (snd (up gcs_sample) = fatal /\ the_stores (fst (up gcs_sample)) = stores fs)
  /\ (snd (up sftp_sample) = fatal /\ the_stores (fst (up sftp_sample)) = stores fs).
Proof. vm_compute. auto 10. Qed.


(** C6, at the failing input.  The SFTP connection is established at the
    fifth attempt, after four transient failures and waits of 1, 2, 4 and
    8 seconds; yet the upload of a fresh blob that needed it returns
    [False] and writes nothing, because [upload_file_with_id] tests the
    coroutine object of [exists] instead of awaiting it.  No upload
    through SFTP ever returns [True]. *)
Theorem sftp_upload_fails_after_fifth_attempt :
  let s := mkSt sftp_sample (world_with_faults (List.repeat (Some refused) 4)) in
  let connected := SFTP.ensure_connection s in
  let uploaded := upload_file_with_id (compute_file_id blob21) blob21 (Some "txt") s in
  (snd connected = Returned tt
   /\ SFTP.sftp_client (self (fst connected)) = true
   /\ the_slept (fst connected) = [1; 2; 4; 8]%Z)
  /\ snd uploaded = Returned false
  /\ the_stores (fst uploaded) = the_stores s
  /\ (forall id file ext (s0 : st SFTP.t),
        snd (upload_file_with_id id file ext s0) <> Returned true).
Proof.
  cbv zeta. split; [vm_compute; auto|]. split; [vm_compute; reflexivity|].
  split; [vm_compute; reflexivity|].
  intros id file ext s0. cbn [upload_file_with_id SFTP_service].
  destruct (SFTP.upload_file_with_id id file ext s0) as [s1 r] eqn:E.
  apply sftp_upload_never_writes in E as [_ Hr]. exact Hr.
Qed.

(** ** The retried database operations *)

Section FailsByFault.
Context {T : Type}.

Lemma fails_external_call : fails_by_fault (T:=T) (fun _ => True) external_call.
Proof.
  intros s e fs _ F. pose proof (external_call_cases s) as E.
  rewrite F in E. eexists. split; [exact E|]. unfold the_faults, the_slept. auto.
Qed.

Lemma fails_weaken {A} (P Q : st T -> Prop) (m : M (st T) A) :
  (forall s, Q s -> P s) -> fails_by_fault P m -> fails_by_fault Q m.
Proof. intros HQ Hm s e fs Qs F. apply Hm; auto. Qed.

Lemma fails_bind {A B} P (m : M (st T) A) (k : A -> M (st T) B) :
  fails_by_fault P m -> fails_by_fault P (bind m k).
Proof.
  intros Hm s e fs Ps F. destruct (Hm _ _ _ Ps F) as (s' & E & H).
  exists s'. rewrite (bind_raised _ _ _ _ _ E). auto.
Qed.

(** After a step that returns and touches neither the schedule nor the
    sleeps. *)
Lemma fails_after {A B} (P Q : st T -> Prop) (m : M (st T) A)
    (k : A -> M (st T) B) :
  (forall s, P s -> exists s1 a, m s = (s1, Returned a) /\ Q s1
                       /\ the_faults s1 = the_faults s
                       /\ the_slept s1 = the_slept s) ->
  (forall a, fails_by_fault Q (k a)) ->
  fails_by_fault P (bind m k).
Proof.
  intros Hm Hk s e fs Ps F.
  destruct (Hm _ Ps) as (s1 & a & E & Q1 & F1 & S1).
  rewrite (bind_eq _ _ _ _ _ E). rewrite <- F1 in F.
  destruct (Hk a _ _ _ Q1 F) as (s' & E' & F' & S'). exists s'.
  rewrite S', S1. auto.
Qed.

(** A handler that logs and raises the exception again. *)
Lemma fails_try_reraise {A} P (body : M (st T) A) catches l ev :
  fails_by_fault P body ->
  fails_by_fault P (try_ body catches (fun e => logger l ev ;; raise e)).
Proof.
  intros Hb s e fs Ps F. destruct (Hb _ _ _ Ps F) as (s' & E & F' & S').
  unfold try_, try_else. rewrite E. destruct (catches e).
  - eexists. split; [reflexivity|]. unfold the_faults, the_slept in *. auto.
  - eauto.
Qed.

End FailsByFault.

Lemma connect_connected (s : st DB.t) :
  is_Some (DB.ctx_get (world s)) -> DB.connect s = (s, Returned tt).
Proof.
  intros H. unfold DB.connect, DB.get_session. unfold bind at 1. cbn [gets].
  rewrite bool_decide_eq_true_2 by exact H. reflexivity.
Qed.

Lemma connect_fails_by_fault :
  fails_by_fault (fun s => DB.ctx_get (world s) = None) DB.connect.
Proof.
  intros s e fs Hnone F. unfold DB.connect, DB.get_session.
  unfold bind at 1. cbn [gets]. rewrite Hnone.
  rewrite bool_decide_eq_false_2 by (intros [? [=]]).
  unfold bind at 1. cbn [gets].
  destruct (bool_decide (DB.engine (self s) = None) || negb (DB.session_maker (self s))).
  - refine (fails_bind (fun _ => True) _ _ _ s e fs I F).
    apply fails_try_reraise.
    apply (fails_after _ (fun _ => True)).
    + intros s0 _. destruct (DB._get_async_creator_func _);
        (eexists _, tt; split; [reflexivity|]; auto).
    + intros _. unfold DB.create_async_engine.
      apply fails_bind, fails_bind, fails_external_call.
  - refine (fails_after (fun _ => True) (fun _ => True) _ _ _ _ s e fs I F).
    + intros s0 _. eexists _, tt. split; [reflexivity|]. auto.
    + intros _. apply fails_try_reraise. unfold DB.make_session.
      apply fails_bind, fails_bind, fails_external_call.
Qed.

Lemma session_call_fails_by_fault (q : stmt) :
  fails_by_fault (fun s => is_Some (DB.ctx_get (world s))) (DB.session_call q).
Proof.
  intros s e fs [sid Hs] F. unfold DB.session_call, DB.get_session.
  unfold bind at 1. cbn [gets]. rewrite Hs.
  exact (fails_bind (fun _ => True) _ _ fails_external_call s e fs I F).
Qed.

(** Every attempt of a well-typed operation fails by a fault that is
    scheduled: in [connect] when the task has no session yet, in the call
    on the session otherwise. *)
Lemma body_fails_by_fault (op : DB.operation) :
  well_typed op -> fails_by_fault (fun _ => True) (DB.body op).
Proof.
  intros Hwt s e fs _ F.
  destruct (DB.ctx_get (world s)) as [sid|] eqn:Hs.
  - assert (Hc : DB.connect s = (s, Returned tt))
      by (apply connect_connected; rewrite Hs; eauto).
    assert (Hq : forall q {B} (k : nat -> M (st DB.t) B),
               exists s', bind (DB.session_call q) k s = (s', Raised e)
                          /\ the_faults s' = fs /\ the_slept s' = the_slept s).
    { intros q B k.
      refine (fails_bind _ _ _ (session_call_fails_by_fault q) s e fs _ F).
      rewrite Hs. eauto. }
    destruct op as [[sql|c|] params auto_commit|obj|objs|obj| | |obj];
      try contradiction;
      cbn [DB.body]; unfold DB.forget, DB.execute_body, DB.add_body,
        DB.add_all_body, DB.delete_body, DB.commit_body, DB.rollback_body,
        DB.refresh_body;
      rewrite !bind_assoc, (bind_eq _ _ _ _ _ Hc), ?bind_assoc; apply Hq.
  - assert (Hc : forall {B} (k : unit -> M (st DB.t) B),
               exists s', bind DB.connect k s = (s', Raised e)
                          /\ the_faults s' = fs /\ the_slept s' = the_slept s).
    { intros B k. exact (fails_bind _ _ _ connect_fails_by_fault s e fs Hs F). }
    destruct op as [q params auto_commit|obj|objs|obj| | |obj];
      cbn [DB.body]; unfold DB.forget, DB.execute_body, DB.add_body,
        DB.add_all_body, DB.delete_body, DB.commit_body, DB.rollback_body,
        DB.refresh_body;
      rewrite !bind_assoc; apply Hc.
Qed.

Lemma should_retry_spec (e : exn) (s : st DB.t) :
  exists s',
    DB._should_retry_on_exception e s = (s', Returned (transient e))
    /\ the_faults s' = the_faults s /\ the_slept s' = the_slept s.
Proof.
  unfold DB._should_retry_on_exception, transient.
  destruct (Exn.isinstance e [Exn.OperationalError; Exn.OSError]).
  - eexists. split; [reflexivity|]. auto.
  - cbn [orb].
    destruct (Exn.isinstance e [Exn.DBAPIError] && _);
      (eexists; split; [reflexivity|]; auto).
Qed.

Lemma should_retry_keeps_slept (e : exn) :
  keeps the_slept (DB._should_retry_on_exception e).
Proof. unfold DB._should_retry_on_exception. solve_keeps. Qed.

Lemma connect_keeps_slept : keeps the_slept DB.connect.
Proof.
  unfold DB.connect, DB.get_session, DB.create_async_engine, DB.make_session.
  solve_keeps.
Qed.

Lemma body_keeps_slept (op : DB.operation) : keeps the_slept (DB.body op).
Proof.
  pose proof connect_keeps_slept.
  destruct op as [[] ? []| | | | | | ]; cbn [DB.body];
    unfold DB.forget, DB.execute_body, DB.add_body, DB.add_all_body,
      DB.delete_body, DB.commit_body, DB.rollback_body, DB.refresh_body,
      DB.session_call, DB.get_session;
    solve_keeps; auto.
Qed.

(** A decorated operation is the retry of its undecorated function. *)
Lemma call_retries_body (op : DB.operation) (s : st DB.t) :
  DB.call op s = DB.retry_on_db_errors (DB.body op) s.
Proof.
  destruct op; cbn [DB.call DB.body];
    unfold DB.forget, DB.execute, DB.add, DB.add_all, DB.delete, DB.commit,
      DB.rollback, DB.refresh, DB.retry_on_db_errors, Tenacity.retry;
    symmetry; apply attempts_map.
Qed.

(** C5.  Each of [execute], [add], [add_all], [delete], [commit],
    [rollback] and [refresh] is retried on transient errors (connection
    and OS errors, pgbouncer prepared-statement errors): at most five
    attempts, with waits of 1, 2, 4 and 8 seconds between them.  When five
    transient errors in a row exhaust the attempts, the fifth is raised to
    the caller as it is; an error that is not transient is raised at once.
    An exception raised is always one that an attempt raised, and a value
    returned is always the value of an attempt: an error never becomes a
    return value. *)
Theorem db_operations_retry_then_reraise (op : DB.operation) (s s' : st DB.t)
    (r : outcome (option DB.Result)) :
  DB.call op s = (s', r) ->
  (exists k, k <= 4 /\ the_slept s' = the_slept s ++ List.firstn k [1; 2; 4; 8]%Z)
  /\ (forall v, r = Returned v -> exists s0, DB.body op s0 = (s', Returned v))
  /\ (forall e, r = Raised e -> exists s0 s1, DB.body op s0 = (s1, Raised e))
  /\ (forall e1 e2 e3 e4 e5 rest,
        well_typed op ->
        the_faults s = List.map Some [e1; e2; e3; e4; e5] ++ rest ->
        List.Forall (fun e => transient e = true) [e1; e2; e3; e4; e5] ->
        r = Raised e5 /\ the_faults s' = rest
        /\ the_slept s' = the_slept s ++ [1; 2; 4; 8]%Z)
  /\ (forall e rest,
        well_typed op ->
        the_faults s = Some e :: rest -> transient e = false ->
        r = Raised e /\ the_faults s' = rest /\ the_slept s' = the_slept s).
Proof.
  intros H. rewrite call_retries_body in H.
  unfold DB.retry_on_db_errors, Tenacity.retry in H.
  cbn [Tenacity.stop_after_attempt DB.db_policy Nat.sub] in H.
  assert (Htotal : forall e s0, exists s1 b,
            DB._should_retry_on_exception e s0 = (s1, Returned b)).
  { intros e s0. destruct (should_retry_spec e s0) as (s1 & E & _). eauto. }
  split; [|split; [|split; [|split]]].
  - apply attempts_slept in H as (k & Hk & ->);
      auto using body_keeps_slept, should_retry_keeps_slept.
    exists k. split; [exact Hk|]. f_equal. apply waits_5_1_1_10; auto.
  - intros v ->. eapply attempts_returned, H.
  - intros e ->. exact (attempts_raised DB.db_policy _ _ Htotal _ eq_refl _ _ _ _ H).
  - intros e1 e2 e3 e4 e5 rest Hwt Hf Hacc.
    destruct (attempts_exhausted DB.db_policy DB._should_retry_on_exception
                (DB.body op) should_retry_keeps_slept
                (fun _ => True) (fun e => transient e = true)
                (body_fails_by_fault op Hwt))
      with (remaining := 4) (first := 1) (s := s) (es := [e1; e2; e3; e4])
           (e := e5) (rest := rest)
      as (s2 & E & F & S2); auto.
    { intros e s0 He _. destruct (should_retry_spec e s0) as (s1 & E & F & _).
      rewrite He in E. eauto. }
    rewrite E in H. injection H as <- <-. auto.
  - intros e rest Hwt Hf He. cbn [Tenacity.attempts] in H.
    destruct (body_fails_by_fault op Hwt s e rest I Hf) as (s1 & E & F1 & S1).
    rewrite E in H.
    destruct (should_retry_spec e s1) as (s2 & E2 & F2 & S2).
    rewrite He in E2. rewrite (bind_eq _ _ _ _ _ E2) in H.
    injection H as <- <-. rewrite F2, S2. auto.
Qed.

Lemma db_operations_retry_then_reraise_witness :
  let s := mkSt db_sample
             (db_world (List.map Some
                [reset; duplicate_statement; reset; reset; duplicate_statement])) in
  snd (DB.call DB.Commit s) = Raised duplicate_statement
  /\ the_faults (fst (DB.call DB.Commit s)) = []
  /\ the_slept (fst (DB.call DB.Commit s)) = [1; 2; 4; 8]%Z.
Proof.
  intros s.
  destruct (db_operations_retry_then_reraise DB.Commit s
              (fst (DB.call DB.Commit s)) (snd (DB.call DB.Commit s)))
    as (_ & _ & _ & H & _).
  - vm_compute. reflexivity.
  - apply (H reset duplicate_statement reset reset duplicate_statement []).
    + exact I.
    + reflexivity.
    + repeat constructor.
Defined.

(** Two transient errors, then the operation goes through. *)
Example db_commit_recovers :
  let r := DB.call DB.Commit
             (mkSt db_sample (db_world [Some reset; Some duplicate_statement])) in
  snd r = Returned None
  /\ the_slept (fst r) = [1; 2]%Z
  /\ issued (the_db (fst r)) = [(0, SCommit)].
Proof. vm_compute. auto. Qed.

(** ** The session of a unit of work *)

Lemma external_call_returned {T} (s s1 : st T) :
  external_call s = (s1, Returned tt) ->
  self s1 = self s /\ stores (world s1) = stores (world s)
  /\ db (world s1) = db (world s).
Proof.
  intros H.
  assert (K : keeps (fun s : st T => (self s, stores (world s), db (world s)))
                external_call) by solve_keeps.
  apply K in H as [= -> -> ->]. auto.
Qed.

(** [connect] in a task without session, when it returns: the engine is
    built if it or the session factory is missing, and a new session is
    put in the slot of the task. *)
Lemma connect_fresh (s s' : st DB.t) :
  DB.ctx_get (world s) = None ->
  DB.connect s = (s', Returned tt) ->
  self s' = (if engine_ready (self s) then self s else built (self s))
  /\ db (world s')
     = DB.ctx_set (Some (sessions_made (db (world s))))
         (DB.count_session
            ((if engine_ready (self s) then id else DB.count_engine)
               (db (world s))))
  /\ stores (world s') = stores (world s).
Proof.
  intros Hn H. unfold DB.connect, DB.get_session in H.
  unfold bind at 1 in H. cbn [gets] in H. rewrite Hn in H.
  rewrite bool_decide_eq_false_2 in H by (intros [? [=]]).
  unfold bind at 1 in H. cbn [gets] in H.
  apply bind_Returned_inv in H as (s1 & [] & H1 & H2).
  assert (Hs1 : self s1 = (if engine_ready (self s) then self s else built (self s))
                /\ db (world s1)
                   = (if engine_ready (self s) then id else DB.count_engine)
                       (db (world s))
                /\ stores (world s1) = stores (world s)).
  { unfold engine_ready.
    destruct (bool_decide (DB.engine (self s) = None) || negb (DB.session_maker (self s))).
    - cbn [negb].
      apply try_else_inv in H1
        as [(s2 & a & E & [-> _]%ret_inv)
           |[(s2 & e & _ & _ & (? & ? & _ & [=])%bind_Returned_inv)
            |(e & _ & _ & [=])]].
      apply bind_Returned_inv in E as (s3 & [] & E3 & E).
      unfold DB.create_async_engine in E.
      apply bind_Returned_inv in E as (s4 & [] & E4 & E).
      apply bind_Returned_inv in E4 as (s5 & [] & (S5 & T5 & D5)%external_call_returned & E4).
      apply bind_Returned_inv in E4 as (s6 & [] & [-> _]%modify_inv & [-> _]%modify_inv).
      apply bind_Returned_inv in E as (s7 & [] & (S7 & T7 & D7)%external_call_returned
                                         & [-> _]%modify_inv).
      cbn [self world with_db db stores] in *.
      assert (self s3 = with_async_creator (self s) /\ world s3 = world s) as [X3 W3].
      { unfold with_async_creator. destruct (DB._get_async_creator_func (self s)).
        - apply modify_inv in E3 as [-> _]. auto.
        - apply ret_inv in E3 as [-> _]. auto. }
      rewrite S7, T7, D7, S5, T5, D5, X3, W3. auto.
    - cbn [negb]. apply ret_inv in H1 as [-> _]. auto. }
  destruct Hs1 as (X1 & D1 & T1).
  apply try_else_inv in H2
    as [(s2 & a & E & [-> _]%ret_inv)
       |[(s2 & e & _ & _ & (? & ? & _ & [=])%bind_Returned_inv)|(e & _ & _ & [=])]].
  apply bind_Returned_inv in E as (s3 & sid & E3 & [-> _]%modify_inv).
  unfold DB.make_session in E3.
  apply bind_Returned_inv in E3 as (s4 & [] & (S4 & T4 & D4)%external_call_returned & E3).
  apply bind_Returned_inv in E3 as (s5 & n & [-> ->]%gets_inv & E3).
  apply bind_Returned_inv in E3 as (s6 & [] & [-> _]%modify_inv & [-> [= ->]]%ret_inv).
  cbn [self world with_db db stores].
  rewrite S4, T4, D4, X1, D1, T1.
  repeat split. f_equal.
  destruct (engine_ready (self s)); reflexivity.
Qed.


(** After a [connect] that returns, the running task has a session; the
    slots of the other tasks are as before. *)
Lemma connect_returned (s s' : st DB.t) :
  DB.connect s = (s', Returned tt) ->
  is_Some (DB.ctx_get (world s'))
  /\ task (db (world s')) = task (db (world s))
  /\ (forall t, t <> task (db (world s)) ->
        _session_ctx (db (world s')) !! t = _session_ctx (db (world s)) !! t).
Proof.
  intros H. destruct (DB.ctx_get (world s)) as [sid|] eqn:Hs.
  - rewrite connect_connected in H by (rewrite Hs; eauto).
    injection H as <-. rewrite Hs. eauto.
  - apply connect_fresh in H as (_ & D & _); [|exact Hs].
    unfold DB.ctx_get. rewrite D.
    cbn [DB.ctx_set DB.count_session task _session_ctx].
    assert (Ht : forall d, task ((if engine_ready (self s) then id else DB.count_engine) d)
                           = task d
                           /\ _session_ctx ((if engine_ready (self s) then id
                                             else DB.count_engine) d)
                              = _session_ctx d)
      by (intros d; destruct (engine_ready (self s)); auto).
    destruct (Ht (db (world s))) as [-> ->].
    rewrite lookup_insert_eq. split; [eauto|]. split; [reflexivity|].
    intros t Hne. apply lookup_insert_ne. congruence.
Qed.


Lemma set_default_lookup (key k : string) (v : DB.value) (m : gmap string DB.value) :
  DB.set_default key v m !! k
  = if decide (k = key) then Some (default v (m !! key)) else m !! k.
Proof.
  unfold DB.set_default. destruct (m !! key) as [v0|] eqn:E.
  - destruct (decide (k = key)) as [->|]; [exact E | reflexivity].
  - destruct (decide (k = key)) as [->|].
    + apply lookup_insert_eq.
    + apply lookup_insert_ne. congruence.
Qed.

Lemma init_engine_args (c : DB.config) (s0 s1 : st DB.t) r :
  DB.__init__ c s0 = (s1, r) ->
  forall key dflt, (key, dflt) ∈ pool_defaults ->
    DB.engine_args (self s1) !! key
    = Some (default dflt (default ∅ (DB.cfg_engine_args c) !! key)).
Proof.
  intros H.
  assert (Hargs : DB.engine_args (self s1)
                  = DB.set_default "pool_recycle" (DB.VInt 900)
                      (DB.set_default "pool_pre_ping" (DB.VBool true)
                         (DB.set_default "max_overflow" (DB.VInt 0)
                            (DB.set_default "pool_size" (DB.VInt 5)
                               (default ∅ (DB.cfg_engine_args c)))))).
  { unfold DB.__init__ in H.
    apply bind_inv in H as [(s2 & [] & [-> _]%modify_inv & H)|(e & [_ [=]]%modify_inv & _)].
    revert H. apply (keeps_apply (fun s : st DB.t => DB.engine_args (self s))).
    solve_keeps. }
  intros key dflt Hin. rewrite Hargs. unfold pool_defaults in Hin.
  repeat (apply elem_of_cons in Hin as [[= -> ->]|Hin]);
    [..|apply elem_of_nil in Hin; contradiction];
    rewrite !set_default_lookup; repeat case_decide;
    try discriminate; try congruence; reflexivity.
Qed.

(** C7, as amended.  [connect()] does nothing when the running task
    already has a session.  Otherwise, when it returns, it has built the
    engine only if the engine or the session factory was missing (on the
    first call, or after a full [disconnect()]), from the URL, the connect
    arguments and the engine arguments of the instance, and it has stored
    a new session in the slot of the running task.  Calling it twice in a
    row is calling it once.  The engine arguments are those the
    constructor left: the configured pool settings, and [pool_size=5],
    [max_overflow=0], [pool_pre_ping=True], [pool_recycle=900] for those
    the configuration does not set. *)
Theorem connect_idempotent_lazy_engine (s : st DB.t) (c : DB.config)
    (s0 s1 : st DB.t) :
  (is_Some (DB.ctx_get (world s)) -> DB.connect s = (s, Returned tt))
  /\ (forall s',
        DB.ctx_get (world s) = None ->
        DB.connect s = (s', Returned tt) ->
        DB.ctx_get (world s') = Some (sessions_made (the_db s))
        /\ sessions_made (the_db s') = S (sessions_made (the_db s))
        /\ (if engine_ready (self s)
            then self s' = self s /\ engines_built (the_db s') = engines_built (the_db s)
            else self s' = built (self s)
                 /\ engines_built (the_db s') = S (engines_built (the_db s))))
  /\ (DB.connect ;; DB.connect) s = DB.connect s
  /\ (DB.__init__ c s0 = (s1, Returned tt) ->
      forall key dflt, (key, dflt) ∈ pool_defaults ->
        DB.engine_args (self s1) !! key
        = Some (default dflt (default ∅ (DB.cfg_engine_args c) !! key))).
Proof.
  split; [apply connect_connected|]. split; [|split].
  - intros s' Hn H. apply connect_fresh in H as (X & D & _); [|exact Hn].
    unfold the_db, DB.ctx_get. rewrite D, X.
    cbn [DB.ctx_set DB.count_session task _session_ctx sessions_made engines_built].
    destruct (engine_ready (self s));
      cbn [id DB.count_engine task _session_ctx sessions_made engines_built];
      rewrite lookup_insert_eq; auto.
  - destruct (DB.connect s) as [s' [[]|e]] eqn:E.
    + rewrite (bind_eq _ _ _ _ _ E).
      apply connect_connected. apply connect_returned in E as [H _]. exact H.
    + apply (bind_raised _ _ _ _ _ E).
  - apply init_engine_args.
Qed.

Lemma connect_idempotent_lazy_engine_witness :
  let s := mkSt db_sample (db_world []) in
  DB.ctx_get (world (fst (DB.connect s))) = Some 0
  /\ engines_built (the_db (fst (DB.connect s))) = 1
  /\ DB.connect (fst (DB.connect s)) = (fst (DB.connect s), Returned tt)
  /\ DB.engine_args db_sample !! "max_overflow" = Some (DB.VInt 0).
Proof.
  intros s.
  destruct (connect_idempotent_lazy_engine s
              (DB.mkConfig (Some "postgresql://user@host/db"%string) None None None)
              (mkSt DB.fresh empty_world)
              (fst (DB.__init__
                      (DB.mkConfig (Some "postgresql://user@host/db"%string)
                                   None None None)
                      (mkSt DB.fresh empty_world))))
    as (_ & H2 & _ & H4).
  destruct (H2 (fst (DB.connect s))) as (A & _ & B);
    [vm_compute; reflexivity | vm_compute; reflexivity |].
  destruct (connect_idempotent_lazy_engine (fst (DB.connect s))
              (DB.mkConfig None None None None) s s) as (H1 & _).
  split; [exact A|]. split; [vm_compute; reflexivity|].
  split; [apply H1; vm_compute; eauto|].
  apply (H4 eq_refl "max_overflow"%string (DB.VInt 0)).
  unfold pool_defaults. apply elem_of_cons. right. apply elem_of_cons. left. reflexivity.
Defined.

(** C7 as stated fails twice.  After a full [disconnect()], [connect()]
    builds the engine of the same instance a second time; and the engine
    of an instance configured with [max_overflow: 10] is built with that
    overflow, not with zero. *)
Lemma engine_rebuilt_and_pool_overridden :
  engines_built
    (the_db (fst ((DB.connect ;; DB.disconnect ;; DB.connect)
                    (mkSt db_sample (db_world [])))))
  = 2
  /\ (DB.engine_kwargs
        <$> DB.engine
              (self (fst ((DB.__init__ overflowing_config ;; DB.connect)
                            (mkSt DB.fresh (db_world []))))))
       ≫= (fun kwargs => kwargs !! "max_overflow"%string)
     = Some (DB.VInt 10).
Proof. split; vm_compute; reflexivity. Qed.



(** C10.  The slot [_session_ctx] belongs to the class, not to the
    instance.  Once [connect()] on one instance has returned in a task,
    [get_session()] on any other instance (of the class or of its
    subclass), in the same task, returns that same session, and
    [connect()] on that other instance does nothing: it builds no engine
    and makes no session of its own.  A task has its own slot: the
    [connect()] leaves the slots of the other tasks as they were, and in
    another task every instance sees the slot of that task. *)
Theorem session_slot_shared_by_instances (a b : DB.t) (w : World)
    (sa : st DB.t) :
  DB.connect (mkSt a w) = (sa, Returned tt) ->
  (exists session,
      DB.get_session sa = (sa, Returned (Some session))
      /\ DB.get_session (mkSt b (world sa)) = (mkSt b (world sa), Returned (Some session)))
  /\ DB.connect (mkSt b (world sa)) = (mkSt b (world sa), Returned tt)
  /\ (forall t, t <> task (db w) ->
        _session_ctx (db (world sa)) !! t = _session_ctx (db w) !! t)
  /\ (forall t,
        DB.get_session (mkSt b (in_task t (world sa)))
        = (mkSt b (in_task t (world sa)),
           Returned (_session_ctx (db (world sa)) !! t))).
Proof.
  intros H. apply connect_returned in H as ([session Hs] & Ht & Hother).
  cbn [world] in *. split; [|split; [|split]].
  - exists session. unfold DB.get_session, gets. cbn [world]. rewrite Hs. auto.
  - apply connect_connected. cbn [world]. rewrite Hs. eauto.
  - exact Hother.
  - intros t. reflexivity.
Qed.

Lemma session_slot_shared_by_instances_witness :
  let a := db_sample in
  let b := self (fst (DB.__init__
                        (DB.mkConfig (Some "postgresql://"%string) None None
                                     (Some "project:region:instance"%string))
                        (mkSt DB.fresh empty_world))) in
  let sa := fst (DB.connect (mkSt a (db_world []))) in
  DB.get_session (mkSt b (world sa)) = (mkSt b (world sa), Returned (Some 0))
  /\ DB.connect (mkSt b (world sa)) = (mkSt b (world sa), Returned tt)
  /\ DB.engine (self (fst (DB.connect (mkSt b (world sa))))) = None.
Proof.
  intros a b sa.
  destruct (session_slot_shared_by_instances a b (db_world []) sa)
    as ((session & Ha & Hb) & Hc & _); [vm_compute; reflexivity|].
  assert (session = 0) as ->.
  { assert (E : DB.get_session sa = (sa, Returned (Some 0)))
      by (vm_compute; reflexivity).
    rewrite E in Ha. injection Ha as <-. reflexivity. }
  split; [exact Hb|]. split; [exact Hc|]. rewrite Hc. vm_compute. reflexivity.
Defined.

(* ===================================================================== *)
(** * Further properties of the code                                      *)
(* ===================================================================== *)

(** ** The shape of a storage path and the URLs *)

Lemma append_cons (c : ascii) (a b : string) :
  (String c a ++ b)%string = String c (a ++ b)%string.
Proof. reflexivity. Qed.

Lemma no_slash_cons (c : ascii) (s : string) :
  no_slash (String c s) <-> Ascii.eqb c "/" = false /\ no_slash s.
Proof.
  unfold no_slash. cbn [list_ascii_of_string List.forallb].
  rewrite andb_true_iff, negb_true_iff. reflexivity.
Qed.

Lemma no_slash_app (a b : string) :
  no_slash a -> no_slash b -> no_slash (a ++ b)%string.
Proof.
  intros Ha Hb. induction a as [|c a IH]; [exact Hb|].
  rewrite append_cons. apply no_slash_cons in Ha as [Hc Ha].
  apply no_slash_cons. auto.
Qed.

Lemma split_go_plain (cur a : string) :
  no_slash a -> Py.split_go "/" cur a = [String.rev_app cur a].
Proof.
  revert cur. induction a as [|x a IH]; intros cur Ha; [reflexivity|].
  apply no_slash_cons in Ha as [Hx Ha]. cbn [Py.split_go]. rewrite Hx.
  rewrite IH by exact Ha. reflexivity.
Qed.

Lemma split_go_app (cur a rest : string) :
  no_slash a ->
  Py.split_go "/" cur (a ++ String "/" rest)
  = String.rev_app cur a :: Py.split_go "/" "" rest.
Proof.
  revert cur. induction a as [|x a IH]; intros cur Ha; [reflexivity|].
  apply no_slash_cons in Ha as [Hx Ha]. rewrite append_cons.
  cbn [Py.split_go]. rewrite Hx. rewrite IH by exact Ha. reflexivity.
Qed.

Lemma splitroot_relative (c : ascii) (s : string) :
  Ascii.eqb c "/" = false -> Pathlib.splitroot (String c s) = ("", String c s).
Proof.
  destruct c as [[] [] [] [] [] [] [] []]; intros H;
    first [discriminate H | reflexivity].
Qed.

Lemma keep_part_long (x y : ascii) (s : string) :
  Pathlib.keep_part (String x (String y s)) = true.
Proof.
  unfold Pathlib.keep_part. cbn [String.eqb]. destruct (Ascii.eqb x "."); reflexivity.
Qed.

Lemma of_string_three (x1 x2 y1 y2 z1 z2 : ascii) (a b c : string) :
  no_slash (String x1 (String x2 a)) -> no_slash (String y1 (String y2 b)) ->
  no_slash (String z1 (String z2 c)) ->
  Pathlib.of_string
    (String x1 (String x2 a) ++ "/" ++ String y1 (String y2 b) ++ "/"
     ++ String z1 (String z2 c))%string
  = mkPath "" [String x1 (String x2 a); String y1 (String y2 b);
               String z1 (String z2 c)].
Proof.
  intros Ha Hb Hc. unfold Pathlib.of_string.
  pose proof Ha as [Hx _]%no_slash_cons.
  rewrite (append_cons x1), (splitroot_relative _ _ Hx), <- (append_cons x1).
  unfold Py.split.
  change ("/" ++ ?r)%string with (String "/" r).
  rewrite (split_go_app "" _ _ Ha).
  change ("/" ++ ?r)%string with (String "/" r).
  rewrite (split_go_app "" _ _ Hb), (split_go_plain "" _ Hc).
  cbn [String.rev_app List.filter]. rewrite !keep_part_long. reflexivity.
Qed.

Lemma is_hex_no_slash (c : ascii) : is_hex c = true -> Ascii.eqb c "/" = false.
Proof.
  intros H. destruct (Ascii.eqb_spec c "/") as [->|]; [|reflexivity].
  vm_compute in H. discriminate.
Qed.

Lemma hex_no_slash (s : string) :
  List.forallb is_hex (list_ascii_of_string s) = true -> no_slash s.
Proof.
  induction s as [|c s IH]; [reflexivity|].
  cbn [list_ascii_of_string List.forallb]. intros [Hc Hs]%andb_prop.
  apply no_slash_cons. split; [apply is_hex_no_slash, Hc | apply IH, Hs].
Qed.

Lemma lstrip_no_slash (c : ascii) (s : string) :
  no_slash s -> no_slash (Py.lstrip c s).
Proof.
  induction s as [|x s IH]; intros H; [exact H|].
  cbn [Py.lstrip]. destruct (Ascii.eqb x c); [|exact H].
  apply IH. apply no_slash_cons in H as [_ H]. exact H.
Qed.

Lemma suffix_of_no_slash (ext : option string) :
  no_slash (default "" ext) -> no_slash (suffix_of ext).
Proof.
  destruct ext as [[|c e]|]; intros H; try reflexivity.
  unfold suffix_of. apply (no_slash_cons "."). split; [reflexivity|].
  apply lstrip_no_slash. exact H.
Qed.

(** X1.  For every content and every extension without [/], the storage
    path of the content's identifier is relative and has exactly three
    parts: the first three hexadecimal digits, the next three, and the
    identifier with its suffix.  Joined to a root it therefore lies three
    levels below that root, whatever the root is. *)
Theorem content_path_has_three_relative_parts
    (file : list byte) (ext : option string) (root : Path) :
  no_slash (default "" ext) ->
  let id := compute_file_id file in
  let storage_path :=
    mkPath "" [Py.slice 0 3 id; Py.slice 3 6 id; (id ++ suffix_of ext)%string] in
  get_storage_path id ext = storage_path
  /\ Pathlib.truediv root (get_storage_path id ext)
     = mkPath (Pathlib.root root)
              (Pathlib.parts root ++ Pathlib.parts storage_path).
Proof.
  intros Hext id storage_path.
  assert (E : get_storage_path id ext = storage_path).
  { unfold get_storage_path, storage_path. cbv zeta. rewrite suffix_of_code.
    assert (Hlen : String.length id = 32)
      by (unfold id, compute_file_id, MD5.hexdigest;
          rewrite hex_length, digest_length; reflexivity).
    assert (Hhex : no_slash id) by apply hex_no_slash, hex_all_hex.
    pose proof (suffix_of_no_slash ext Hext) as Hsuf.
    clearbody id.
    destruct id as [|c1 [|c2 [|c3 [|c4 [|c5 [|c6 r]]]]]]; try discriminate Hlen.
    pose proof (no_slash_app _ _ Hhex Hsuf) as Hc.
    apply no_slash_cons in Hhex as [H1 Hhex].
    apply no_slash_cons in Hhex as [H2 Hhex].
    apply no_slash_cons in Hhex as [H3 Hhex].
    apply no_slash_cons in Hhex as [H4 Hhex].
    apply no_slash_cons in Hhex as [H5 Hhex].
    apply no_slash_cons in Hhex as [H6 Hhex].
    unfold Py.slice. cbn [String.substring Nat.sub].
    assert (S0 : forall r, substring 0 0 r = "") by (intros []; reflexivity).
    rewrite !S0.
    change (String c1 (String c2 ?x) ++ suffix_of ext)%string
      with (String c1 (String c2 (x ++ suffix_of ext)%string)) in Hc |- *.
    apply of_string_three.
    - repeat (apply no_slash_cons; split; [assumption|]). reflexivity.
    - repeat (apply no_slash_cons; split; [assumption|]). reflexivity.
    - exact Hc. }
  split; [exact E|]. rewrite E. reflexivity.
Qed.

Lemma content_path_has_three_relative_parts_witness :
  Pathlib.truediv local_root (get_storage_path (compute_file_id blob21) (Some "txt"))
  = mkPath "/" ["tmp"; "store"; "d7f"; "c24"; "d7fc24eb1ae07961aea3b35480e8eb55.txt"].
Proof.
  destruct (content_path_has_three_relative_parts blob21 (Some "txt") local_root)
    as [_ E]; [reflexivity|].
  rewrite E. vm_compute. reflexivity.
Defined.

Lemma split_join (ps : list string) :
  ps <> [] -> Forall no_slash ps -> Py.split "/" (Py.join "/" ps) = ps.
Proof.
  unfold Py.split. induction ps as [|x ps IH]; [congruence|]. intros _ H.
  apply Forall_cons in H as [Hx Hps]. destruct ps as [|y ps].
  - cbn [Py.join]. apply (split_go_plain "" x Hx).
  - change (Py.join "/" (x :: y :: ps))
      with (x ++ String "/" (Py.join "/" (y :: ps)))%string.
    rewrite (split_go_app "" x _ Hx). cbn [String.rev_app]. f_equal.
    apply IH; [discriminate | exact Hps].
Qed.

Lemma plain_parts_no_slash (ps : list string) :
  Forall plain_part ps -> Forall no_slash ps.
Proof.
  intros H. eapply Forall_impl; [exact H|]. intros x [_ Hx]. exact Hx.
Qed.

Lemma join_inj (A B : list string) :
  Forall plain_part A -> Forall plain_part B ->
  Py.join "/" A = Py.join "/" B -> A = B.
Proof.
  intros HA HB E.
  assert (Hne : forall C, Forall plain_part C -> C <> [] ->
                  Py.join "/" C <> ""%string).
  { intros C HC Hn J. 
    pose proof (split_join C Hn (plain_parts_no_slash _ HC)) as S.
    rewrite J in S. cbn in S. subst C.
    apply Forall_cons in HC as [[K _] _]. discriminate K. }
  destruct A as [|a A], B as [|b B]; [reflexivity | | |].
  - exfalso. eapply (Hne (b :: B)); [exact HB | discriminate | symmetry; exact E].
  - exfalso. eapply (Hne (a :: A)); [exact HA | discriminate | exact E].
  - rewrite <- (split_join (a :: A)), <- (split_join (b :: B)), E;
      try discriminate; auto using plain_parts_no_slash.
Qed.

Lemma as_posix_inj (r : string) (A B : list string) :
  Forall plain_part A -> Forall plain_part B ->
  Pathlib.as_posix (mkPath r A) = Pathlib.as_posix (mkPath r B) -> A = B.
Proof.
  intros HA HB E.
  assert (Hdot : forall C, Forall plain_part C -> C <> [] ->
                   Py.join "/" C <> "."%string).
  { intros C HC Hn J.
    pose proof (split_join C Hn (plain_parts_no_slash _ HC)) as S.
    rewrite J in S. cbn in S. subst C.
    apply Forall_cons in HC as [[K _] _]. discriminate K. }
  unfold Pathlib.as_posix in E. cbn [Pathlib.root Pathlib.parts] in E.
  destruct r as [|c r].
  - destruct A as [|a A], B as [|b B]; [reflexivity | | |].
    + exfalso. eapply (Hdot (b :: B)); [exact HB | discriminate | symmetry; exact E].
    + exfalso. eapply (Hdot (a :: A)); [exact HA | discriminate | exact E].
    + apply join_inj; assumption.
  - apply String.app_inj in E. apply join_inj; assumption.
Qed.

Lemma truediv_posix_inj (R p q : Path) :
  Forall plain_part (Pathlib.parts R) -> plain_relative p -> plain_relative q ->
  Pathlib.as_posix (Pathlib.truediv R p) = Pathlib.as_posix (Pathlib.truediv R q) ->
  p = q.
Proof.
  intros HR [Rp Hp] [Rq Hq] E. destruct p as [rp pp], q as [rq pq].
  cbn [Pathlib.root Pathlib.parts] in *. subst rp rq.
  unfold Pathlib.truediv in E. cbn [Pathlib.root Pathlib.parts] in E.
  apply as_posix_inj in E; [|apply Forall_app; auto..].
  apply app_inv_head in E. congruence.
Qed.

(** X2.  [get_url] of the S3, GCS and SFTP backends identifies the
    resource: on one service, two relative storage paths made of plain
    parts that get the same URL are the same path. *)
Theorem get_url_identifies_the_path (p q : Path) :
  plain_relative p -> plain_relative q ->
  (forall x : S3.t, Forall plain_part (Pathlib.parts (S3.root_path x)) ->
     S3.get_url x p = S3.get_url x q -> p = q)
  /\ (forall x : GCS.t, Forall plain_part (Pathlib.parts (GCS.root_path x)) ->
        GCS.get_url x p = GCS.get_url x q -> p = q)
  /\ (forall x : SFTP.t, Forall plain_part (Pathlib.parts (SFTP.root_path x)) ->
        SFTP.get_url x p = SFTP.get_url x q -> p = q).
Proof.
  intros Hp Hq. repeat split; intros x HR E.
  - unfold S3.get_url, S3.s3_path_of in E.
    do 4 apply String.app_inj in E. eapply truediv_posix_inj; eauto.
  - unfold GCS.get_url, GCS.gcs_path_of in E.
    do 3 apply String.app_inj in E. eapply truediv_posix_inj; eauto.
  - unfold SFTP.get_url, SFTP.remote_path_of in E.
    do 5 apply String.app_inj in E. eapply truediv_posix_inj; eauto.
Qed.

Lemma get_url_identifies_the_path_witness :
  SFTP.get_url sftp_sample (mkPath "" ["abc"; "def"; "abcdef.txt"])
  <> SFTP.get_url sftp_sample (mkPath "" ["abc"; "def"; "abcdef.png"]).
Proof.
  intros E.
  destruct (get_url_identifies_the_path
              (mkPath "" ["abc"; "def"; "abcdef.txt"])
              (mkPath "" ["abc"; "def"; "abcdef.png"])) as (_ & _ & H).
  - split; [reflexivity|]. repeat constructor.
  - split; [reflexivity|]. repeat constructor.
  - apply (H sftp_sample) in E; [discriminate E|]. vm_compute. repeat constructor.
Defined.

(** ** What [exists] and a successful upload say about the storage *)

Lemma local_exists_keeps p : keeps the_stores (Local.exists_ p).
Proof. unfold Local.exists_, Path_exists, get_disk. solve_keeps. Qed.

Lemma s3_exists_keeps p : keeps s3_fixed (S3.exists_ p).
Proof.
  unfold S3.exists_, S3.key_listed, S3.list_key, S3.get_client, S3.get_client_body.
  solve_keeps.
Qed.

Lemma gcs_exists_keeps p : keeps gcs_fixed (GCS.exists_ p).
Proof.
  unfold GCS.exists_, GCS.ensure_connection, GCS.ensure_connection_body,
    GCS.blob, GCS.blob_exists.
  solve_keeps.
Qed.

Lemma sftp_exists_keeps p : keeps sftp_fixed (SFTP.exists_ p).
Proof.
  unfold SFTP.exists_, SFTP.ensure_connection, SFTP.ensure_connection_body,
    SFTP._is_connected, SFTP.stat, SFTP.get_files.
  solve_keeps.
Qed.

(** X3.  [exists] of every backend is read-only: whatever the faults
    of the environment and whatever its outcome, what the local disk, the
    buckets and the SFTP server hold is as before. *)
Theorem exists_changes_nothing_stored (b : backend) (w : World) (p : Path) :
  the_stores (fst (exists_ p (mkSt b w))) = stores w.
Proof.
  cbn [exists_ backend_service self world].
  destruct b as [x|x|x|x]; cbn [on_variant exists_ Local_service S3_service
                                 GCS_service SFTP_service].
  - destruct (Local.exists_ p (mkSt x w)) as [s1 r1] eqn:E.
    apply local_exists_keeps in E. exact E.
  - destruct (S3.exists_ p (mkSt x w)) as [s1 r1] eqn:E.
    apply s3_exists_keeps in E as [= _ _ E2]. exact E2.
  - destruct (GCS.exists_ p (mkSt x w)) as [s1 r1] eqn:E.
    apply gcs_exists_keeps in E as [= _ _ E2]. exact E2.
  - destruct (SFTP.exists_ p (mkSt x w)) as [s1 r1] eqn:E.
    apply sftp_exists_keeps in E as [= _ E2]. exact E2.
Qed.

Lemma list_objects_v2_sound (objects : gmap (string * string) (list byte))
    (bucket prefix : string) (n : nat) (contents : list string) (key : string) :
  list_objects_v2 objects bucket prefix n = Some contents ->
  key ∈ contents -> is_Some (objects !! (bucket, key)).
Proof.
  unfold list_objects_v2. intros H Hin.
  set (keys := List.map snd _) in H.
  assert (Hk : key ∈ keys).
  { assert (Ht : key ∈ take n (merge_sort str_le keys)).
    { destruct (firstn n (merge_sort str_le keys)) eqn:E; [discriminate|].
      injection H as <-. exact Hin. }
    apply elem_of_take in Ht as (i & Hi & _).
    apply list_elem_of_lookup_2 in Hi.
    rewrite merge_sort_Permutation in Hi. exact Hi. }
  subst keys. apply list_elem_of_In, in_map_iff in Hk as ([b k] & Hs & Hf).
  cbn [snd] in Hs. subst k.
  apply filter_In in Hf as [Hm Hb]. cbn [fst snd] in Hb.
  apply andb_prop in Hb as [Hb%String.eqb_eq _]. subst b.
  apply in_map_iff in Hm as ([bk v] & Hbk & Hm). cbn [fst] in Hbk. subst bk.
  apply list_elem_of_In, elem_of_map_to_list in Hm. eauto.
Qed.

Lemma list_key_result (objects : gmap (string * string) (list byte))
    (bucket key : string) :
  match list_objects_v2 objects bucket key 1 with
  | Some contents => List.existsb (fun k => String.eqb k key) contents
  | None => false
  end = bool_decide (is_Some (objects !! (bucket, key))).
Proof.
  destruct (decide (is_Some (objects !! (bucket, key)))) as [Hs|Hn].
  - rewrite (list_objects_v2_exact _ _ _ Hs), bool_decide_eq_true_2 by exact Hs.
    cbn [List.existsb]. rewrite String.eqb_refl. reflexivity.
  - rewrite bool_decide_eq_false_2 by exact Hn.
    destruct (list_objects_v2 objects bucket key 1) as [contents|] eqn:E;
      [|reflexivity].
    apply not_true_is_false. intros Hex.
    apply existsb_exists in Hex as (k & Hin & ->%String.eqb_eq).
    apply Hn. eapply list_objects_v2_sound; [exact E|].
    apply list_elem_of_In. exact Hin.
Qed.

Lemma s3_list_key_returned p (s s' : st S3.t) found :
  S3.list_key p s = (s', Returned found) ->
  found = bool_decide (is_Some (s3_objects (the_stores s) !! (S3.bucket_name (self s), p))).
Proof.
  intros H. unfold S3.list_key in H.
  assert (K : keeps (fun s : st S3.t => (self s, the_stores s)) external_call)
    by solve_keeps.
  apply bind_Returned_inv in H as (s1 & [] & [= E1 F1]%K & H).
  apply bind_Returned_inv in H as (s2 & [] & [= E2 F2]%K & H).
  apply bind_Returned_inv in H as (s3 & bucket & [-> ->]%gets_inv & H).
  apply bind_Returned_inv in H as (s4 & objects & [-> ->]%gets_inv & [_ [= ->]]%ret_inv).
  unfold the_stores in *. rewrite E2, E1, F2, F1. apply list_key_result.
Qed.

Lemma s3_get_client_keeps : keeps s3_fixed S3.get_client.
Proof. unfold S3.get_client, S3.get_client_body. solve_keeps. Qed.

Lemma s3_exists_true p (s s' : st S3.t) :
  S3.exists_ p s = (s', Returned true) ->
  is_Some (s3_objects (the_stores s)
             !! (S3.bucket_name (self s), S3.s3_path_of (self s) p)).
Proof.
  unfold S3.exists_. intros H.
  apply bind_Returned_inv in H as (s1 & x & [-> ->]%gets_inv & H).
  apply try_else_inv in H as [(s2 & found & Hb & [-> [= <-]]%ret_inv)
                             |[(s2 & e & _ & _ & H)|(e & _ & _ & [=])]].
  2:{ apply bind_Returned_inv in H as (? & ? & _ & [_ [=]]%ret_inv). }
  unfold S3.key_listed in Hb.
  apply bind_Returned_inv in Hb as (s3 & [] & Hc & Hl).
  apply s3_get_client_keeps in Hc as [= Hbn Hrp Hst].
  apply s3_list_key_returned in Hl. symmetry in Hl.
  apply bool_decide_eq_true_1 in Hl. unfold the_stores in *.
  rewrite Hst, Hbn in Hl. exact Hl.
Qed.

Lemma gcs_exists_true p (s s' : st GCS.t) :
  GCS.exists_ p s = (s', Returned true) ->
  is_Some (gcs_objects (the_stores s)
             !! (GCS.bucket_name (self s), GCS.gcs_path_of (self s) p)).
Proof.
  unfold GCS.exists_. intros H.
  apply bind_Returned_inv in H as (s1 & [] & Hc & H).
  apply gcs_ensure_connection_keeps in Hc as [= Hbn Hrp Hst].
  apply bind_Returned_inv in H as (s2 & x & [-> ->]%gets_inv & H).
  apply bind_Returned_inv in H as (s3 & b & Hb & H).
  unfold GCS.blob in Hb.
  apply bind_Returned_inv in Hb as (s4 & x & [-> ->]%gets_inv & Hb).
  destruct (GCS.bucket (self s1)); [|discriminate].
  apply ret_inv in Hb as [-> [= ->]].
  unfold GCS.blob_exists in H.
  apply bind_Returned_inv in H as (s5 & [] & Hx & H).
  assert (K : keeps (fun s : st GCS.t => (self s, the_stores s)) external_call)
    by solve_keeps.
  apply K in Hx as [= Hx1 Hx2].
  apply bind_Returned_inv in H as (s6 & objects & [-> ->]%gets_inv & [_ [= Hd]]%ret_inv).
  symmetry in Hd. apply bool_decide_eq_true_1 in Hd.
  unfold the_stores, GCS.gcs_path_of in *. rewrite Hx2, Hst, Hbn, Hrp in Hd. exact Hd.
Qed.

Lemma sftp_exists_true p (s s' : st SFTP.t) :
  SFTP.exists_ p s = (s', Returned true) ->
  is_Some (sftp_files (the_stores s) !! SFTP.remote_path_of (self s) p).
Proof.
  unfold SFTP.exists_. intros H.
  apply bind_Returned_inv in H as (s1 & [] & Hc & H).
  apply sftp_ensure_connection_keeps in Hc as [= Hrp Hst].
  apply bind_Returned_inv in H as (s2 & x & [-> ->]%gets_inv & H).
  apply try_else_inv in H as [(s3 & n & Hb & _)
                             |[(s3 & e & _ & _ & [_ [=]]%ret_inv)|(e & _ & _ & [=])]].
  unfold SFTP.stat in Hb.
  apply bind_Returned_inv in Hb as (s4 & [] & Hx & Hb).
  assert (K : keeps (fun s : st SFTP.t => (self s, the_stores s)) external_call)
    by solve_keeps.
  apply K in Hx as [= Hx1 Hx2].
  unfold SFTP.get_files in Hb.
  apply bind_Returned_inv in Hb as (s5 & f & [-> ->]%gets_inv & Hb).
  unfold the_stores, SFTP.remote_path_of in *.
  rewrite Hx2, Hst, Hrp in Hb.
  destruct (sftp_files (stores (world s)) !! _) as [n0|]; [eauto | discriminate].
Qed.

(** X4.  [exists] of every backend never reports a path at which
    nothing is stored: when it returns [True], whatever the faults met on
    the way, the backend holds something at the path. *)
Theorem exists_true_means_stored (b : backend) (w : World) (p : Path) :
  snd (exists_ p (mkSt b w)) = Returned true -> is_Some (stored b w p).
Proof.
  cbn [exists_ backend_service self world].
  destruct b as [x|x|x|x]; cbn [on_variant exists_ Local_service S3_service
                                 GCS_service SFTP_service stored].
  - destruct (Local.exists_ p (mkSt x w)) as [s1 r1] eqn:E. cbn [snd]. intros ->.
    unfold Local.exists_, Path_exists, get_disk in E. unfold_monad.
    cbn in E. injection E as _ E.
    destruct (stat_disk _ _); [eauto | discriminate].
  - destruct (S3.exists_ p (mkSt x w)) as [s1 r1] eqn:E. cbn [snd]. intros ->.
    apply s3_exists_true in E. apply fmap_is_Some. exact E.
  - destruct (GCS.exists_ p (mkSt x w)) as [s1 r1] eqn:E. cbn [snd]. intros ->.
    apply gcs_exists_true in E. apply fmap_is_Some. exact E.
  - destruct (SFTP.exists_ p (mkSt x w)) as [s1 r1] eqn:E. cbn [snd]. intros ->.
    apply sftp_exists_true in E. exact E.
Qed.

Lemma exists_true_means_stored_witness :
  is_Some (stored (self s3_after_upload) (world s3_after_upload)
             (get_storage_path (compute_file_id blob21) (Some "txt"))).
Proof.
  apply (exists_true_means_stored (self s3_after_upload) (world s3_after_upload)).
  vm_compute. reflexivity.
Defined.

Lemma external_call_quiet {T} (s : st T) :
  the_faults s = [] -> external_call s = (s, Returned tt).
Proof. intros H. pose proof (external_call_cases s) as E. rewrite H in E. exact E. Qed.

(** X5.  Where no library call fails, [exists] of a backend that its
    constructor accepts returns exactly whether the backend holds
    something at the path; on S3 the key must be the path itself, a longer
    key that starts with it does not count. *)
Theorem exists_reflects_storage (b : backend) (w : World) (p : Path) :
  constructed b -> faults (env w) = [] ->
  snd (exists_ p (mkSt b w)) = Returned (bool_decide (is_Some (stored b w p))).
Proof.
  intros Hc Hf. destruct w as [[fs lg sl] sto d]. cbn in Hf. subst fs.
  cbn [exists_ backend_service self world].
  destruct b as [x|x|x|x]; cbn [on_variant exists_ Local_service S3_service
                                 GCS_service SFTP_service stored stores].
  - unfold Local.exists_, Path_exists, get_disk. unfold_monad. cbn.
    destruct (stat_disk _ _); reflexivity.
  - destruct x as [bn ak sk eu rp [|]]; cbn.
    + rewrite list_key_result.
      apply f_equal, bool_decide_ext. symmetry. apply fmap_is_Some.
    + rewrite list_key_result.
      apply f_equal, bool_decide_ext. symmetry. apply fmap_is_Some.
  - destruct Hc as [Hb _]. destruct x as [bn pi rp [|] [|]]; cbn in Hb |- *;
      (destruct bn as [|c bn]; [congruence|]); cbn;
      apply f_equal, bool_decide_ext; symmetry; apply fmap_is_Some.
  - unfold SFTP.exists_, SFTP.stat, SFTP.get_files, try_else.
    destruct x as [h po u pw rp [|]]; cbn;
      destruct (sftp_files sto !! _); reflexivity.
Qed.

Lemma exists_reflects_storage_witness :
  snd (exists_ (mkPath "" ["d7f"; "c24"; "d7fc24eb1ae07961aea3b35480e8eb55"])
         s3_after_upload)
  = Returned false.
Proof.
  pose proof (exists_reflects_storage
                (self s3_after_upload) (world s3_after_upload)
                (mkPath "" ["d7f"; "c24"; "d7fc24eb1ae07961aea3b35480e8eb55"])) as H.
  etransitivity; [apply H|].
  - vm_compute. repeat split; discriminate.
  - vm_compute. reflexivity.
  - vm_compute. reflexivity.
Defined.

Lemma local_upload_true_content id file ext (s s' : st Local.t) :
  Local.upload_file_with_id id file ext s = (s', Returned true) ->
  stat_disk (disk (the_stores s'))
    (Pathlib.truediv (Local.root_path (self s')) (get_storage_path id ext))
  = Some (File file).
Proof.
  intros H0. pose proof (local_upload_keeps_self _ _ _ _ _ _ H0) as Hself.
  cbn beta in Hself. rewrite Hself. revert H0.
  unfold Local.upload_file_with_id. intros H.
  apply bind_Returned_inv in H as (s1 & root & [-> ->]%gets_inv & H).
  set (p := Pathlib.truediv (Local.root_path (self s)) (get_storage_path id ext)) in *.
  apply bind_Returned_inv in H as (s2 & [] & _ & H).
  apply bind_Returned_inv in H as (s3 & found & Hex & H).
  destruct found.
  { apply bind_Returned_inv in H as (? & ? & _ & [_ [=]]%ret_inv). }
  assert (Hparts : Pathlib.parts p <> []).
  { unfold Path_exists, get_disk in Hex.
    apply bind_Returned_inv in Hex as (s4 & d & [-> ->]%gets_inv & [_ [= Hd]]%ret_inv).
    unfold stat_disk in Hd. intros E. rewrite E in Hd. discriminate. }
  apply try_else_inv in H as [(s4 & [] & Hbody & H)|[(s4 & e & _ & _ & H)|(e & _ & _ & [=])]].
  2:{ apply bind_Returned_inv in H as (? & ? & _ & [_ [=]]%ret_inv). }
  apply bind_Returned_inv in H as (s5 & [] & [-> _]%logger_inv & [-> _]%ret_inv).
  apply bind_Returned_inv in Hbody as (s6 & [] & _ & Hw).
  unfold file_write in Hw.
  apply bind_Returned_inv in Hw as (s7 & [] & _ & Hw).
  apply bind_Returned_inv in Hw as (s8 & d & [-> ->]%gets_inv & [= <-]).
  unfold the_stores, stat_disk. cbn [world stores with_env with_stores set_disk disk].
  destruct (Pathlib.parts p); [congruence|]. apply lookup_insert_eq.
Qed.

Lemma s3_upload_true_content id file ext (s s' : st S3.t) :
  S3.upload_file_with_id id file ext s = (s', Returned true) ->
  s3_objects (the_stores s')
    !! (S3.bucket_name (self s'), S3.s3_path_of (self s') (get_storage_path id ext))
  = Some file.
Proof.
  unfold S3.upload_file_with_id. intros H.
  apply bind_Returned_inv in H as (s1 & x & [-> ->]%gets_inv & H).
  apply try_else_inv in H as [(s2 & r & Hb & [-> [= <-]]%ret_inv)
                             |[(s2 & e & _ & _ & H)|(e & _ & _ & [=])]].
  2:{ apply bind_Returned_inv in H as (? & ? & _ & [_ [=]]%ret_inv). }
  apply bind_Returned_inv in Hb as (s3 & found & Hk & Hb).
  apply s3_key_listed_keeps in Hk as [= Hbn Hrp _].
  destruct found.
  { apply bind_Returned_inv in Hb as (? & ? & _ & [_ [=]]%ret_inv). }
  apply bind_Returned_inv in Hb as (s4 & [] & Hput & Hb).
  apply bind_Returned_inv in Hb as (s5 & [] & [-> _]%logger_inv & [-> _]%ret_inv).
  unfold S3.put_object in Hput.
  apply bind_Returned_inv in Hput as (s6 & [] & Hx & Hput).
  assert (K : keeps (fun s : st S3.t => self s) external_call) by solve_keeps.
  apply K in Hx.
  apply bind_Returned_inv in Hput as (s7 & bucket & [-> ->]%gets_inv & Hput).
  apply bind_Returned_inv in Hput as (s8 & objects & [-> ->]%gets_inv & [-> _]%modify_inv).
  unfold the_stores, S3.s3_path_of.
  cbn [self world stores with_env with_stores set_s3_objects s3_objects].
  rewrite Hx, Hbn, Hrp. apply lookup_insert_eq.
Qed.

Lemma gcs_upload_true_content id file ext (s s' : st GCS.t) :
  GCS.upload_file_with_id id file ext s = (s', Returned true) ->
  gcs_objects (the_stores s')
    !! (GCS.bucket_name (self s'), GCS.gcs_path_of (self s') (get_storage_path id ext))
  = Some file.
Proof.
  unfold GCS.upload_file_with_id. intros H.
  apply bind_Returned_inv in H as (s0 & [] & _ & H).
  apply bind_Returned_inv in H as (s1 & x & [-> ->]%gets_inv & H).
  apply try_else_inv in H as [(s2 & early & Hb & H)
                             |[(s2 & e & _ & _ & H)|(e & _ & _ & [=])]].
  2:{ apply bind_Returned_inv in H as (? & ? & _ & [_ [=]]%ret_inv). }
  apply bind_Returned_inv in Hb as (s3 & b & Hblob & Hb).
  unfold GCS.blob in Hblob.
  apply bind_Returned_inv in Hblob as (s4 & x & [-> ->]%gets_inv & Hblob).
  destruct (GCS.bucket (self s0)); [|discriminate].
  apply ret_inv in Hblob as [-> [= ->]].
  apply bind_Returned_inv in Hb as (s5 & found & Hex & Hb).
  assert (K : keeps (fun s : st GCS.t => self s) external_call) by solve_keeps.
  assert (Hk5 : self s5 = self s0).
  { unfold GCS.blob_exists in Hex.
    apply bind_Returned_inv in Hex as (s6 & [] & Hx%K & Hex).
    apply bind_Returned_inv in Hex as (s7 & o & [-> ->]%gets_inv & [-> _]%ret_inv).
    exact Hx. }
  destruct found.
  { apply bind_Returned_inv in Hb as (s6 & [] & _ & [-> [= ->]]%ret_inv).
    apply ret_inv in H as [_ [=]]. }
  apply bind_Returned_inv in Hb as (s6 & [] & Hup & [-> [= ->]]%ret_inv).
  apply bind_Returned_inv in H as (s7 & [] & [-> _]%logger_inv & [-> _]%ret_inv).
  unfold GCS.upload_from_string in Hup.
  apply bind_Returned_inv in Hup as (s8 & [] & Hx%K & Hup).
  apply bind_Returned_inv in Hup as (s9 & objects & [-> ->]%gets_inv & [-> _]%modify_inv).
  unfold the_stores, GCS.gcs_path_of.
  cbn [self world stores with_env with_stores set_gcs_objects gcs_objects].
  rewrite Hx, Hk5. apply lookup_insert_eq.
Qed.

(** X6.  When [upload_file_with_id] of a backend returns [True], the
    backend holds the uploaded bytes, unchanged, at the storage path of
    the identifier and extension. *)
Theorem upload_true_stores_the_content (b : backend) (w : World)
    (id : string) (file : list byte) (ext : option string) :
  let after := upload_file_with_id id file ext (mkSt b w) in
  snd after = Returned true ->
  stored (self (fst after)) (world (fst after)) (get_storage_path id ext)
  = Some (File file).
Proof.
  cbn [upload_file_with_id backend_service self world]. cbv zeta.
  destruct b as [x|x|x|x]; cbn [on_variant upload_file_with_id Local_service
                                 S3_service GCS_service SFTP_service].
  - destruct (Local.upload_file_with_id id file ext (mkSt x w)) as [s1 r1] eqn:E.
    cbn [snd fst self world stored]. intros ->.
    apply local_upload_true_content in E. exact E.
  - destruct (S3.upload_file_with_id id file ext (mkSt x w)) as [s1 r1] eqn:E.
    cbn [snd fst self world stored]. intros ->.
    apply s3_upload_true_content in E. unfold the_stores in E. rewrite E. reflexivity.
  - destruct (GCS.upload_file_with_id id file ext (mkSt x w)) as [s1 r1] eqn:E.
    cbn [snd fst self world stored]. intros ->.
    apply gcs_upload_true_content in E. unfold the_stores in E. rewrite E. reflexivity.
  - destruct (SFTP.upload_file_with_id id file ext (mkSt x w)) as [s1 r1] eqn:E.
    cbn [snd fst self world stored]. intros ->.
    apply sftp_upload_never_writes in E as [_ E]. congruence.
Qed.

Lemma upload_true_stores_the_content_witness :
  stored (self s3_after_upload) (world s3_after_upload)
    (get_storage_path (compute_file_id blob21) (Some "txt"))
  = Some (File blob21).
Proof.
  apply (upload_true_stores_the_content (S3Bucket s3_sample) empty_world
           (compute_file_id blob21) blob21 (Some "txt")).
  vm_compute. reflexivity.
Defined.

(** ** Sleeping and the shape of the local disk *)

Section BacksOff.
Context {T : Type}.






End BacksOff.






(** X8.  On a disk where every entry lies in a directory, a local
    upload leaves a disk where every entry lies in a directory, whether it
    succeeds, fails or raises. *)
Theorem local_upload_keeps_disk_well_formed (s : st Local.t)
    (id : string) (file : list byte) (ext : option string) :
  disk_wf s -> disk_wf (fst (Local.upload_file_with_id id file ext s)).
Proof.
  intros H. destruct (Local.upload_file_with_id id file ext s) as [s' r] eqn:E.
  exact (local_upload_preserves_wf id file ext s s' r H E).
Qed.

Lemma local_upload_keeps_disk_well_formed_witness : disk_wf local_after_upload.
Proof.
  apply (local_upload_keeps_disk_well_formed local_empty
           (compute_file_id blob21) blob21 (Some "txt")).
  apply wf_disk_decide. vm_compute. reflexivity.
Defined.

(** ** The constructor of the database service and its engine *)

Lemma span_proto_app (u : string) :
  (fst (DB.span_proto u) ++ snd (DB.span_proto u))%string = u.
Proof.
  induction u as [|c u IH]; [reflexivity|].
  cbn [DB.span_proto]. destruct (DB.proto_char c); [|reflexivity].
  destruct (DB.span_proto u) as [a b]. cbn [fst snd] in *. subst u. reflexivity.
Qed.

Lemma match_protocol_app (u proto rest : string) :
  DB.match_protocol u = Some (proto, rest) -> u = (proto ++ "://" ++ rest)%string.
Proof.
  unfold DB.match_protocol. pose proof (span_proto_app u) as E.
  destruct (DB.span_proto u) as [a b]. cbn [fst snd] in E.
  destruct a as [|c a]; [discriminate|].
  destruct b as [|c1 b]; [discriminate|].
  destruct (ascii_dec c1 ":") as [->|N].
  2:{ destruct c1 as [[] [] [] [] [] [] [] []]; try discriminate; congruence. }
  destruct b as [|c2 b]; [discriminate|].
  destruct (ascii_dec c2 "/") as [->|N].
  2:{ destruct c2 as [[] [] [] [] [] [] [] []]; try discriminate; congruence. }
  destruct b as [|c3 b]; [discriminate|].
  destruct (ascii_dec c3 "/") as [->|N].
  2:{ destruct c3 as [[] [] [] [] [] [] [] []]; try discriminate; congruence. }
  intros [= <- <-]. symmetry. exact E.
Qed.

(** X9.  The constructor of the database service accepts exactly the
    URLs that start with a protocol: any other URL, the empty one
    included, raises [ValueError].  An accepted URL whose protocol
    contains [postgre] has its protocol replaced by [postgresql+asyncpg]
    and everything after [://] kept; any other protocol is accepted with
    a warning and the URL is kept as it is. *)
Theorem init_requires_protocol_and_keeps_the_rest (c : DB.config) (s0 : st DB.t) :
  let u := default "" (DB.cfg_url c) in
  match DB.match_protocol u with
  | Some (proto, rest) =>
      u = (proto ++ "://" ++ rest)%string
      /\ exists s1,
           DB.__init__ c s0 = (s1, Returned tt)
           /\ DB.url (self s1)
              = (if Py.contains "postgre" proto
                 then ("postgresql+asyncpg://" ++ rest)%string else u)
           /\ the_log s1
              = the_log s0
                ++ (if Py.contains "postgre" proto then []
                    else [(WARNING,
                           "Unsupported DB protocol for SQLAlchemy async engine")])
  | None =>
      exists s1 m, DB.__init__ c s0 = (s1, Raised (Exn.mk Exn.ValueError m))
  end.
Proof.
  intros u. destruct (DB.match_protocol u) as [[proto rest]|] eqn:E.
  - split; [apply match_protocol_app; exact E|].
    assert (Hu : Py.truthy_str (Some u) = true).
    { revert E. generalize u. intros [|? ?] H; [vm_compute in H; discriminate | reflexivity]. }
    unfold DB.__init__. fold u. cbv zeta.
    unfold bind at 1. cbn [modify_self modify].
    rewrite Hu. cbn [negb]. rewrite E.
    destruct (Py.contains "postgre" proto).
    + eexists. split; [reflexivity|]. cbn. split; [reflexivity|].
      unfold the_log. cbn. rewrite app_nil_r. reflexivity.
    + eexists. split; [reflexivity|]. cbn. split; [reflexivity|]. reflexivity.
  - unfold DB.__init__. fold u. cbv zeta.
    unfold bind at 1. cbn [modify_self modify].
    destruct (negb (Py.truthy_str (Some u))).
    + eexists _, _. reflexivity.
    + rewrite E. eexists _, _. reflexivity.
Qed.

Lemma init_returned (c : DB.config) (s0 s1 : st DB.t) :
  DB.__init__ c s0 = (s1, Returned tt) ->
  exists proto rest,
    DB.match_protocol (default "" (DB.cfg_url c)) = Some (proto, rest)
    /\ self s1
       = DB.mk (if Py.contains "postgre" proto
                then ("postgresql+asyncpg://" ++ rest)%string
                else default "" (DB.cfg_url c))
               (DB.set_default "pool_recycle" (DB.VInt 900)
                  (DB.set_default "pool_pre_ping" (DB.VBool true)
                     (DB.set_default "max_overflow" (DB.VInt 0)
                        (DB.set_default "pool_size" (DB.VInt 5)
                           (default ∅ (DB.cfg_engine_args c))))))
               (<["prepared_statement_cache_size" := DB.VInt 0]>
                  (<["statement_cache_size" := DB.VInt 0]>
                     (<["prepared_statement_name_func" := DB.VFunc "_get_prepared_stmt_name"]>
                        (default ∅ (DB.cfg_connect_args c)))))
               None false (DB.cfg_cloud_sql_name c).
Proof.
  unfold DB.__init__. cbv zeta. unfold bind at 1. cbn [modify_self modify].
  destruct (negb (Py.truthy_str (Some (default "" (DB.cfg_url c))))); [discriminate|].
  destruct (DB.match_protocol (default "" (DB.cfg_url c))) as [[proto rest]|];
    [|discriminate].
  intros H. exists proto, rest. split; [reflexivity|].
  destruct (Py.contains "postgre" proto); injection H as <-; reflexivity.
Qed.

Lemma set_default_id (key : string) (v : DB.value) (m : gmap string DB.value) :
  is_Some (m !! key) -> DB.set_default key v m = m.
Proof. intros [x E]. unfold DB.set_default. rewrite E. reflexivity. Qed.

Lemma set_default_is_Some (key k : string) (v : DB.value) (m : gmap string DB.value) :
  k = key \/ is_Some (m !! k) -> is_Some (DB.set_default key v m !! k).
Proof.
  rewrite set_default_lookup. destruct (decide (k = key)); [eauto|].
  intros [?|?]; [contradiction | assumption].
Qed.

Ltac has_default :=
  repeat (apply set_default_is_Some; first [left; reflexivity | right]); eauto.

(** X10.  The constructor normalises: constructing a service from the
    URL, engine arguments and connect arguments of a constructed service
    succeeds and gives the same URL and arguments. *)
Theorem init_of_constructed_service_is_identity
    (c : DB.config) (s0 s1 s0' : st DB.t) :
  DB.__init__ c s0 = (s1, Returned tt) ->
  exists s2,
    DB.__init__
      (DB.mkConfig (Some (DB.url (self s1))) (Some (DB.engine_args (self s1)))
                   (Some (DB.connect_args (self s1))) (DB.cloud_sql_name (self s1)))
      s0'
    = (s2, Returned tt)
    /\ self s2 = self s1.
Proof.
  intros H. apply init_returned in H as (proto & rest & E & ->).
  cbn [DB.url DB.engine_args DB.connect_args DB.cloud_sql_name].
  set (u1 := if Py.contains "postgre" proto then _ else _).
  assert (Hm : exists proto1 rest1,
             DB.match_protocol u1 = Some (proto1, rest1)
             /\ (if Py.contains "postgre" proto1
                 then ("postgresql+asyncpg://" ++ rest1)%string else u1) = u1).
  { subst u1. destruct (Py.contains "postgre" proto) eqn:C.
    - exists "postgresql+asyncpg", rest. split; reflexivity.
    - exists proto, rest. rewrite C. split; [exact E | reflexivity]. }
  destruct Hm as (proto1 & rest1 & E1 & Hu).
  assert (Ht : Py.truthy_str (Some u1) = true).
  { revert E1. generalize u1.
    intros [|? ?] H; [vm_compute in H; discriminate | reflexivity]. }
  unfold DB.__init__. cbv zeta.
  cbn [DB.cfg_url DB.cfg_engine_args DB.cfg_connect_args DB.cfg_cloud_sql_name from_option id].
  unfold bind at 1. cbn [modify_self modify].
  rewrite Ht. cbn [negb]. rewrite E1.
  assert (Hself :
    DB.mk (if Py.contains "postgre" proto1
           then ("postgresql+asyncpg://" ++ rest1)%string else u1)
          (DB.set_default "pool_recycle" (DB.VInt 900)
             (DB.set_default "pool_pre_ping" (DB.VBool true)
                (DB.set_default "max_overflow" (DB.VInt 0)
                   (DB.set_default "pool_size" (DB.VInt 5)
                      (DB.set_default "pool_recycle" (DB.VInt 900)
                         (DB.set_default "pool_pre_ping" (DB.VBool true)
                            (DB.set_default "max_overflow" (DB.VInt 0)
                               (DB.set_default "pool_size" (DB.VInt 5)
                                  (default ∅ (DB.cfg_engine_args c))))))))))
          (<["prepared_statement_cache_size" := DB.VInt 0]>
             (<["statement_cache_size" := DB.VInt 0]>
                (<["prepared_statement_name_func" := DB.VFunc "_get_prepared_stmt_name"]>
                   (<["prepared_statement_cache_size" := DB.VInt 0]>
                      (<["statement_cache_size" := DB.VInt 0]>
                         (<["prepared_statement_name_func" := DB.VFunc "_get_prepared_stmt_name"]>
                            (default ∅ (DB.cfg_connect_args c))))))))
          None false (DB.cfg_cloud_sql_name c)
    = DB.mk u1
          (DB.set_default "pool_recycle" (DB.VInt 900)
             (DB.set_default "pool_pre_ping" (DB.VBool true)
                (DB.set_default "max_overflow" (DB.VInt 0)
                   (DB.set_default "pool_size" (DB.VInt 5)
                      (default ∅ (DB.cfg_engine_args c))))))
          (<["prepared_statement_cache_size" := DB.VInt 0]>
             (<["statement_cache_size" := DB.VInt 0]>
                (<["prepared_statement_name_func" := DB.VFunc "_get_prepared_stmt_name"]>
                   (default ∅ (DB.cfg_connect_args c)))))
          None false (DB.cfg_cloud_sql_name c)).
  { rewrite Hu. f_equal.
    - rewrite (set_default_id "pool_size"); [|has_default].
      rewrite (set_default_id "max_overflow"); [|has_default].
      rewrite (set_default_id "pool_pre_ping"); [|has_default].
      rewrite (set_default_id "pool_recycle"); [|has_default].
      reflexivity.
    - apply map_eq. intros k.
      destruct (decide (k = "prepared_statement_cache_size")) as [->|N1];
        [rewrite !lookup_insert_eq; reflexivity|].
      rewrite !(lookup_insert_ne _ "prepared_statement_cache_size") by congruence.
      destruct (decide (k = "statement_cache_size")) as [->|N2];
        [rewrite !lookup_insert_eq; reflexivity|].
      rewrite !(lookup_insert_ne _ "statement_cache_size") by congruence.
      destruct (decide (k = "prepared_statement_name_func")) as [->|N3];
        [rewrite !lookup_insert_eq; reflexivity|].
      rewrite !(lookup_insert_ne _ "prepared_statement_name_func") by congruence.
      repeat (rewrite lookup_insert_ne by congruence). reflexivity. }
  destruct (Py.contains "postgre" proto1);
    (eexists; split; [reflexivity|]); cbn [self modify_self modify logger modify_world];
    cbn; exact Hself.
Qed.

Lemma init_of_constructed_service_is_identity_witness :
  exists s2,
    DB.__init__
      (DB.mkConfig (Some (DB.url db_sample)) (Some (DB.engine_args db_sample))
                   (Some (DB.connect_args db_sample)) (DB.cloud_sql_name db_sample))
      (mkSt DB.fresh empty_world)
    = (s2, Returned tt)
    /\ self s2 = db_sample.
Proof.
  apply (init_of_constructed_service_is_identity
           (DB.mkConfig (Some "postgresql://user@host/db") None None None)
           (mkSt DB.fresh empty_world)
           (fst (DB.__init__
                   (DB.mkConfig (Some "postgresql://user@host/db") None None None)
                   (mkSt DB.fresh empty_world)))
           (mkSt DB.fresh empty_world)).
  vm_compute. reflexivity.
Defined.

(** X11.  Whatever connect arguments the configuration gives, the
    engine that [connect] builds for a constructed service gets the URL of
    the service and the connect arguments with both statement caches set
    to 0 and the statement naming function set; every other connect
    argument is passed as configured. *)
Theorem engine_gets_pgbouncer_connect_args
    (c : DB.config) (s0 s1 : st DB.t) (w : World) (s2 : st DB.t) :
  DB.__init__ c s0 = (s1, Returned tt) ->
  DB.ctx_get w = None ->
  DB.connect (mkSt (self s1) w) = (s2, Returned tt) ->
  exists e,
    DB.engine (self s2) = Some e
    /\ DB.engine_url e = DB.url (self s1)
    /\ DB.engine_connect_args e !! "statement_cache_size" = Some (DB.VInt 0)
    /\ DB.engine_connect_args e !! "prepared_statement_cache_size" = Some (DB.VInt 0)
    /\ DB.engine_connect_args e !! "prepared_statement_name_func"
       = Some (DB.VFunc "_get_prepared_stmt_name")
    /\ (forall k,
          k <> "statement_cache_size" -> k <> "prepared_statement_cache_size" ->
          k <> "prepared_statement_name_func" ->
          DB.engine_connect_args e !! k = default ∅ (DB.cfg_connect_args c) !! k).
Proof.
  intros Hi Hn Hc. apply init_returned in Hi as (proto & rest & _ & Hx).
  apply connect_fresh in Hc as (Hs & _); [|exact Hn].
  cbn [self] in Hs. rewrite Hx in Hs.
  unfold engine_ready in Hs. cbn [DB.engine DB.session_maker] in Hs.
  rewrite bool_decide_eq_true_2 in Hs by reflexivity. cbn [orb negb] in Hs.
  rewrite Hs, Hx. unfold built, with_async_creator, DB._get_async_creator_func.
  cbn [DB.cloud_sql_name].
  destruct (DB.cfg_cloud_sql_name c);
    cbn [DB.set_session_maker DB.set_engine DB.set_engine_args DB.engine DB.url
         DB.connect_args DB.engine_args];
    (eexists; split; [reflexivity|]);
    cbn [DB.engine_url DB.engine_connect_args];
    (split; [reflexivity|]);
    (split; [rewrite lookup_insert_ne by discriminate; apply lookup_insert_eq|]);
    (split; [apply lookup_insert_eq|]);
    (split; [rewrite !lookup_insert_ne by discriminate; apply lookup_insert_eq|]);
    intros k N1 N2 N3; rewrite !lookup_insert_ne by congruence; reflexivity.
Qed.

Lemma engine_gets_pgbouncer_connect_args_witness :
  let s1 := fst (DB.__init__ caching_config (mkSt DB.fresh empty_world)) in
  let s2 := fst (DB.connect (mkSt (self s1) (db_world []))) in
  exists e,
    DB.engine (self s2) = Some e
    /\ DB.engine_connect_args e !! "statement_cache_size" = Some (DB.VInt 0).
Proof.
  intros s1 s2.
  destruct (engine_gets_pgbouncer_connect_args
              caching_config (mkSt DB.fresh empty_world) s1 (db_world []) s2)
    as (e & He & _ & Hc & _);
    [vm_compute; reflexivity | vm_compute; reflexivity | vm_compute; reflexivity |].
  exists e. split; [exact He | exact Hc].
Defined.

(** ** Disconnecting, replaying and the session of an operation *)



Lemma session_call_through (q : stmt) (s : st DB.t) sid fs :
  DB.ctx_get (world s) = Some sid ->
  the_faults s = None :: fs ->
  DB.session_call q s
  = (mkSt (self s) (with_db (DB.issue sid q) (with_env (set_faults fs) (world s))),
     Returned sid).
Proof.
  intros Hs Hf. unfold DB.session_call, DB.get_session.
  unfold bind at 1. cbn [gets]. rewrite Hs.
  unfold external_call. unfold bind at 1. unfold bind at 1. cbn [gets].
  unfold the_faults in Hf. rewrite Hf. reflexivity.
Qed.

Lemma session_call_fault (q : stmt) (s : st DB.t) sid e fs :
  DB.ctx_get (world s) = Some sid ->
  the_faults s = Some e :: fs ->
  DB.session_call q s
  = (mkSt (self s) (with_env (set_faults fs) (world s)), Raised e).
Proof.
  intros Hs Hf. unfold DB.session_call, DB.get_session.
  unfold bind at 1. cbn [gets]. rewrite Hs.
  unfold external_call. unfold bind at 1. unfold bind at 1. cbn [gets].
  unfold the_faults in Hf. rewrite Hf. reflexivity.
Qed.

(** X13.  A retried [execute] replays the whole operation: when the
    statement goes through and the commit that follows fails by a
    connection error, the statement is sent a second time, after a wait of
    one second, and committed, all in the same session. *)
Theorem execute_replays_statement_when_commit_fails
    (s : st DB.t) (sid : nat) (sql : string)
    (params : option (gmap string DB.value)) (e : exn) (fs : list (option exn)) :
  DB.ctx_get (world s) = Some sid ->
  Exn.isinstance e [Exn.OperationalError; Exn.OSError] = true ->
  the_faults s = None :: Some e :: None :: None :: fs ->
  exists s',
    DB.execute (DB.QStr sql) params true s = (s', Returned (DB.mkResult sid sql))
    /\ issued (the_db s')
       = (sid, SCommit) :: (sid, SExecute sql) :: (sid, SExecute sql)
         :: issued (the_db s)
    /\ the_slept s' = the_slept s ++ [1%Z]
    /\ the_faults s' = fs.
Proof.
  intros Hs He Hf.
  assert (Hbody1 : forall s0 : st DB.t,
            DB.ctx_get (world s0) = Some sid ->
            the_faults s0 = None :: Some e :: None :: None :: fs ->
            DB.execute_body (DB.QStr sql) params true s0
            = (mkSt (self s0)
                 (with_env (set_faults (None :: None :: fs))
                    (with_db (DB.issue sid (SExecute sql))
                       (with_env (set_faults (Some e :: None :: None :: fs)) (world s0)))),
               Raised e)).
  { intros s0 H0 F0. unfold DB.execute_body.
    rewrite (bind_eq _ _ _ _ _ (connect_connected s0 ltac:(rewrite H0; eauto))).
    rewrite bind_assoc.
    rewrite (bind_eq _ _ _ _ _ (session_call_through _ s0 sid _ H0 F0)).
    unfold bind at 1. cbn [ret].
    rewrite bind_assoc.
    rewrite (bind_raised _ _ _ _ _
               (session_call_fault SCommit
                  (mkSt (self s0)
                     (with_db (DB.issue sid (SExecute sql))
                        (with_env (set_faults (Some e :: None :: None :: fs)) (world s0))))
                  sid e (None :: None :: fs) H0 eq_refl)).
    reflexivity. }
  assert (Hbody2 : forall s0 : st DB.t,
            DB.ctx_get (world s0) = Some sid ->
            the_faults s0 = None :: None :: fs ->
            DB.execute_body (DB.QStr sql) params true s0
            = (mkSt (self s0)
                 (with_db (DB.issue sid SCommit)
                    (with_env (set_faults fs)
                       (with_db (DB.issue sid (SExecute sql))
                          (with_env (set_faults (None :: fs)) (world s0))))),
               Returned (DB.mkResult sid sql))).
  { intros s0 H0 F0. unfold DB.execute_body.
    rewrite (bind_eq _ _ _ _ _ (connect_connected s0 ltac:(rewrite H0; eauto))).
    rewrite bind_assoc.
    rewrite (bind_eq _ _ _ _ _ (session_call_through _ s0 sid _ H0 F0)).
    unfold bind at 1. cbn [ret].
    rewrite bind_assoc.
    rewrite (bind_eq _ _ _ _ _
               (session_call_through SCommit
                  (mkSt (self s0)
                     (with_db (DB.issue sid (SExecute sql))
                        (with_env (set_faults (None :: fs)) (world s0))))
                  sid fs H0 eq_refl)).
    reflexivity. }
  assert (Hretry : forall s0 : st DB.t,
            DB._should_retry_on_exception e s0 = (s0, Returned true)).
  { intros s0. unfold DB._should_retry_on_exception. rewrite He. reflexivity. }
  unfold DB.execute, DB.retry_on_db_errors, Tenacity.retry.
  change (Tenacity.stop_after_attempt DB.db_policy - 1) with 4.
  cbn [Tenacity.attempts]. rewrite (Hbody1 s Hs Hf).
  rewrite (bind_eq _ _ _ _ _ (Hretry _)).
  unfold bind at 1. cbn [sleep modify_world modify].
  cbn [Tenacity.attempts]. rewrite Hbody2.
  - eexists. split; [reflexivity|].
    unfold the_db, the_slept, the_faults. cbn. auto.
  - exact Hs.
  - reflexivity.
Qed.

Lemma execute_replays_statement_when_commit_fails_witness :
  let s := fst (DB.connect (mkSt db_sample (db_world []))) in
  let s0 := mkSt (self s)
              (with_env (set_faults [None; Some reset; None; None]) (world s)) in
  issued (the_db (fst (DB.execute (DB.QStr "INSERT INTO t VALUES (1)") None true s0)))
  = [(0, SCommit); (0, SExecute "INSERT INTO t VALUES (1)");
     (0, SExecute "INSERT INTO t VALUES (1)")].
Proof.
  intros s s0.
  destruct (execute_replays_statement_when_commit_fails
              s0 0 "INSERT INTO t VALUES (1)" None reset [])
    as (s' & E & I & _);
    [vm_compute; reflexivity | vm_compute; reflexivity | vm_compute; reflexivity |].
  rewrite E. exact I.
Defined.

Lemma session_call_returned (q : stmt) (s s' : st DB.t) sid :
  DB.session_call q s = (s', Returned sid) -> DB.ctx_get (world s') = Some sid.
Proof.
  unfold DB.session_call, DB.get_session. intros H.
  apply bind_Returned_inv in H as (s1 & session & [-> ->]%gets_inv & H).
  destruct (DB.ctx_get (world s)) as [sid0|] eqn:Hs; [|discriminate].
  apply bind_Returned_inv in H as (s2 & [] & H2 & H).
  assert (K : keeps (fun s : st DB.t => DB.ctx_get (world s)) external_call).
  { apply (keeps_weaken (fun s : st DB.t => (self s, stores (world s), db (world s)))
             (fun x => _session_ctx x.2 !! task x.2)). solve_keeps. }
  apply K in H2.
  apply bind_Returned_inv in H as (s3 & [] & [-> _]%modify_inv & [-> [= <-]]%ret_inv).
  rewrite <- Hs, <- H2. reflexivity.
Qed.

Lemma simple_body_returned (q : stmt) (s s' : st DB.t) :
  (DB.connect ;; DB.session_call q ;; ret tt) s = (s', Returned tt) ->
  exists sid, DB.ctx_get (world s') = Some sid.
Proof.
  intros H.
  apply bind_Returned_inv in H as (s1 & [] & _ & H).
  apply bind_Returned_inv in H as (s2 & sid & H2%session_call_returned
                                   & [-> _]%ret_inv).
  eauto.
Qed.

(** X14.  An operation that returns leaves the session of the task
    open: the task is still connected, and the result of [execute] comes
    from that session. *)
Theorem returned_operation_leaves_session_open
    (op : DB.operation) (s s' : st DB.t) (v : option DB.Result) :
  DB.call op s = (s', Returned v) ->
  (exists sid, DB.ctx_get (world s') = Some sid
               /\ forall sid' q, v = Some (DB.mkResult sid' q) -> sid' = sid)
  /\ DB.is_connected s' = (s', Returned true).
Proof.
  intros H. rewrite call_retries_body in H.
  unfold DB.retry_on_db_errors, Tenacity.retry in H.
  apply attempts_returned in H as (s0 & H).
  assert (Hsid : exists sid, DB.ctx_get (world s') = Some sid
               /\ forall sid' q, v = Some (DB.mkResult sid' q) -> sid' = sid).
  { destruct op as [q params ac| | | | | | ]; cbn [DB.body] in H;
      unfold DB.forget, DB.add_body, DB.add_all_body,
        DB.delete_body, DB.commit_body, DB.rollback_body, DB.refresh_body in H.
    2-7: apply bind_Returned_inv in H as (s1 & [] & (sid & Hc)%simple_body_returned
                                          & [-> [= ->]]%ret_inv);
         exists sid; split; [exact Hc | discriminate].
    unfold DB.execute_body in H.
    apply bind_Returned_inv in H as (s1 & r & H & [-> [= ->]]%ret_inv).
    apply bind_Returned_inv in H as (s2 & [] & _ & H).
    apply bind_Returned_inv in H as (s3 & r3 & H3 & H).
    apply bind_Returned_inv in H as (s4 & [] & H4 & [-> [= ->]]%ret_inv).
    assert (exists sid qs, DB.ctx_get (world s3) = Some sid /\ r3 = DB.mkResult sid qs)
      as (sid & qs & Hc & ->).
    { destruct q; [| |discriminate];
        apply bind_Returned_inv in H3 as (s5 & sid & H5%session_call_returned
                                          & [-> [= ->]]%ret_inv); eauto. }
    exists sid. split; [|intros ? ? [= -> _]; reflexivity].
    destruct ac.
    - apply bind_Returned_inv in H4 as (s6 & sid6 & H6 & [-> _]%ret_inv).
      pose proof H6 as H7%session_call_returned.
      unfold DB.session_call, DB.get_session in H6.
      apply bind_Returned_inv in H6 as (s7 & session & [-> ->]%gets_inv & H6).
      rewrite Hc in H6.
      apply bind_Returned_inv in H6 as (s8 & [] & _ & H6).
      apply bind_Returned_inv in H6 as (s9 & [] & _ & [_ [= <-]]%ret_inv).
      exact H7.
    - apply ret_inv in H4 as [-> _]. exact Hc. }
  split; [exact Hsid|]. destruct Hsid as (sid & Hc & _).
  unfold DB.is_connected, DB.get_session. unfold bind at 1. cbn [gets].
  rewrite Hc. reflexivity.
Qed.

Lemma returned_operation_leaves_session_open_witness :
  let s' := fst (DB.call DB.Commit (mkSt db_sample (db_world []))) in
  DB.is_connected s' = (s', Returned true).
Proof.
  intros s'.
  apply (returned_operation_leaves_session_open
           DB.Commit (mkSt db_sample (db_world [])) s' None).
  vm_compute. reflexivity.
Defined.

(** ** The configuration file and the services *)

Lemma no_char_cons (c a : ascii) (s : string) :
  no_char c (String a s) <-> Ascii.eqb a c = false /\ no_char c s.
Proof.
  unfold no_char. cbn [list_ascii_of_string List.forallb].
  rewrite andb_true_iff, negb_true_iff. reflexivity.
Qed.

Lemma until_brace_app (name rest : string) :
  no_char "}" name ->
  Config.until_brace (name ++ String "}" rest) = Some name.
Proof.
  induction name as [|a name IH]; intros H; [reflexivity|].
  apply no_char_cons in H as [Ha H]. rewrite append_cons.
  cbn [Config.until_brace]. rewrite Ha, (IH H). reflexivity.
Qed.



Lemma sub_go_skip (os : Config.Os) (a b : string) :
  Config.sub_go os (String.length a) (a ++ b) = Config.sub_go os 0 b.
Proof.
  induction a as [|c a IH]; [reflexivity|].
  rewrite append_cons. cbn [String.length Config.sub_go]. destruct a; [|exact IH].
  cbn in *. destruct b; reflexivity.
Qed.


Lemma length_append (a b : string) :
  String.length (a ++ b) = String.length a + String.length b.
Proof. induction a as [|c a IH]; [reflexivity|]. cbn. rewrite <- IH. reflexivity. Qed.

Lemma append_assoc (a b c : string) :
  ((a ++ b) ++ c)%string = (a ++ b ++ c)%string.
Proof.
  induction a as [|x a IH]; [reflexivity|]. rewrite !append_cons, IH. reflexivity.
Qed.

Lemma sub_go_past_match (os : Config.Os) (name rest : string) :
  Config.sub_go os (String.length name + 2) (String "{" (name ++ String "}" rest))
  = Config.sub_go os 0 rest.
Proof.
  replace (String.length name + 2)
    with (String.length ("{" ++ name ++ "}")%string)
    by (rewrite !length_append; cbn [String.length]; lia).
  replace (String "{" (name ++ String "}" rest))
    with (("{" ++ name ++ "}") ++ rest)%string
    by (rewrite !append_assoc; reflexivity).
  apply sub_go_skip.
Qed.





Lemma prepend_prepend (a b : string) (r : outcome string) :
  Config.prepend a (Config.prepend b r) = Config.prepend (a ++ b) r.
Proof. destruct r; cbn; [rewrite append_assoc|]; reflexivity. Qed.

Lemma sub_go_literal (os : Config.Os) (pre s : string) :
  no_char "$" pre ->
  Config.sub_go os 0 (pre ++ s) = Config.prepend pre (Config.sub_go os 0 s).
Proof.
  induction pre as [|a pre IH]; intros H.
  - change ("" ++ s)%string with s. destruct (Config.sub_go os 0 s); reflexivity.
  - apply no_char_cons in H as [Ha H]. rewrite append_cons.
    cbn [Config.sub_go]. rewrite Ha, (IH H), prepend_prepend. reflexivity.
Qed.

Lemma sub_go_step (os : Config.Os) (c : ascii) (s' : string) :
  Config.sub_go os 0 (String c s')
  = match (if Ascii.eqb c "$" then
             match s' with
             | String b s'' => if Ascii.eqb b "{" then Config.until_brace s'' else None
             | EmptyString => None
             end
           else None) with
    | Some (String n name) =>
        match Config.replacer os (String n name) with
        | Returned v =>
            Config.prepend v
              (Config.sub_go os (String.length (String n name) + 2) s')
        | Raised e => Raised e
        end
    | _ => Config.prepend (String c EmptyString) (Config.sub_go os 0 s')
    end.
Proof. reflexivity. Qed.

(** X16.  The substitution in a string replaces a placeholder by what
    [replacer] gives for its name, copies the text before it, and goes on
    after the closing brace: the replacement is not scanned again.  A
    string without [$] is returned as it is. *)
Theorem sub_replaces_each_placeholder_once
    (os : Config.Os) (pre name rest : string) :
  no_char "$" pre -> name <> ""%string -> no_char "}" name ->
  Config.sub os (pre ++ "${" ++ name ++ "}" ++ rest)
  = match Config.replacer os name with
    | Returned v => Config.prepend (pre ++ v) (Config.sub os rest)
    | Raised e => Raised e
    end
  /\ Config.sub os pre = Returned pre.
Proof.
  intros Hpre Hne Hname. unfold Config.sub. split.
  - rewrite (sub_go_literal _ _ _ Hpre).
    change ("${" ++ name ++ "}" ++ rest)%string
      with (String "$" (String "{" (name ++ String "}" rest))).
    rewrite sub_go_step. cbv beta iota. rewrite !Ascii.eqb_refl. cbv beta iota.
    rewrite (until_brace_app _ _ Hname).
    destruct name as [|n name]; [congruence|].
    destruct (Config.replacer os (String n name)) as [v|e]; [|reflexivity].
    rewrite sub_go_past_match, prepend_prepend. reflexivity.
  - clear Hne Hname. induction pre as [|a pre IH]; [reflexivity|].
    apply no_char_cons in Hpre as [Ha Hpre].
    rewrite sub_go_step, Ha, (IH Hpre). reflexivity.
Qed.


Lemma sub_replaces_each_placeholder_once_witness :
  Config.sub secrets_os "postgresql://app:${DB_PASSWORD}@db/app"
  = Returned "postgresql://app:pa${HOME}ss@db/app"%string.
Proof.
  destruct (sub_replaces_each_placeholder_once secrets_os
              "postgresql://app:" "DB_PASSWORD" "@db/app") as [E _];
    [reflexivity | discriminate | reflexivity |].
  change ("postgresql://app:${DB_PASSWORD}@db/app")%string
    with ("postgresql://app:" ++ "${" ++ "DB_PASSWORD" ++ "}" ++ "@db/app")%string.
  rewrite E. vm_compute. reflexivity.
Defined.

Lemma first_instance_spec (l : list Config.service) (c : Config.cls)
    (x : Config.service) :
  Config.first_instance l c = Some x
  <-> exists before after,
        l = before ++ x :: after
        /\ Config.isinstance x c = true
        /\ Forall (fun y => Config.isinstance y c = false) before.
Proof.
  induction l as [|y l IH]; cbn [Config.first_instance].
  - split; [discriminate|]. intros (b & a & E & _). destruct b; discriminate.
  - destruct (Config.isinstance y c) eqn:Hy.
    + split.
      * intros [= ->]. exists [], l. auto.
      * intros ([|z b] & a & E & Hx & Hb).
        -- injection E as -> _. reflexivity.
        -- injection E as -> _. apply Forall_cons in Hb as [Hz _]. congruence.
    + rewrite IH. split.
      * intros (b & a & -> & Hx & Hb). exists (y :: b), a. auto.
      * intros ([|z b] & a & E & Hx & Hb).
        -- injection E as -> _. congruence.
        -- injection E as -> ->. apply Forall_cons in Hb as [_ Hb]. eauto.
Qed.

(** X17.  [Settings.get_service] returns the first configured service
    that is an instance of the requested class, instances of subclasses
    included, and [None] exactly when there is none (in particular when
    no service is configured). *)
Theorem get_service_returns_first_instance
    (settings : Config.Settings) (base_class : Config.cls) (x : Config.service) :
  (Config.get_service settings base_class = Some x
   <-> exists before after,
         Config.services settings = Some (before ++ x :: after)
         /\ Config.isinstance x base_class = true
         /\ Forall (fun y => Config.isinstance y base_class = false) before)
  /\ (Config.get_service settings base_class = None
      <-> forall l y, Config.services settings = Some l -> y ∈ l ->
            Config.isinstance y base_class = false).
Proof.
  unfold Config.get_service. destruct settings as [[l|]]; cbn [Config.services].
  - assert (E : match l with [] => None | _ :: _ => Config.first_instance l base_class end
                = Config.first_instance l base_class) by (destruct l; reflexivity).
    rewrite E. split.
    + rewrite first_instance_spec. split.
      * intros (b & a & -> & H). eauto.
      * intros (b & a & [= ->] & H). eauto.
    + split.
      * intros Hn l' y [= <-] Hy.
        destruct (Config.isinstance y base_class) eqn:Hi; [|reflexivity].
        exfalso. clear E. induction l as [|z l IH]; [inversion Hy|].
        cbn [Config.first_instance] in Hn.
        destruct (Config.isinstance z base_class) eqn:Hz; [discriminate|].
        apply elem_of_cons in Hy as [->|Hy]; [congruence | auto].
      * intros H. clear E. induction l as [|z l IH]; [reflexivity|].
        cbn [Config.first_instance].
        rewrite (H (z :: l) z eq_refl) by (left).
        apply IH. intros l' y [= <-] Hy. apply (H (z :: l) y eq_refl). right. exact Hy.
  - split.
    + split; [discriminate|]. intros (b & a & [=] & _).
    + split; [discriminate | reflexivity].
Qed.

(** X18.  [authorize_api_key] authorizes exactly the credentials whose
    scheme is [bearer] in any letter case and whose key is not empty;
    every rejection carries status 401, never 403. *)
Theorem authorize_api_key_accepts_any_key
    (bearer : option Auth.HTTPAuthorizationCredentials) :
  (Auth.authorize_api_key bearer = inr tt
   <-> exists b, bearer = Some b
                 /\ Py.lower (Auth.scheme b) = "bearer"%string
                 /\ Auth.credentials b <> ""%string)
  /\ (forall e, Auth.authorize_api_key bearer = inl e -> Auth.status_code e = 401).
Proof.
  unfold Auth.authorize_api_key. destruct bearer as [[sch key]|];
    cbn [Auth.scheme Auth.credentials].
  - destruct (String.eqb_spec (Py.lower sch) "bearer") as [Hs|Hs].
    + destruct key as [|c key]; cbn.
      * split; [split; [discriminate|]|].
        -- intros (b & [= <-] & _ & H). cbn in H. congruence.
        -- intros e [= <-]. reflexivity.
      * split; [split; [|reflexivity]|discriminate].
        intros _. eexists. split; [reflexivity|]. cbn. split; [exact Hs|discriminate].
    + split; [split; [discriminate|]|].
      * intros (b & [= <-] & H & _). cbn in H. congruence.
      * intros e [= <-]. reflexivity.
  - split; [split; [discriminate|]|].
    + intros (b & [=] & _).
    + intros e [= <-]. reflexivity.
Qed.

(** ** Errors and unchecked arguments of the storage backends *)

(** X19.  With a client already set, the SFTP connection step probes the
    connection first.  It reconnects only when the probe raises an
    [SSHException]; any other exception of the probe leaves
    the step without a new connection being attempted and is raised as
    it is. *)
Theorem sftp_reconnects_only_after_ssh_exception
    (x : SFTP.t) (w : World) (e : exn) (fs : list (option exn)) :
  SFTP.sftp_client x = true ->
  faults (env w) = Some e :: fs ->
  (Exn.isinstance e [Exn.SSHException] = false ->
   SFTP.ensure_connection_body (mkSt x w)
   = (mkSt x (with_env (set_faults fs) w), Raised e))
  /\ (Exn.isinstance e [Exn.SSHException] = true ->
      forall fs', fs = None :: None :: None :: fs' ->
        SFTP.ensure_connection_body (mkSt x w)
        = (mkSt x (with_env (add_log INFO "Successfully connected to SFTP server")
                     (with_env (set_faults fs') w)),
           Returned tt)).
Proof.
  intros Hc Hf. destruct x as [h po u pw rp cl]. cbn in Hc. subst cl.
  destruct w as [[fs0 lg sl] sto d]. cbn in Hf. subst fs0.
  unfold SFTP.ensure_connection_body, SFTP._is_connected, try_, try_else,
    external_call, logger, modify_world, modify_self, bind, ret, gets, modify, raise.
  split.
  - intros He. cbn -[Exn.isinstance]. rewrite He. reflexivity.
  - intros He fs' ->. cbn -[Exn.isinstance]. rewrite He. reflexivity.
Qed.

Lemma sftp_reconnects_only_after_ssh_exception_witness :
  snd (SFTP.ensure_connection_body
         (mkSt (SFTP.set_sftp_client true sftp_sample)
               (world_with_faults [Some refused])))
  = Raised refused.
Proof.
  destruct (sftp_reconnects_only_after_ssh_exception
              (SFTP.set_sftp_client true sftp_sample)
              (world_with_faults [Some refused]) refused [])
    as [H _]; [reflexivity | reflexivity |].
  rewrite H; [reflexivity|]. vm_compute. reflexivity.
Defined.

(** X20.  When the directory in which the local backend is to write is
    a regular file, [upload_file_with_id] raises [FileExistsError] instead
    of returning [False], and changes nothing. *)
Theorem local_upload_raises_when_directory_is_a_file
    (s : st Local.t) (id : string) (file : list byte) (ext : option string)
    (content : list byte) :
  stat_disk (disk (the_stores s))
    (Pathlib.parent
       (Pathlib.truediv (Local.root_path (self s)) (get_storage_path id ext)))
  = Some (File content) ->
  Local.upload_file_with_id id file ext s
  = (s, Raised (Exn.mk Exn.FileExistsError "File exists")).
Proof.
  intros H. destruct s as [x w]. unfold the_stores in H. cbn [self world] in H.
  unfold Local.upload_file_with_id. unfold bind at 1. cbn [gets self].
  set (dir := Pathlib.parent _) in *.
  unfold Path_mkdir.
  assert (E : forall fuel,
             mkdir_fuel (S fuel) dir true true (mkSt x w)
             = (mkSt x w, Raised (Exn.mk Exn.FileExistsError "File exists"))).
  { intros fuel. cbn [mkdir_fuel]. unfold try_, try_else, os_mkdir, get_disk.
    unfold bind at 1. cbn [gets world]. rewrite H. cbn [raise].
    change (Exn.isinstance _ [Exn.OSError]) with true. cbv iota.
    change (Exn.isinstance _ [Exn.FileNotFoundError]) with false. cbv iota.
    unfold Path_is_dir, get_disk. unfold_monad. cbn [world]. rewrite H. reflexivity. }
  rewrite (bind_raised _ _ _ _ _ (E _)). reflexivity.
Qed.

Lemma local_upload_raises_when_directory_is_a_file_witness :
  upload_file_with_id (compute_file_id blob21) blob21 (Some "txt") local_blocked
  = (local_blocked, Raised (Exn.mk Exn.FileExistsError "File exists")).
Proof.
  apply (local_upload_raises_when_directory_is_a_file
           local_blocked (compute_file_id blob21) blob21 (Some "txt") []).
  vm_compute. reflexivity.
Defined.

Lemma splitroot_absolute (s : string) :
  fst (Pathlib.splitroot (String "/" s)) <> ""%string.
Proof.
  destruct s as [|c s]; [discriminate|].
  destruct (ascii_dec c "/") as [->|Nc].
  - destruct s as [|c2 s]; [discriminate|].
    destruct (ascii_dec c2 "/") as [->|Nc2]; [discriminate|].
    destruct c2 as [[] [] [] [] [] [] [] []]; first [discriminate | congruence].
  - destruct c as [[] [] [] [] [] [] [] []]; first [discriminate | congruence].
Qed.

(** X21.  The identifier is not checked: for an identifier that starts
    with [/] the storage path is absolute, and joining it to a root
    yields the storage path itself, outside the root. *)
Theorem absolute_id_escapes_root_path
    (rest : string) (ext : option string) (root : Path) :
  let storage_path := get_storage_path (String "/" rest) ext in
  Pathlib.root storage_path <> ""%string
  /\ Pathlib.truediv root storage_path = storage_path.
Proof.
  intros storage_path.
  assert (Hr : Pathlib.root storage_path <> ""%string).
  { unfold storage_path, get_storage_path. cbv zeta.
    unfold Py.slice at 1.
    change (substring 0 (3 - 0) (String "/" rest))
      with (String "/" (substring 0 2 rest)).
    rewrite append_cons. unfold Pathlib.of_string.
    pose proof (splitroot_absolute
                  (substring 0 2 rest ++ "/" ++ Py.slice 3 6 (String "/" rest) ++ "/"
                   ++ String "/" rest
                   ++ (if Py.truthy_str ext
                       then "." ++ Py.lstrip "." (default "" ext) else ""))%string) as Hs.
    destruct (Pathlib.splitroot _) as [r rel]. exact Hs. }
  split; [exact Hr|].
  unfold Pathlib.truediv. destruct (Pathlib.root storage_path); [congruence | reflexivity].
Qed.

Ltac run_method :=
  unfold storage_retry, Tenacity.retry, Tenacity.retry_if_exception_type,
    try_, try_else, external_call, logger, sleep, modify_world, modify_self,
    bind, ret, gets, modify, raise;
  cbn -[Exn.isinstance].

(** X22.  What [exists] does when the library call that looks the path
    up fails: S3 logs the exception and returns [False] for a botocore
    error, whatever the bucket holds; GCS raises the exception of
    [blob.exists()] as it is; SFTP returns [False] for
    [FileNotFoundError] and raises any other exception of [stat]. *)
Theorem exists_on_library_error (p : Path) (e : exn) (fs : list (option exn))
    (w : World) :
  (forall x : S3.t,
     Exn.isinstance e [Exn.BotoCoreError; Exn.ClientError] = true ->
     faults (env w)
     = List.repeat None (if S3.s3_session x then 2 else 3) ++ Some e :: fs ->
     let after := S3.exists_ p (mkSt x w) in
     snd after = Returned false
     /\ last_level (fst after) = Some EXCEPTION
     /\ the_faults (fst after) = fs)
  /\ (forall x : GCS.t,
        GCS.gcs_client x = true -> GCS.bucket x = true ->
        faults (env w) = Some e :: fs ->
        snd (GCS.exists_ p (mkSt x w)) = Raised e)
  /\ (forall x : SFTP.t,
        SFTP.sftp_client x = true ->
        faults (env w) = None :: Some e :: fs ->
        snd (SFTP.exists_ p (mkSt x w))
        = if Exn.isinstance e [Exn.FileNotFoundError]
          then Returned false else Raised e).
Proof.
  destruct w as [[fs0 lg sl] sto d]. cbn [env faults].
  split; [|split].
  - intros [bn ak sk eu rp ss] He Hf. cbn [S3.s3_session] in Hf. subst fs0.
    unfold S3.exists_, S3.key_listed, S3.list_key, S3.get_client, S3.get_client_body.
    destruct ss; run_method; rewrite He; cbn -[Exn.isinstance];
      (split; [reflexivity|]); (split; [|reflexivity]);
      unfold last_level, the_log; cbn [fst self world env log];
      rewrite !List.map_app; cbn [List.map]; rewrite List.last_last; reflexivity.
  - intros [bn pi rp gc bk] Hc Hb Hf. cbn in Hc, Hb. subst gc bk fs0.
    unfold GCS.exists_, GCS.ensure_connection, GCS.ensure_connection_body,
      GCS.blob, GCS.blob_exists.
    run_method. reflexivity.
  - intros [h po u pw rp cl] Hc Hf. cbn in Hc. subst cl fs0.
    unfold SFTP.exists_, SFTP.ensure_connection, SFTP.ensure_connection_body,
      SFTP._is_connected, SFTP.stat, SFTP.get_files.
    run_method. destruct (Exn.isinstance e [Exn.FileNotFoundError]); reflexivity.
Qed.

Lemma exists_on_library_error_witness :
  snd (S3.exists_ (get_storage_path (compute_file_id blob21) (Some "txt"))
         (mkSt (S3.set_s3_session true s3_sample)
               (with_env (set_faults [None; None; Some throttled])
                         (world s3_after_upload))))
  = Returned false.
Proof.
  destruct (exists_on_library_error
              (get_storage_path (compute_file_id blob21) (Some "txt"))
              throttled []
              (with_env (set_faults [None; None; Some throttled])
                        (world s3_after_upload))) as [H _].
  apply (H (S3.set_s3_session true s3_sample)); reflexivity.
Defined.

(** X23.  [execute] with a query that is neither a string nor a clause
    never sends a statement; in a connected task it raises [TypeError] at
    once, without a retry, and changes nothing. *)
Theorem execute_rejects_other_queries
    (s : st DB.t) (params : option (gmap string DB.value)) (auto_commit : bool) :
  issued (the_db (fst (DB.execute DB.QOther params auto_commit s)))
  = issued (the_db s)
  /\ (is_Some (DB.ctx_get (world s)) ->
      DB.execute DB.QOther params auto_commit s
      = (s, Raised (Exn.mk Exn.TypeError
                      "Query must be a SQL string or SQLAlchemy ClauseElement"))).
Proof.
  split.
  - destruct (DB.execute DB.QOther params auto_commit s) as [s' r] eqn:E.
    revert E. apply (keeps_apply (fun s : st DB.t => issued (the_db s))).
    unfold DB.execute, DB.retry_on_db_errors, Tenacity.retry, DB.execute_body,
      DB._should_retry_on_exception, DB.connect, DB.get_session,
      DB.create_async_engine, DB.make_session.
    solve_keeps.
  - intros Hs.
    unfold DB.execute, DB.retry_on_db_errors, Tenacity.retry.
    change (Tenacity.stop_after_attempt DB.db_policy - 1) with 4.
    cbn [Tenacity.attempts]. unfold DB.execute_body.
    rewrite (bind_eq _ _ _ _ _ (connect_connected s Hs)).
    reflexivity.
Qed.

Lemma execute_rejects_other_queries_witness :
  let s := fst (DB.connect (mkSt db_sample (db_world []))) in
  snd (DB.execute DB.QOther None true s)
  = Raised (Exn.mk Exn.TypeError
              "Query must be a SQL string or SQLAlchemy ClauseElement").
Proof.
  intros s.
  destruct (execute_rejects_other_queries s None true) as [_ H].
  rewrite H; [reflexivity|]. vm_compute. eauto.
Defined.
